(** * MenuExtraction: the staged extraction pipeline

    A shallow embedding of the pipeline's core and the properties its
    specification states about it:

    - [Json], [Py]: the JSON values the program passes around and the few
      Python operations on them that the code relies on;
    - [Pydantic], [utils_model], [backend_utils_model]: the two copies of the
      schema classes ([src/utils/model.py], strict; and
      [src/backend/utils/model.py], lenient) and structural validation;
    - [Executor]: [bounded_gather], the semaphore-bounded [asyncio.gather];
    - [Extractor]: the stage runners of [src/main.py];
    - [Backend]: the HTTP handlers of [src/backend/main.py];
    - [Streamlit]: the session-state handlers of [src/streamlit.py]. *)

From Stdlib Require Import ZArith String Ascii List Bool Lia PrimFloat FloatOps SpecFloat.
From stdpp Require Import base option list gmap strings pretty.

Local Open Scope string_scope.

(** ** Exceptions *)

(** The exceptions the modelled code raises or lets through. *)
Inductive exn :=
| ValueError (msg : string)
| KeyError (key : string)
| IndexError
| TypeError
| JSONDecodeError
| ValidationError
| APIError (msg : string)
| HTTPException (status_code : Z) (detail : string).

(** A computation that returns or raises. *)
Definition result (A : Type) : Type := exn + A.

Definition raise {A} (e : exn) : result A := inl e.

#[global] Instance result_ret : MRet result := fun _ a => inr a.
#[global] Instance result_bind : MBind result := fun _ _ k m =>
  match m with
  | inl e => inl e
  | inr a => k a
  end.

Definition ret {A} (a : A) : result A := mret a.

(** ** JSON values *)

Module Json.

(** What [json.loads] produces: [None], [bool], [int], [float], [str], [list]
    and [dict] (insertion-ordered, kept as an association list). *)
Inductive json :=
| JNull
| JBool (b : bool)
| JInt (z : Z)
| JFloat (f : float)
| JStr (s : string)
| JArr (items : list json)
| JObj (members : list (string * json)).

(** [d.get(k)] on a dict. *)
Fixpoint dict_get (k : string) (members : list (string * json)) : option json :=
  match members with
  | [] => None
  | (k', v) :: rest => if String.eqb k' k then Some v else dict_get k rest
  end.

(** [k in d]. *)
Definition dict_contains (k : string) (members : list (string * json)) : bool :=
  match dict_get k members with Some _ => true | None => false end.

Definition keys (members : list (string * json)) : list string := map fst members.

(** [x in l] for a list of strings. *)
Fixpoint mem (k : string) (l : list string) : bool :=
  match l with
  | [] => false
  | k' :: rest => String.eqb k' k || mem k rest
  end.

End Json.
Import Json.

(** ** Python operations on dynamically typed values *)

Module Py.

(** [v[k]] with a string key: [KeyError] on a dict without the key; a list
    or a string indexed by a string is a [TypeError], as is any value that
    is not subscriptable. *)
Definition getitem (v : json) (k : string) : result json :=
  match v with
  | JObj members =>
      match dict_get k members with
      | Some x => ret x
      | None => raise (KeyError k)
      end
  | _ => raise TypeError
  end.

(** [for x in v]: a list yields its items, a dict its keys, a string its
    characters; anything else is not iterable. *)
Fixpoint chars (s : string) : list json :=
  match s with
  | EmptyString => []
  | String c rest => JStr (String c EmptyString) :: chars rest
  end.

Definition iter (v : json) : result (list json) :=
  match v with
  | JArr items => ret items
  | JObj members => ret (map (fun kv => JStr (fst kv)) members)
  | JStr s => ret (chars s)
  | _ => raise TypeError
  end.

(** [v == s] for a string [s]: only an equal string compares equal. *)
Definition eq_str (v : json) (s : string) : bool :=
  match v with
  | JStr s' => String.eqb s' s
  | _ => false
  end.

(** [f == z] for a float and an int: exact, as Python compares them. *)
Definition float_eq_int (f : float) (z : Z) : bool :=
  match Prim2SF f with
  | S754_zero _ => (z =? 0)%Z
  | S754_finite s m e =>
      let v := if s then Z.neg m else Z.pos m in
      if (0 <=? e)%Z then (z =? v * 2 ^ e)%Z
      else ((v mod 2 ^ (- e) =? 0) && (z =? v / 2 ^ (- e)))%Z
  | _ => false
  end.

(** [v == n] for an int [n]: ints, bools (as 0 and 1) and floats compare
    by value; nothing else equals an int. *)
Definition eq_int (v : json) (n : Z) : bool :=
  match v with
  | JInt z => (z =? n)%Z
  | JBool b => ((if b then 1 else 0) =? n)%Z
  | JFloat f => float_eq_int f n
  | _ => false
  end.

(** [sub in s] for two strings. *)
Fixpoint is_substring (sub s : string) : bool :=
  String.prefix sub s ||
  match s with
  | EmptyString => false
  | String _ rest => is_substring sub rest
  end.

(** [k in v] for a string [k]: a key of a dict, an item of a list, a
    substring of a string. *)
Definition contains (v : json) (k : string) : result bool :=
  match v with
  | JObj members => ret (dict_contains k members)
  | JArr items => ret (existsb (fun x => eq_str x k) items)
  | JStr s => ret (is_substring k s)
  | _ => raise TypeError
  end.

(** The first item a [for ... if ...: break] loop stops at; the test may
    raise on an item it reaches. *)
Fixpoint find_first (test : json -> result bool) (items : list json) : result (option json) :=
  match items with
  | [] => ret None
  | x :: rest =>
      b ← test x;
      if b : bool then ret (Some x) else find_first test rest
  end.

(** Truthiness, as [if not v] tests it. *)
Definition truthy (v : json) : bool :=
  match v with
  | JNull => false
  | JBool b => b
  | JInt z => negb (z =? 0)%Z
  | JFloat f => negb (PrimFloat.eqb f 0%float)
  | JStr s => negb (String.eqb s "")
  | JArr items => match items with [] => false | _ => true end
  | JObj members => match members with [] => false | _ => true end
  end.

(** [l[i]] on a list: a negative index counts from the end. *)
Definition list_index {A} (l : list A) (i : Z) : result A :=
  let n := Z.of_nat (length l) in
  let j := if (i <? 0)%Z then (n + i)%Z else i in
  if ((0 <=? j) && (j <? n))%Z
  then match nth_error l (Z.to_nat j) with
       | Some x => ret x
       | None => raise IndexError
       end
  else raise IndexError.

End Py.

(** ** Structural validation (pydantic) *)

Module Pydantic.

(** [ConfigDict(extra=...)]. *)
Inductive extra_mode := Forbid | Ignore.

(** A field's annotation. [SModel] is a [BaseModel] subclass: its class
    name, its [extra] setting and its fields in declaration order, each with
    its default ([None]: the field is required). *)
Inductive schema :=
| SStr
| SFloat
| SBool
| SOptional (s : schema)
| SList (s : schema)
| SModel (cls : string) (extra : extra_mode) (fields : list (string * schema * option json)).

Definition field : Type := string * schema * option json.
Definition field_name (f : field) : string := fst (fst f).

(** pydantic-core's lax coercions into [float] and [bool] are the
    library's, not the repository's: they are an interface here. *)
Class Scalars := {
  lax_float : json -> option json;
  lax_bool : json -> option json
}.

(** Keys of the input that no field declares. *)
Definition extra_keys (fields : list field) (members : list (string * json)) : list string :=
  filter (fun k => negb (mem k (map field_name fields))) (keys members).

Definition extras_allowed (extra : extra_mode) (fields : list field)
    (members : list (string * json)) : bool :=
  match extra with
  | Ignore => true
  | Forbid => match extra_keys fields members with [] => true | _ => false end
  end.

(** The field loop of a model: each declared field, in order, is read from
    the input dict and validated by [rec], or takes its default; a required
    field that is missing fails. *)
Definition validate_fields (rec : schema -> json -> option json)
    (members : list (string * json)) : list field -> option (list (string * json)) :=
  fix go (fs : list field) : option (list (string * json)) :=
    match fs with
    | [] => Some []
    | (name, ty, default) :: fs' =>
        match dict_get name members with
        | Some x =>
            match rec ty x, go fs' with
            | Some x', Some rest => Some ((name, x') :: rest)
            | _, _ => None
            end
        | None =>
            match default, go fs' with
            | Some d, Some rest => Some ((name, d) :: rest)
            | _, _ => None
            end
        end
    end.

Section Validate.
Context `{Scalars}.

(** [validate s v]: the validated value in its [model_dump] form (a model
    is the dict of its declared fields, in declaration order), or [None]
    when pydantic raises [ValidationError]. *)
Fixpoint validate (s : schema) (v : json) {struct s} : option json :=
  match s with
  | SStr => match v with JStr _ => Some v | _ => None end
  | SFloat => lax_float v
  | SBool => lax_bool v
  | SOptional s' => match v with JNull => Some JNull | _ => validate s' v end
  | SList s' =>
      match v with
      | JArr items => JArr <$> mapM (validate s') items
      | _ => None
      end
  | SModel _ extra fields =>
      match v with
      | JObj members =>
          match validate_fields validate members fields with
          | Some out => if extras_allowed extra fields members then Some (JObj out) else None
          | None => None
          end
      | _ => None
      end
  end.

(** [cls.model_validate(obj)]; the instance is represented by its dump. *)
Definition model_validate (cls : schema) (obj : json) : result json :=
  match validate cls obj with
  | Some m => ret m
  | None => raise ValidationError
  end.

(** [instance.model_dump()]. *)
Definition model_dump (instance : json) : json := instance.

End Validate.

Definition required (name : string) (ty : schema) : field := (name, ty, None).
Definition optional (name : string) (ty : schema) (default : json) : field :=
  (name, ty, Some default).

Definition fields_of (s : schema) : list field :=
  match s with
  | SModel _ _ fields => fields
  | _ => []
  end.

(** The field names a model class declares. *)
Definition declared (s : schema) : list string := map field_name (fields_of s).

Definition extra_of (s : schema) : option extra_mode :=
  match s with
  | SModel _ extra _ => Some extra
  | _ => None
  end.

End Pydantic.
Import Pydantic.

(** ** The schema classes of [src/utils/model.py] *)

Module utils_model.

Definition Money : schema :=
  SModel "Money" Forbid
    [ required "amount" SFloat;
      optional "currency" (SOptional SStr) JNull ].

Definition PriceByVariation : schema :=
  SModel "PriceByVariation" Forbid
    [ required "variation_name" SStr;
      optional "price" (SOptional Money) JNull ].

(* phase 1 *)
Definition SubcategoryRef : schema :=
  SModel "SubcategoryRef" Forbid
    [ required "name_raw" SStr ].

Definition CategoryRef : schema :=
  SModel "CategoryRef" Forbid
    [ required "name_raw" SStr;
      optional "subcategories" (SList SubcategoryRef) (JArr []) ].

Definition Categories : schema :=
  SModel "Categories" Forbid
    [ optional "categories" (SList CategoryRef) (JArr []) ].

(* phase 2 *)
Definition Variation : schema :=
  SModel "Variation" Forbid
    [ required "name_raw" SStr;
      optional "price" (SOptional Money) JNull;
      optional "size" (SOptional SStr) JNull ].

Definition Item : schema :=
  SModel "Item" Forbid
    [ required "name_raw" SStr;
      optional "description_raw" (SOptional SStr) JNull;
      optional "variations" (SList Variation) (JArr []);
      optional "base_price" (SOptional Money) JNull;
      optional "size" (SOptional SStr) JNull ].

Definition CategoryItems : schema :=
  SModel "CategoryItems" Forbid
    [ optional "items" (SList Item) (JArr []);
      optional "description_raw" (SOptional SStr) JNull ].

Definition SubcategoryItems : schema :=
  SModel "SubcategoryItems" Forbid
    [ required "name_raw" SStr;
      optional "items" (SList Item) (JArr []);
      optional "description_raw" (SOptional SStr) JNull ].

Definition CategorywithItems : schema :=
  SModel "CategorywithItems" Forbid
    [ required "name_raw" SStr;
      optional "category_items" (SList CategoryItems) (JArr []);
      optional "subcategory_items" (SList SubcategoryItems) (JArr []);
      required "note" SStr ].

(* phase 3 *)
Definition BaseOption : schema :=
  SModel "BaseOption" Forbid
    [ required "name_raw" SStr;
      optional "price" (SOptional Money) JNull;
      optional "default" SBool (JBool false);
      optional "price_by_variation" (SOptional (SList PriceByVariation)) JNull ].

Definition CategoryBase : schema :=
  SModel "CategoryBase" Forbid
    [ required "name_raw" SStr;
      optional "base_options" (SOptional (SList BaseOption)) (JArr []);
      optional "subcategories_base" (SOptional (SList BaseOption)) (JArr []) ].

(* phase 4 *)
Definition AddonOption : schema :=
  SModel "AddonOption" Forbid
    [ required "name_raw" SStr;
      optional "default" SBool (JBool false);
      optional "price" (SOptional Money) JNull;
      optional "price_by_variation" (SOptional (SList PriceByVariation)) (JArr []) ].

Definition ItemsAddons : schema :=
  SModel "ItemsAddons" Forbid
    [ required "name_raw" SStr;
      optional "addons" (SList AddonOption) (JArr []) ].

Definition SubcategoryAddons : schema :=
  SModel "SubcategoryAddons" Forbid
    [ required "name_raw" SStr;
      optional "items_addons" (SOptional (SList ItemsAddons)) (JArr []) ].

Definition CategoryItemAddons : schema :=
  SModel "CategoryItemAddons" Forbid
    [ required "name_raw" SStr;
      optional "subcategory_items" (SOptional (SList SubcategoryAddons)) (JArr []);
      optional "items_addons" (SOptional (SList ItemsAddons)) (JArr []) ].

End utils_model.

(** ** The schema classes of [src/backend/utils/model.py] *)

Module backend_utils_model.

Definition Money : schema :=
  SModel "Money" Ignore
    [ required "amount" SFloat;
      optional "currency" (SOptional SStr) JNull ].

Definition PriceByVariation : schema :=
  SModel "PriceByVariation" Ignore
    [ required "variation_name" SStr;
      optional "price" (SOptional Money) JNull ].

(* phase 1 *)
Definition SubcategoryRef : schema :=
  SModel "SubcategoryRef" Ignore
    [ required "name_raw" SStr ].

Definition CategoryRef : schema :=
  SModel "CategoryRef" Ignore
    [ required "name_raw" SStr;
      optional "subcategories" (SList SubcategoryRef) (JArr []) ].

Definition Categories : schema :=
  SModel "Categories" Ignore
    [ optional "categories" (SList CategoryRef) (JArr []) ].

(* phase 2 *)
Definition Variation : schema :=
  SModel "Variation" Ignore
    [ required "name_raw" SStr;
      optional "price" (SOptional Money) JNull;
      optional "size" (SOptional SStr) JNull ].

Definition Item : schema :=
  SModel "Item" Ignore
    [ required "name_raw" SStr;
      optional "description_raw" (SOptional SStr) JNull;
      optional "variations" (SList Variation) (JArr []);
      optional "base_price" (SOptional Money) JNull;
      optional "size" (SOptional SStr) JNull ].

Definition CategoryItems : schema :=
  SModel "CategoryItems" Ignore
    [ optional "items" (SList Item) (JArr []);
      optional "description_raw" (SOptional SStr) JNull ].

Definition SubcategoryItems : schema :=
  SModel "SubcategoryItems" Ignore
    [ required "name_raw" SStr;
      optional "items" (SList Item) (JArr []);
      optional "description_raw" (SOptional SStr) JNull ].

Definition CategorywithItems : schema :=
  SModel "CategorywithItems" Ignore
    [ required "name_raw" SStr;
      optional "category_items" (SList CategoryItems) (JArr []);
      optional "subcategory_items" (SList SubcategoryItems) (JArr []);
      optional "note" (SOptional SStr) (JStr "No notes provided") ].

(* phase 3 *)
Definition BaseOption : schema :=
  SModel "BaseOption" Ignore
    [ required "name_raw" SStr;
      optional "price" (SOptional Money) JNull;
      optional "default" SBool (JBool false);
      optional "price_by_variation" (SOptional (SList PriceByVariation)) JNull ].

Definition CategoryBase : schema :=
  SModel "CategoryBase" Ignore
    [ required "name_raw" SStr;
      optional "base_options" (SOptional (SList BaseOption)) (JArr []);
      optional "subcategories_base" (SOptional (SList BaseOption)) (JArr []) ].

(* phase 4 *)
Definition AddonOption : schema :=
  SModel "AddonOption" Ignore
    [ required "name_raw" SStr;
      optional "default" SBool (JBool false);
      optional "price" (SOptional Money) JNull;
      optional "price_by_variation" (SOptional (SList PriceByVariation)) (JArr []) ].

Definition ItemsAddons : schema :=
  SModel "ItemsAddons" Ignore
    [ required "name_raw" SStr;
      optional "addons" (SList AddonOption) (JArr []) ].

Definition SubcategoryAddons : schema :=
  SModel "SubcategoryAddons" Ignore
    [ required "name_raw" SStr;
      optional "items_addons" (SOptional (SList ItemsAddons)) (JArr []) ].

Definition CategoryItemAddons : schema :=
  SModel "CategoryItemAddons" Ignore
    [ required "name_raw" SStr;
      optional "subcategory_items" (SOptional (SList SubcategoryAddons)) (JArr []);
      optional "items_addons" (SOptional (SList ItemsAddons)) (JArr []) ].

End backend_utils_model.

(** ** The four stages and their output schemas *)

Inductive stage := Stage1 | Stage2 | Stage3 | Stage4.

(** The schema a stage validates each unit's response against, in the
    strict copy ([src/main.py], [src/streamlit.py]) ... *)
Definition strict_schema (k : stage) : schema :=
  match k with
  | Stage1 => utils_model.Categories
  | Stage2 => utils_model.CategorywithItems
  | Stage3 => utils_model.CategoryBase
  | Stage4 => utils_model.CategoryItemAddons
  end.

(** ... and in the lenient copy ([src/backend/main.py]). *)
Definition lenient_schema (k : stage) : schema :=
  match k with
  | Stage1 => backend_utils_model.Categories
  | Stage2 => backend_utils_model.CategorywithItems
  | Stage3 => backend_utils_model.CategoryBase
  | Stage4 => backend_utils_model.CategoryItemAddons
  end.

(** ** The bounded fan-out executor ([bounded_gather]) *)

Module Executor.

(** [asyncio.Semaphore(value)]: a negative initial value is refused. *)
Definition Semaphore (value : Z) : result Z :=
  if (value <? 0)%Z
  then raise (ValueError "Semaphore initial value must be >= 0")
  else ret value.

Section Loop.
Context {A : Type}.

(** A coroutine as the event loop sees it: the number of times it
    suspends (awaits the network) before it completes, and how it
    completes: with a value or with an exception. *)
Record coro := Coro { suspensions : nat; completion : result A }.

(** [_run(coro)] is [async with sem: return await coro]: the task waits
    for the semaphore, then runs the coroutine while it holds a permit,
    and gives the permit back when the coroutine returns or raises. *)
Inductive status :=
| Waiting
| Running (left : nat)
| Done.

Record task := Task { body : coro; state : status }.

(** The event loop while [gather] is awaited: the semaphore's counter, the
    tasks in the order [gather] received them, and the first exception a
    task raised, which is what [gather] propagates. *)
Record loop := Loop {
  sem_value : Z;
  tasks : list task;
  raised : option exn
}.

Definition start (sem : Z) (coros : list coro) : loop :=
  {| sem_value := sem;
     tasks := map (fun c => {| body := c; state := Waiting |}) coros;
     raised := None |}.

Definition is_done (t : task) : bool :=
  match state t with Done => true | _ => false end.

Definition is_running (t : task) : bool :=
  match state t with Running _ => true | _ => false end.

(** The tasks that hold a permit: past the acquisition, not yet completed. *)
Definition in_flight (l : loop) : nat :=
  length (List.filter is_running (tasks l)).

(** A task can take a step when it runs, or when it waits and the
    semaphore has a permit left. *)
Definition can_move (l : loop) (t : task) : bool :=
  match state t with
  | Waiting => (0 <? sem_value l)%Z
  | Running _ => true
  | Done => false
  end.

Definition set_state (i : nat) (t : task) (s : status) (l : list task) : list task :=
  <[i := {| body := body t; state := s |}]> l.

(** One step of task [i]: acquire, resume, or complete and release. *)
Definition fire (i : nat) (l : loop) : loop :=
  match tasks l !! i with
  | None => l
  | Some t =>
      match state t with
      | Waiting =>
          if (0 <? sem_value l)%Z
          then {| sem_value := sem_value l - 1;
                  tasks := set_state i t (Running (suspensions (body t))) (tasks l);
                  raised := raised l |}
          else l
      | Running (S n) =>
          {| sem_value := sem_value l;
             tasks := set_state i t (Running n) (tasks l);
             raised := raised l |}
      | Running O =>
          {| sem_value := sem_value l + 1;
             tasks := set_state i t Done (tasks l);
             raised := match raised l, completion (body t) with
                       | None, inl e => Some e
                       | r, _ => r
                       end |}
      | Done => l
      end
  end.

(** The indices of the tasks that can take a step. *)
Definition enabled (l : loop) : list nat :=
  List.filter
    (fun i => match tasks l !! i with Some t => can_move l t | None => false end)
    (seq 0 (length (tasks l))).

(** The loop picks one of the enabled tasks; which one is the
    scheduler's choice [c]. With nothing enabled the loop idles. *)
Definition step (c : nat) (l : loop) : loop :=
  match enabled l with
  | [] => l
  | (i0 :: _) as en => fire (nth (c mod length en) en i0) l
  end.

Definition run (sched : list nat) (l : loop) : loop :=
  fold_left (fun l c => step c l) sched l.

(** The values of the completed tasks, in task order. *)
Definition values (ts : list task) : list A :=
  omap (fun t => match completion (body t) with inr a => Some a | inl _ => None end) ts.

(** What the awaiter of [asyncio.gather] over the tasks sees: the first exception
    raised, as soon as there is one; the list of all results once every
    task is done; nothing before. *)
Definition gathered (l : loop) : option (result (list A)) :=
  match raised l with
  | Some e => Some (inl e)
  | None => if forallb is_done (tasks l) then Some (inr (values (tasks l))) else None
  end.

(** [await bounded_gather(coros, limit)] observed along the schedule
    [sched]: [None] when the call has not resolved by the end of it. *)
Definition bounded_gather (sched : list nat) (coros : list coro) (limit : Z)
    : option (result (list A)) :=
  match Semaphore limit with
  | inl e => Some (inl e)
  | inr sem => gathered (run sched (start sem coros))
  end.

(** Steps the loop needs to complete every task. *)
Definition cost (t : task) : nat :=
  match state t with
  | Waiting => suspensions (body t) + 2
  | Running n => n + 1
  | Done => 0
  end.

Definition remaining (l : loop) : nat := sum_list (map cost (tasks l)).

Definition work (coros : list coro) : nat := remaining (start 0 coros).

End Loop.

Arguments coro : clear implicits.
Arguments task : clear implicits.
Arguments loop : clear implicits.

End Executor.

(** ** Texts: files and service responses *)

Module Text.

(** A text is looked at only through [json.loads]: either it is a JSON
    document, given by the value it denotes, or it is not. [json.dumps]
    writes the document of a value. *)
Inductive text :=
| JsonText (j : json)
| OtherText (s : string).

Definition json_loads (t : text) : result json :=
  match t with
  | JsonText j => ret j
  | OtherText _ => raise JSONDecodeError
  end.

Definition json_dumps (j : json) : text := JsonText j.

End Text.
Import Text.

(** ** Module-level configuration of [src/main.py] *)

Module Config.

(** [str.isspace] on an ASCII character, which is what [str.strip]
    removes: the C whitespace and the separators U+001C to U+001F. *)
Definition is_space (c : ascii) : bool :=
  let n := nat_of_ascii c in
  (((9 <=? n) && (n <=? 13)) || ((28 <=? n) && (n <=? 32)))%nat.

(** The whitespace [int] skips around an ASCII numeral: C's [isspace]
    only, so the separators U+001C to U+001F are not skipped. *)
Definition int_space (c : ascii) : bool :=
  let n := nat_of_ascii c in
  (((9 <=? n) && (n <=? 13)) || (n =? 32))%nat.

Definition digit (c : ascii) : option Z :=
  let n := nat_of_ascii c in
  if ((48 <=? n) && (n <=? 57))%nat then Some (Z.of_nat (n - 48)) else None.

Fixpoint lstrip (s : string) : string :=
  match s with
  | String c rest => if is_space c then lstrip rest else s
  | EmptyString => EmptyString
  end.

Definition strip (s : string) : string :=
  String.rev (lstrip (String.rev (lstrip s))).

Fixpoint int_lstrip (s : string) : string :=
  match s with
  | String c rest => if int_space c then int_lstrip rest else s
  | EmptyString => EmptyString
  end.

Definition int_strip (s : string) : string :=
  String.rev (int_lstrip (String.rev (int_lstrip s))).

(** [after_digit]: the previous character was a digit, so an underscore
    may follow and the numeral may end here. *)
Fixpoint digits (acc : Z) (after_digit : bool) (s : string) : option Z :=
  match s with
  | EmptyString => if after_digit then Some acc else None
  | String c rest =>
      match digit c with
      | Some d => digits (10 * acc + d)%Z true rest
      | None =>
          if Ascii.eqb c "_"%char && after_digit then digits acc false rest else None
      end
  end.

(** Python's [int(s)] on an ASCII string: surrounding whitespace, an
    optional sign, then decimal digits, single underscores allowed between
    digits. *)
Definition int (s : string) : result Z :=
  let parsed :=
    match int_strip s with
    | String "+"%char rest => digits 0 false rest
    | String "-"%char rest => Z.opp <$> digits 0 false rest
    | body => digits 0 false body
    end in
  match parsed with
  | Some z => ret z
  | None => raise (ValueError "invalid literal for int() with base 10")
  end.

(** [os.getenv(key, default)]. *)
Definition getenv (environ : gmap string string) (key default : string) : string :=
  match environ !! key with
  | Some v => v
  | None => default
  end.

(** [MAX_CONCURRENCY = int(os.getenv("MAX_CONCURRENCY", "4"))], evaluated
    when the module is imported. *)
Definition MAX_CONCURRENCY (environ : gmap string string) : result Z :=
  int (getenv environ "MAX_CONCURRENCY" "4").

Definition OUTPUT_DIR : string := "outputs".
Definition CATEGORIES_FILE : string := OUTPUT_DIR ++ "/categories_all_pages.json".
Definition ITEMS_FILE : string := OUTPUT_DIR ++ "/category_items_all_pages.json".
Definition CATEGORY_BASES_FILE : string := OUTPUT_DIR ++ "/category_bases_all_pages.json".
Definition ITEMS_ADDONS_FILE : string := OUTPUT_DIR ++ "/category_items_addons_all_pages.json".

End Config.

(** ** Requests to the inference service *)

Module Inference.

(** A template variable: a value passed as it is, or the text
    [json.dumps(v, indent=2)]. *)
Inductive arg :=
| Plain (v : json)
| Dumped (v : json).

(** A rendered prompt, kept as the template's name and its variables (the
    templates themselves are read from [prompts/] by jinja2). *)
Record prompt := Prompt {
  template_name : string;
  variables : list (string * arg)
}.

(** One call: the multimodal message (prompt text and page image) and the
    response format, which names the model class and carries its schema. *)
Record request := Request {
  text_part : prompt;
  image_url : string;
  response_format : schema
}.

(** [resp.choices[0].message.content]. *)
Record response := Response { content : text }.

Definition render_prompt (template_name : string) (variables : list (string * arg)) : prompt :=
  {| template_name := template_name; variables := variables |}.

(** [to_dict(obj)]: a model instance becomes its dump and containers are
    rebuilt around their converted members; instances being represented by
    their dumps, nothing changes. *)
Definition to_dict (obj : json) : json := obj.

Definition phase1_prompt (restaurant_name page_number : json) : prompt :=
  render_prompt "phase1.j2"
    [ ("restaurant_name", Plain restaurant_name);
      ("page_number", Plain page_number) ].

Definition phase2_prompt (restaurant_name page_number category : json) : prompt :=
  render_prompt "phase2.j2"
    [ ("restaurant_name", Plain restaurant_name);
      ("page_number", Plain page_number);
      ("categories", Dumped (to_dict category)) ].

Definition phase3_prompt (restaurant_name page_number category : json) : prompt :=
  render_prompt "phase3.j2"
    [ ("restaurant_name", Plain restaurant_name);
      ("page_number", Plain page_number);
      ("category", Dumped (to_dict category)) ].

Definition phase4_prompt (restaurant_name page_number category category_base : json)
    : prompt :=
  render_prompt "phase4.j2"
    [ ("restaurant_name", Plain restaurant_name);
      ("page_number", Plain page_number);
      ("category", Dumped (to_dict category));
      ("category_base", Dumped (to_dict category_base)) ].

Definition json_schema_format (model_cls : schema) : schema := model_cls.

(** The [message_content] list of a call, with its response format. *)
Definition message (p : prompt) (img_b64 : string) (fmt : schema) : request :=
  {| text_part := p;
     image_url := "data:image/png;base64," ++ img_b64;
     response_format := fmt |}.

End Inference.
Import Inference.

(** ** The stage runners of [src/main.py] *)

Module Extractor.

(** What a batch handed to [bounded_gather] leaves in the journal. *)
Inductive event :=
| Submitted (batch : list request)
| Resolved.

(** The files under [outputs/] and the journal of the batches, oldest first. *)
Record world := World {
  files : gmap string text;
  journal : list event
}.

(** How an awaited call ends within the observed stretch of the event loop. *)
Inductive outcome (A : Type) :=
| Returned (a : A)
| Raised (e : exn)
| Unresolved.
Arguments Returned {A} a.
Arguments Raised {A} e.
Arguments Unresolved {A}.

Definition prog (A : Type) : Type := world -> world * outcome A.

#[global] Instance prog_ret : MRet prog := fun _ a w => (w, Returned a).
#[global] Instance prog_bind : MBind prog := fun _ _ k m w =>
  match m w with
  | (w', Returned a) => k a w'
  | (w', Raised e) => (w', Raised e)
  | (w', Unresolved) => (w', Unresolved)
  end.

(** A step that touches neither the files nor the service. *)
Definition lift {A} (r : result A) : prog A := fun w =>
  match r with
  | inr a => (w, Returned a)
  | inl e => (w, Raised e)
  end.

Definition log (e : event) (w : world) : world :=
  {| files := files w; journal := journal w ++ [e] |}.

(** [path.write_text(json.dumps(data, indent=2, ensure_ascii=False))].
    The write is taken to succeed: the strings of this development are
    byte strings, so a text that cannot be encoded (a lone surrogate, at
    which [write_text] raises with the file already truncated) lies outside
    it. *)
Definition write_text (path : string) (data : json) : prog unit := fun w =>
  ({| files := <[path := json_dumps data]> (files w); journal := journal w |}, Returned tt).

(** The batches of a journal, and the number of calls they hold. *)
Definition batches (j : list event) : list (list request) :=
  omap (fun e => match e with Submitted b => Some b | Resolved => None end) j.

Definition issued (j : list event) : nat := length (concat (batches j)).

(** One value's page number less one, as the index into [images]. *)
Definition minus_one (page_number : json) : result Z :=
  match page_number with
  | JInt z => ret (z - 1)%Z
  | JBool b => ret ((if b then 1 else 0) - 1)%Z
  | _ => raise TypeError
  end.

(** [zip(a, b)] on two values: both are iterated, the shorter one decides
    the length. *)
Definition py_zip (a b : json) : result (list (json * json)) :=
  xs ← Py.iter a; ys ← Py.iter b; ret (combine xs ys).

Section Runners.
Context `{Scalars}.

(** The module constant, as computed at import ([Config.MAX_CONCURRENCY]). *)
Variable MAX_CONCURRENCY : Z.

(** [await convert_pdf_into_images(PDF_PATH)]: the page images, base64. *)
Variable images : result (list string).

(** The inference service: how the coroutine of the [n]-th call created
    ([call_openrouter(message_content, fmt)]) behaves once awaited. *)
Variable call_openrouter : nat -> request -> Executor.coro response.

(** The event loop's choices while the [n]-th batch is gathered. *)
Variable event_loop : nat -> list nat.

(** The coroutines of a batch, numbered on from the calls created so far. *)
Definition coroutines (n : nat) (batch : list request) : list (Executor.coro response) :=
  imap (fun i r => call_openrouter (n + i) r) batch.

(** [responses = await bounded_gather(coros, MAX_CONCURRENCY)]. *)
Definition await_bounded_gather (batch : list request) : prog (list response) := fun w =>
  let coros := coroutines (issued (journal w)) batch in
  let sched := event_loop (length (batches (journal w))) in
  let w1 := log (Submitted batch) w in
  match Executor.bounded_gather sched coros MAX_CONCURRENCY with
  | None => (w1, Unresolved)
  | Some (inl e) => (log Resolved w1, Raised e)
  | Some (inr responses) => (log Resolved w1, Returned responses)
  end.

(** The body of the validation loops: [json.loads], [model_validate],
    [model_dump]. *)
Definition decode (cls : schema) (resp : response) : result json :=
  obj ← json_loads (content resp);
  validated ← model_validate cls obj;
  ret (model_dump validated).

(** A fan-out batch and the validation of its responses, in order. *)
Definition extract_batch (cls : schema) (coros : list request) : prog (list json) :=
  responses ← await_bounded_gather coros;
  lift (mapM (decode cls) responses).

Definition page_out (page_number : json) (category_results : list json) : json :=
  JObj [("page_number", page_number); ("categories", JArr category_results)].

Definition envelope (restaurant_name : string) (pages : list json) : json :=
  JObj [("restaurant_name", JStr restaurant_name); ("pages", JArr pages)].

(** *** Phase 1 *)

Definition phase1_requests (restaurant_name : string) (imgs : list string) : list request :=
  imap (fun i img_b64 =>
          message (phase1_prompt (JStr restaurant_name) (JInt (Z.of_nat (S i)))) img_b64
                  (json_schema_format utils_model.Categories))
       imgs.

Definition run_phase1 (restaurant_name : string) : prog json :=
  imgs ← lift images;
  results ← extract_batch utils_model.Categories (phase1_requests restaurant_name imgs);
  let pages :=
    imap (fun i data => JObj [("page_number", JInt (Z.of_nat (S i))); ("data", data)])
         results in
  let output := envelope restaurant_name pages in
  _ ← write_text Config.CATEGORIES_FILE output;
  mret output.

(** *** Phase 2 *)

(** One request per category of the page. *)
Definition phase2_requests (restaurant_name : string) (page_number : json)
    (img_b64 : string) (categories : list json) : list request :=
  map (fun cat =>
         message (phase2_prompt (JStr restaurant_name) page_number cat) img_b64
                 (json_schema_format utils_model.CategorywithItems))
      categories.

Definition phase2_page (restaurant_name : string) (imgs : list string) (page : json)
    : prog json :=
  page_number ← lift (Py.getitem page "page_number");
  img_b64 ← lift (i ← minus_one page_number; Py.list_index imgs i);
  page_categories ← lift (data ← Py.getitem page "data";
                          model_validate utils_model.Categories data);
  categories ← lift (cats ← Py.getitem page_categories "categories"; Py.iter cats);
  category_results ←
    extract_batch utils_model.CategorywithItems
      (phase2_requests restaurant_name page_number img_b64 categories);
  mret (page_out page_number category_results).

Definition run_phase2 (restaurant_name : string) (categories_payload : json) : prog json :=
  imgs ← lift images;
  pages ← lift (pages ← Py.getitem categories_payload "pages"; Py.iter pages);
  all_pages_out ← mapM (phase2_page restaurant_name imgs) pages;
  let output := envelope restaurant_name all_pages_out in
  _ ← write_text Config.ITEMS_FILE output;
  mret output.

(** *** Phase 3 *)

Definition phase3_request (restaurant_name : string) (page_number : json)
    (img_b64 : string) (cat : json) : result request :=
  cat ← model_validate utils_model.CategorywithItems cat;
  let category_base := JObj [("category", cat)] in
  ret (message (phase3_prompt (JStr restaurant_name) page_number category_base) img_b64
               (json_schema_format utils_model.CategoryBase)).

Definition phase3_page (restaurant_name : string) (imgs : list string) (page : json)
    : prog json :=
  page_number ← lift (Py.getitem page "page_number");
  img_b64 ← lift (i ← minus_one page_number; Py.list_index imgs i);
  page_categories ← lift (Py.getitem page "categories");
  coros ← lift (cats ← Py.iter page_categories;
                mapM (phase3_request restaurant_name page_number img_b64) cats);
  category_results ← extract_batch utils_model.CategoryBase coros;
  mret (page_out page_number category_results).

Definition run_phase3 (restaurant_name : string) (category_bases_payload : json)
    : prog json :=
  imgs ← lift images;
  pages ← lift (pages ← Py.getitem category_bases_payload "pages"; Py.iter pages);
  all_pages_out ← mapM (phase3_page restaurant_name imgs) pages;
  let output := envelope restaurant_name all_pages_out in
  _ ← write_text Config.CATEGORY_BASES_FILE output;
  mret output.

(** *** Phase 4 *)

Definition phase4_request (restaurant_name : string) (page_number : json)
    (img_b64 : string) (pair : json * json) : result request :=
  let '(cat, cat_base) := pair in
  cat ← model_validate utils_model.CategorywithItems cat;
  cat_base ← model_validate utils_model.CategoryBase cat_base;
  let category := JObj [("category", cat)] in
  let category_base := JObj [("category_base", cat_base)] in
  ret (message (phase4_prompt (JStr restaurant_name) page_number category category_base) img_b64
               (json_schema_format utils_model.CategoryItemAddons)).

Definition phase4_page (restaurant_name : string) (imgs : list string)
    (pair : json * json) : prog json :=
  let '(page, page_base) := pair in
  page_number ← lift (Py.getitem page "page_number");
  img_b64 ← lift (i ← minus_one page_number; Py.list_index imgs i);
  page_categories ← lift (Py.getitem page "categories");
  page_bases ← lift (Py.getitem page_base "categories");
  coros ← lift (pairs ← py_zip page_categories page_bases;
                mapM (phase4_request restaurant_name page_number img_b64) pairs);
  category_results ← extract_batch utils_model.CategoryItemAddons coros;
  mret (page_out page_number category_results).

Definition run_phase4 (restaurant_name : string)
    (category_payload category_base_payload : json) : prog json :=
  imgs ← lift images;
  pages ← lift (Py.getitem category_payload "pages");
  pages_base ← lift (Py.getitem category_base_payload "pages");
  pairs ← lift (py_zip pages pages_base);
  all_pages_out ← mapM (phase4_page restaurant_name imgs) pairs;
  let output := envelope restaurant_name all_pages_out in
  _ ← write_text Config.ITEMS_ADDONS_FILE output;
  mret output.

End Runners.

End Extractor.

(** ** The command line of [src/main.py] *)

Module Cli.
Import Extractor.

(** How the process ends: [main] returns, or an exception escapes it
    (a missing file is [FileNotFoundError]), or the run never resolves. *)
Inductive ending :=
| Exited
| Traceback (e : exn)
| FileNotFoundError (path : string)
| Hung.

(** [json.loads(path.read_text(encoding="utf-8"))]: the file may be
    missing; when it is there, it may hold no JSON. *)
Definition load_file (path : string) (w : world) : option (result json) :=
  json_loads <$> files w !! path.

Definition load_categories_file : world -> option (result json) :=
  load_file Config.CATEGORIES_FILE.

Definition load_items_file : world -> option (result json) :=
  load_file Config.ITEMS_FILE.

Definition load_category_bases_file : world -> option (result json) :=
  load_file Config.CATEGORY_BASES_FILE.

(** What [input] wrote before it read a line. *)
Definition prompts : list text :=
  [OtherText "Enter the restaurant name: "; OtherText "Enter the phase (1 or 2): "].

Section Main.
Context `{Scalars}.
Variable MAX_CONCURRENCY : Z.
Variable images : result (list string).
Variable call_openrouter : nat -> request -> Executor.coro response.
Variable event_loop : nat -> list nat.

(** The end of a branch of [main]: the awaited runner's result, then
    [print(f"Saved: {path}")] and [print(json.dumps(result, ...))]. *)
Definition report (path : string) (run : world * outcome json)
    : world * list text * ending :=
  match run with
  | (w', Returned result) =>
      (w', (prompts ++ [OtherText ("Saved: " ++ path)%string; json_dumps result])%list,
       Exited)
  | (w', Raised e) => (w', prompts, Traceback e)
  | (w', Unresolved) => (w', prompts, Hung)
  end.

(** A file read before the runner is called. *)
Definition loaded (w : world) (file : option (result json)) (path : string)
    (k : json -> world * list text * ending) : world * list text * ending :=
  match file with
  | None => (w, prompts, FileNotFoundError path)
  | Some (inl e) => (w, prompts, Traceback e)
  | Some (inr payload) => k payload
  end.

(** [main], given the two lines typed at its prompts: the final world,
    what was written to the standard output, and how the process ends. *)
Definition main (line1 line2 : string) (w : world) : world * list text * ending :=
  let restaurant_name := Config.strip line1 in
  match Config.int (Config.strip line2) with
  | inl e => (w, prompts, Traceback e)
  | inr phase =>
      if (phase =? 1)%Z then
        report Config.CATEGORIES_FILE
          (run_phase1 MAX_CONCURRENCY images call_openrouter event_loop restaurant_name w)
      else if (phase =? 2)%Z then
        loaded w (load_categories_file w) Config.CATEGORIES_FILE (fun categories_payload =>
          report Config.ITEMS_FILE
            (run_phase2 MAX_CONCURRENCY images call_openrouter event_loop
                        restaurant_name categories_payload w))
      else if (phase =? 3)%Z then
        loaded w (load_items_file w) Config.ITEMS_FILE (fun items_payload =>
          report Config.CATEGORY_BASES_FILE
            (run_phase3 MAX_CONCURRENCY images call_openrouter event_loop
                        restaurant_name items_payload w))
      else if (phase =? 4)%Z then
        loaded w (load_items_file w) Config.ITEMS_FILE (fun category_payload =>
          loaded w (load_category_bases_file w) Config.CATEGORY_BASES_FILE
            (fun category_bases_payload =>
               report Config.ITEMS_ADDONS_FILE
                 (run_phase4 MAX_CONCURRENCY images call_openrouter event_loop
                             restaurant_name category_payload category_bases_payload w)))
      else (w, prompts, Traceback (ValueError "Phase must be 1, 2, 3, or 4."))
  end.

End Main.

End Cli.

(** ** The HTTP handlers of [src/backend/main.py] *)

Module Backend.
Import Extractor.

Definition OUTPUT_DIR : string := "outputs".
Definition UPLOADED_PDF_PATH : string := OUTPUT_DIR ++ "/uploaded_menu.pdf".
Definition PHASE1_RAW_OUTPUT : string := OUTPUT_DIR ++ "/categories_all_pages.json".
Definition PHASE2_INPUT_REVIEWED : string := OUTPUT_DIR ++ "/reviewed_categories.json".
Definition PHASE2_FINAL_ITEMS : string := OUTPUT_DIR ++ "/category_items_all_pages.json".
Definition PHASE3_FINAL_BASES : string := OUTPUT_DIR ++ "/category_bases_all_pages.json".
Definition PHASE4_FINAL_ITEMS_ADDONS : string :=
  OUTPUT_DIR ++ "/category_items_addons_all_pages.json".

(** [path.name]: what follows the last slash. *)
Fixpoint name_from (acc : string) (path : string) : string :=
  match path with
  | EmptyString => acc
  | String c rest =>
      if Ascii.eqb c "/"%char then name_from EmptyString rest
      else name_from (acc ++ String c EmptyString) rest
  end.
Definition name (path : string) : string := name_from EmptyString path.

(** [path.exists()]. *)
Definition exists_ (w : world) (path : string) : bool :=
  match files w !! path with Some _ => true | None => false end.

(** [str(e)] for the exception [json.loads] or [read_text] raised. *)
Definition str_exn (e : exn) : string :=
  match e with
  | ValueError msg | APIError msg | HTTPException _ msg => msg
  | KeyError key => "'" ++ key ++ "'"
  | JSONDecodeError => "Expecting value"
  | IndexError => "list index out of range"
  | TypeError => "unsupported operand"
  | ValidationError => "validation error"
  end.

(** The bodies of [Phase2CategoriesPayload] and [Phase3ItemsPayload], as
    FastAPI hands them to the handler: a name and a list of dicts. *)
Record payload := Payload {
  restaurant_name : string;
  pages : list (list (string * json))
}.

(** [payload.model_dump()]. *)
Definition payload_dump (p : payload) : json :=
  JObj [("restaurant_name", JStr (restaurant_name p)); ("pages", JArr (map JObj (pages p)))].

Definition load_json_file (file_path error_message : string) : prog json := fun w =>
  match files w !! file_path with
  | None => (w, Raised (HTTPException 404 error_message))
  | Some t =>
      match json_loads t with
      | inr data => (w, Returned data)
      | inl e => (w, Raised (HTTPException 500 ("Failed to load file: " ++ str_exn e)))
      end
  end.

Definition save_json_file (file_path : string) (data : json) : prog unit :=
  write_text file_path data.

Fixpoint check_required_files (file_paths : list string) : prog unit := fun w =>
  match file_paths with
  | [] => (w, Returned tt)
  | file_path :: rest =>
      if negb (exists_ w file_path)
      then if String.eqb file_path UPLOADED_PDF_PATH
           then (w, Raised (HTTPException 400 "PDF not found. Please upload PDF first."))
           else (w, Raised (HTTPException 400
                   ("Required file not found: " ++ name file_path
                    ++ ". Please complete previous phases.")))
      else check_required_files rest w
  end.

Definition success (message : string) (key : string) (value : json) : json :=
  JObj [("success", JBool true); ("message", JStr message); (key, value)].

(** *** GET: retrieve data for editing *)

Definition get_phase1_categories : prog json :=
  data ← load_json_file PHASE1_RAW_OUTPUT "Phase 1 data not found. Run phase 1 first.";
  mret (JObj [("success", JBool true); ("data", data)]).

Definition get_phase2_items : prog json :=
  data ← load_json_file PHASE2_FINAL_ITEMS "Phase 2 data not found. Run phase 2 first.";
  mret (JObj [("success", JBool true); ("data", data)]).

Definition get_phase3_bases : prog json :=
  data ← load_json_file PHASE3_FINAL_BASES "Phase 3 data not found. Run phase 3 first.";
  mret (JObj [("success", JBool true); ("data", data)]).

Definition get_phase4_addons : prog json :=
  data ← load_json_file PHASE4_FINAL_ITEMS_ADDONS "Phase 4 data not found. Run phase 4 first.";
  mret (JObj [("success", JBool true); ("data", data)]).

Section Handlers.
Context `{Scalars}.

(** How the coroutine of the [n]-th call to the service behaves. *)
Variable call_openrouter : nat -> request -> Executor.coro response.

(** [convert_pdf_into_images(str(UPLOADED_PDF_PATH))], from what the file
    holds. *)
Variable convert_pdf_into_images : option text -> result (list string).

(** The stage runners of the [extractor] module the handlers import; they
    take the path of the uploaded document as last argument. *)
Variable run_phase1 : json -> string -> prog json.
Variable run_phase2 : json -> json -> string -> prog json.
Variable run_phase3 : json -> json -> string -> prog json.
Variable run_phase4 : json -> json -> json -> string -> prog json.

(** [await call_openrouter(messages, fmt)]: one call, awaited directly. *)
Definition await_call (messages : request) : prog response := fun w =>
  let c := call_openrouter (issued (journal w)) messages in
  let w' := log Resolved (log (Submitted [messages]) w) in
  match Executor.completion c with
  | inr resp => (w', Returned resp)
  | inl e => (w', Raised e)
  end.

(** *** PUT: save edited data *)

Definition update_phase1_categories (p : payload) : prog json :=
  _ ← lift (mapM (fun page =>
              if negb (dict_contains "data" page)
              then raise (HTTPException 400 "Invalid payload structure")
              else data ← Py.getitem (JObj page) "data";
                   model_validate backend_utils_model.Categories data)
            (pages p));
  _ ← save_json_file PHASE2_INPUT_REVIEWED (payload_dump p);
  mret (JObj [("success", JBool true); ("message", JStr "Categories updated successfully")]).

Definition update_phase2_items (p : payload) : prog json :=
  _ ← lift (mapM (fun page =>
              if negb (dict_contains "categories" page)
              then raise (HTTPException 400 "Invalid payload structure")
              else cats ← Py.getitem (JObj page) "categories";
                   cats ← Py.iter cats;
                   mapM (model_validate backend_utils_model.CategorywithItems) cats)
            (pages p));
  _ ← save_json_file PHASE2_FINAL_ITEMS (payload_dump p);
  mret (JObj [("success", JBool true); ("message", JStr "Items updated successfully")]).

Definition update_phase3_bases (p : list (string * json)) : prog json :=
  _ ← lift (if negb (dict_contains "pages" p)
            then raise (HTTPException 400 "Invalid payload structure")
            else
              pages ← Py.getitem (JObj p) "pages";
              pages ← Py.iter pages;
              mapM (fun page =>
                      has ← Py.contains page "categories";
                      if negb has
                      then raise (HTTPException 400 "Invalid payload structure")
                      else cats ← Py.getitem page "categories";
                           cats ← Py.iter cats;
                           mapM (model_validate backend_utils_model.CategoryBase) cats)
                   pages);
  _ ← save_json_file PHASE3_FINAL_BASES (JObj p);
  mret (JObj [("success", JBool true); ("message", JStr "Bases updated successfully")]).

(** *** POST: extraction phases *)

Definition extract_categories (restaurant_name pdf_bytes : string) : prog json :=
  _ ← lift (if String.eqb pdf_bytes ""
            then raise (HTTPException 400 "Empty PDF file") else ret tt);
  _ ← (fun w => ({| files := <[UPLOADED_PDF_PATH := OtherText pdf_bytes]> (files w);
                    journal := journal w |}, Returned tt));
  result ← run_phase1 (JStr restaurant_name) UPLOADED_PDF_PATH;
  _ ← save_json_file PHASE1_RAW_OUTPUT result;
  mret (JObj [("success", JBool true); ("phase1_result", result)]).

Definition extract_items : prog json :=
  _ ← check_required_files [PHASE2_INPUT_REVIEWED; UPLOADED_PDF_PATH];
  reviewed_data ← load_json_file PHASE2_INPUT_REVIEWED "No reviewed categories found.";
  restaurant ← lift (Py.getitem reviewed_data "restaurant_name");
  result ← run_phase2 restaurant reviewed_data UPLOADED_PDF_PATH;
  mret (success "Item list extraction complete" "phase2_result" result).

Definition extract_bases : prog json :=
  _ ← check_required_files [PHASE2_FINAL_ITEMS; UPLOADED_PDF_PATH];
  items_data ← load_json_file PHASE2_FINAL_ITEMS "No items found.";
  restaurant ← lift (Py.getitem items_data "restaurant_name");
  result ← run_phase3 restaurant items_data UPLOADED_PDF_PATH;
  mret (success "Category bases extraction complete" "phase3_result" result).

Definition extract_addons : prog json :=
  _ ← check_required_files [PHASE2_FINAL_ITEMS; PHASE3_FINAL_BASES; UPLOADED_PDF_PATH];
  items_data ← load_json_file PHASE2_FINAL_ITEMS "No items found.";
  bases_data ← load_json_file PHASE3_FINAL_BASES "No bases found.";
  restaurant ← lift (Py.getitem items_data "restaurant_name");
  result ← run_phase4 restaurant items_data bases_data UPLOADED_PDF_PATH;
  mret (success "Items with addons extraction complete" "phase4_result" result).

(** *** PATCH: partial re-extraction *)

(** [if not target: raise HTTPException(404, detail)]. *)
Definition found (target : option json) (detail : string) : result json :=
  match target with
  | Some v => if Py.truthy v then ret v else raise (HTTPException 404 detail)
  | None => raise (HTTPException 404 detail)
  end.

(** The loop over the pages that stops at the first one whose
    [page_number] equals the requested one. *)
Definition find_page (data : json) (page_number : Z) : result (option json) :=
  pages ← Py.getitem data "pages";
  pages ← Py.iter pages;
  Py.find_first (fun page => n ← Py.getitem page "page_number";
                             ret (Py.eq_int n page_number)) pages.

(** The loop over the categories that stops at the first one whose
    ["name"] equals the requested name. *)
Definition find_category (categories : json) (category_name : string)
    : result (option json) :=
  cats ← Py.iter categories;
  Py.find_first (fun cat => n ← Py.getitem cat "name";
                            ret (Py.eq_str n category_name)) cats.

Definition images_of_upload : prog (list string) := fun w =>
  lift (convert_pdf_into_images (files w !! UPLOADED_PDF_PATH)) w.

Definition reextract_category_items (category_name : string) (page_number : Z)
    : prog json :=
  _ ← check_required_files [PHASE2_INPUT_REVIEWED; UPLOADED_PDF_PATH];
  reviewed_data ← load_json_file PHASE2_INPUT_REVIEWED "No reviewed categories found.";
  target_page ← lift (target ← find_page reviewed_data page_number;
                      found target ("Page " ++ pretty page_number ++ " not found"));
  target_category ←
    lift (data ← Py.getitem target_page "data";
          cats ← Py.getitem data "categories";
          target ← find_category cats category_name;
          found target ("Category '" ++ category_name ++ "' not found on page "
                        ++ pretty page_number));
  images ← images_of_upload;
  page_image ← lift (Py.list_index images (page_number - 1));
  restaurant ← lift (Py.getitem reviewed_data "restaurant_name");
  let prompt := phase2_prompt restaurant (JInt page_number) target_category in
  response ← await_call
    (message prompt page_image (json_schema_format backend_utils_model.CategorywithItems));
  validated ← lift (obj ← json_loads (content response);
                    model_validate backend_utils_model.CategorywithItems obj);
  mret (success ("Re-extracted items for category '" ++ category_name ++ "'")
                "category_items" (model_dump validated)).

Definition reextract_category_base (category_name : string) (page_number : Z)
    : prog json :=
  _ ← check_required_files [PHASE2_FINAL_ITEMS; UPLOADED_PDF_PATH];
  items_data ← load_json_file PHASE2_FINAL_ITEMS "No items found.";
  target_page ← lift (target ← find_page items_data page_number;
                      found target ("Page " ++ pretty page_number ++ " not found"));
  target_category ←
    lift (cats ← Py.getitem target_page "categories";
          target ← find_category cats category_name;
          found target ("Category '" ++ category_name ++ "' not found on page "
                        ++ pretty page_number));
  images ← images_of_upload;
  page_image ← lift (Py.list_index images (page_number - 1));
  let category_wrapper := JObj [("category", target_category)] in
  restaurant ← lift (Py.getitem items_data "restaurant_name");
  let prompt := phase3_prompt restaurant (JInt page_number) category_wrapper in
  response ← await_call
    (message prompt page_image (json_schema_format backend_utils_model.CategoryBase));
  validated ← lift (obj ← json_loads (content response);
                    model_validate backend_utils_model.CategoryBase obj);
  mret (success ("Re-extracted base for category '" ++ category_name ++ "'")
                "category_base" (model_dump validated)).

(** The nested loops of the phase-4 handler: every page with the
    requested number is searched; a match replaces the target found so
    far, and only the inner loop stops at it. *)
Fixpoint scan_pages (pages : list json) (category_name : string) (page_number : Z)
    (target : option json) : result (option json) :=
  match pages with
  | [] => ret target
  | page :: rest =>
      n ← Py.getitem page "page_number";
      if Py.eq_int n page_number
      then cats ← Py.getitem page "categories";
           hit ← find_category cats category_name;
           scan_pages rest category_name page_number
                      (match hit with Some cat => Some cat | None => target end)
      else scan_pages rest category_name page_number target
  end.

Definition find_in_pages (data : json) (category_name : string) (page_number : Z)
    : result (option json) :=
  pages ← Py.getitem data "pages";
  pages ← Py.iter pages;
  scan_pages pages category_name page_number None.

Definition reextract_category_addons (category_name : string) (page_number : Z)
    : prog json :=
  _ ← check_required_files [PHASE2_FINAL_ITEMS; PHASE3_FINAL_BASES; UPLOADED_PDF_PATH];
  items_data ← load_json_file PHASE2_FINAL_ITEMS "No items found.";
  bases_data ← load_json_file PHASE3_FINAL_BASES "No bases found.";
  target_item_cat ← lift (find_in_pages items_data category_name page_number);
  target_base_cat ← lift (find_in_pages bases_data category_name page_number);
  let detail := "Category '" ++ category_name ++ "' not found on page "
                ++ pretty page_number in
  target_item_cat ← lift (found target_item_cat detail);
  target_base_cat ← lift (found target_base_cat detail);
  images ← images_of_upload;
  page_image ← lift (Py.list_index images (page_number - 1));
  let category_wrapper := JObj [("category", target_item_cat)] in
  let base_wrapper := JObj [("category_base", target_base_cat)] in
  restaurant ← lift (Py.getitem items_data "restaurant_name");
  let prompt := phase4_prompt restaurant (JInt page_number) category_wrapper base_wrapper in
  response ← await_call
    (message prompt page_image (json_schema_format backend_utils_model.CategoryItemAddons));
  validated ← lift (obj ← json_loads (content response);
                    model_validate backend_utils_model.CategoryItemAddons obj);
  mret (success ("Re-extracted addons for category '" ++ category_name ++ "'")
                "category_addons" (model_dump validated)).

End Handlers.

(** The status code the client receives: an [HTTPException] carries its
    own, any other exception is an internal server error. *)
Definition status_code {A} (o : outcome A) : option Z :=
  match o with
  | Returned _ => Some 200%Z
  | Raised (HTTPException code _) => Some code
  | Raised _ => Some 500%Z
  | Unresolved => None
  end.

End Backend.

(** ** Clients of the inference services ([utils/client.py]) *)

Module Client.

(** [AsyncOpenAI(api_key=..., base_url=...)]. *)
Record AsyncOpenAI := { api_key : string; base_url : string }.

(** What [get_client] raises: [RuntimeError] for a missing key,
    [ValueError] for a service it does not know. *)
Inductive failure :=
| RuntimeError (msg : string)
| Other (e : exn).

(** [api_key = os.getenv(key)] followed by [if not api_key: raise ...]:
    an unset variable and an empty one are both refused. *)
Definition with_key (environ : gmap string string) (key service url : string)
    : failure + AsyncOpenAI :=
  match environ !! key with
  | Some (String c rest) => inr {| api_key := String c rest; base_url := url |}
  | _ => inl (RuntimeError ("API key for " ++ service
                            ++ " not found in environment variables."))
  end.

(** [src/utils/client.py]. *)
Definition get_client (environ : gmap string string) (service : string)
    : failure + AsyncOpenAI :=
  if String.eqb service "Groq" then
    with_key environ "GROQ_API_KEY" service "https://api.groq.com/openai/v1"
  else if String.eqb service "OpenRouter" then
    with_key environ "OPENROUTER_API_KEY" service "https://openrouter.ai/api/v1"
  else inl (Other (ValueError ("Unsupported service: " ++ service))).

End Client.

(** [src/backend/utils/client.py]. *)
Module backend_Client.
Import Client.

Definition get_client (environ : gmap string string) (service : string)
    : failure + AsyncOpenAI :=
  if String.eqb service "Gemini" then
    with_key environ "GEMINI_API_KEY" "Gemini"
             "https://generativelanguage.googleapis.com/v1beta/openai/"
  else if String.eqb service "Groq" then
    with_key environ "GROQ_API_KEY" "Groq" "https://api.groq.com/openai/v1"
  else if String.eqb service "OpenRouter" then
    with_key environ "OPENROUTER_API_KEY" "OpenRouter" "https://openrouter.ai/api/v1"
  else inl (Other (ValueError ("Unsupported service: " ++ service))).

End backend_Client.

(** ** The session-state handlers of [src/streamlit.py] *)

Module Streamlit.
Import Extractor.

(** [st.session_state.get(key)]: [None] for a missing key and for a stored
    [None]. *)
Definition get (session_state : gmap string json) (key : string) : option json :=
  match session_state !! key with
  | Some JNull => None
  | o => o
  end.

(** [not st.session_state.get(key)]. *)
Definition missing (session_state : gmap string json) (key : string) : bool :=
  match get session_state key with
  | Some v => negb (Py.truthy v)
  | None => true
  end.

(** [for k in keys: st.session_state.pop(k, None)]. *)
Definition pop_all (keys : list string) (session_state : gmap string json)
    : gmap string json :=
  fold_left (fun s k => delete k s) keys session_state.

(** One pass over [_editable_json]: [text] is what the text area holds and
    [clicked] whether "Apply changes" was pressed. Returns the new session
    state and the value handed back to the caller. *)
Definition _editable_json (session_key : string) (downstream_keys : list string)
    (text_area : text) (clicked : bool) (session_state : gmap string json)
    : gmap string json * option json :=
  match get session_state session_key with
  | None => (session_state, None)
  | Some _ =>
      let session_state' :=
        if clicked
        then match json_loads text_area with
             | inr parsed => pop_all downstream_keys (<[session_key := parsed]> session_state)
             | inl _ => session_state
             end
        else session_state in
      (session_state', get session_state' session_key)
  end.

Definition result_key (k : stage) : string :=
  match k with
  | Stage1 => "phase1_result"
  | Stage2 => "phase2_result"
  | Stage3 => "phase3_result"
  | Stage4 => "phase4_result"
  end.

(** The [downstream_keys] that [main] passes for each tab's editor, which
    are also the keys each "Run Phase" button clears. *)
Definition downstream_keys (k : stage) : list string :=
  match k with
  | Stage1 => ["phase2_result"; "phase3_result"; "phase4_result"]
  | Stage2 => ["phase3_result"; "phase4_result"]
  | Stage3 => ["phase4_result"]
  | Stage4 => []
  end.

(** The editor of a tab in [main]; it is shown only when the stage has a
    result. *)
Definition main_edit (k : stage) (text_area : text) (clicked : bool)
    (session_state : gmap string json) : gmap string json :=
  if missing session_state (result_key k) then session_state
  else fst (_editable_json (result_key k) (downstream_keys k) text_area clicked session_state).

Section Buttons.
(** [asyncio.run(execute_phaseN(service, model, restaurant_name, ...))]
    for the sidebar's settings, as a function of the data it is given. *)
Variable execute_phase1 : json -> outcome json.
Variable execute_phase2 : json -> json -> outcome json.
Variable execute_phase3 : json -> json -> outcome json.
Variable execute_phase4 : json -> json -> json -> outcome json.

(** A button is disabled when an input it needs is missing. *)
Definition disabled (k : stage) (session_state : gmap string json) : bool :=
  let no_images :=
    match get session_state "base64_images" with None => true | Some _ => false end in
  match k with
  | Stage1 => no_images
  | Stage2 => no_images || missing session_state "phase1_result"
  | Stage3 => no_images || missing session_state "phase2_result"
  | Stage4 => no_images || missing session_state "phase2_result"
              || missing session_state "phase3_result"
  end.

(** What the run of a stage is given, read from the session state. *)
Definition execute (k : stage) (session_state : gmap string json) : result (outcome json) :=
  let read key := match session_state !! key with
                  | Some v => ret v
                  | None => raise (KeyError key)
                  end in
  images ← read "base64_images";
  match k with
  | Stage1 => ret (execute_phase1 images)
  | Stage2 => p1 ← read "phase1_result"; ret (execute_phase2 images p1)
  | Stage3 => p2 ← read "phase2_result"; ret (execute_phase3 images p2)
  | Stage4 => p2 ← read "phase2_result"; p3 ← read "phase3_result";
              ret (execute_phase4 images p2 p3)
  end.

(** Pressing "Run Phase k": nothing happens on a disabled button; a run
    that raises leaves the session state as it was; a run that returns
    stores its result and clears the results of the later stages. *)
Definition main_run (k : stage) (session_state : gmap string json) : gmap string json :=
  if disabled k session_state then session_state
  else match execute k session_state with
       | inr (Returned result) =>
           pop_all (downstream_keys k) (<[result_key k := result]> session_state)
       | _ => session_state
       end.

End Buttons.

(** *** The upload in the sidebar of [main] *)

(** [token = (uploaded_pdf.name, len(pdf_bytes))], as the session state
    keeps it. *)
Definition token (name pdf_bytes : string) : json :=
  JArr [JStr name; JInt (Z.of_nat (String.length pdf_bytes))].

(** [st.session_state.get("pdf_token") != token]. *)
Definition token_differs (stored : option json) (name pdf_bytes : string) : bool :=
  match stored with
  | Some (JArr [JStr n; JInt l]) =>
      negb (String.eqb n name && (l =? Z.of_nat (String.length pdf_bytes))%Z)
  | _ => true
  end.

Definition result_keys : list string :=
  ["phase1_result"; "phase2_result"; "phase3_result"; "phase4_result"].

(** One pass over the upload block: [uploaded_pdf] is what the file
    uploader holds (a name and the bytes, or nothing) and
    [convert_pdf_into_images] what the conversion of the bytes gives. The
    token is stored before the conversion is run. *)
Definition main_upload (convert_pdf_into_images : string -> result (list string))
    (uploaded_pdf : option (string * string)) (session_state : gmap string json)
    : gmap string json * result unit :=
  match uploaded_pdf with
  | None => (session_state, ret tt)
  | Some (name, pdf_bytes) =>
      if token_differs (get session_state "pdf_token") name pdf_bytes
      then
        let session_state1 := <["pdf_token" := token name pdf_bytes]> session_state in
        match convert_pdf_into_images pdf_bytes with
        | inl e => (session_state1, raise e)
        | inr images =>
            (pop_all result_keys
               (<["base64_images" := JArr (map JStr images)]> session_state1),
             ret tt)
        end
      else (session_state, ret tt)
  end.

(** *** The phase executors *)

Section Executors.
Context `{Scalars}.
Import Client.

Variable environ : gmap string string.

(** How the coroutine of the [n]-th [call_llm(client, model, ...)] created
    behaves once awaited. *)
Variable call_llm : AsyncOpenAI -> string -> nat -> request -> Executor.coro response.

(** The event loop's choices while the [n]-th batch is gathered. *)
Variable event_loop : nat -> list nat.

Definition MAX_CONCURRENCY : Z := 4.

(** Each executor obtains its client first, which may fail, and then
    runs as the runner of the same stage in [src/main.py] does, on the
    images it is given and without writing a file. What its [except]
    clauses show on the page before they re-raise is not modelled. *)
Definition executor_batch (client : AsyncOpenAI) (model : string) (cls : schema)
    (coros : list request) : prog (list json) :=
  Extractor.extract_batch MAX_CONCURRENCY (call_llm client model) event_loop cls coros.

Definition execute_phase1 (service model restaurant_name : string)
    (base64_images : list string) : failure + prog json :=
  match get_client environ service with
  | inl e => inl e
  | inr client =>
      inr (results ← executor_batch client model utils_model.Categories
                     (phase1_requests restaurant_name base64_images);
           let pages :=
             imap (fun i data => JObj [("page_number", JInt (Z.of_nat (S i)));
                                       ("data", data)])
                  results in
           mret (envelope restaurant_name pages))
  end.

Definition execute_phase2 (service model restaurant_name : string)
    (base64_images : list string) (categories_payload : json) : failure + prog json :=
  match get_client environ service with
  | inl e => inl e
  | inr client =>
      inr (pages ← lift (pages ← Py.getitem categories_payload "pages"; Py.iter pages);
           all_pages_out ←
             mapM (fun page =>
                     page_number ← lift (Py.getitem page "page_number");
                     img_b64 ← lift (i ← minus_one page_number;
                                     Py.list_index base64_images i);
                     page_categories ← lift (data ← Py.getitem page "data";
                                             model_validate utils_model.Categories data);
                     categories ← lift (cats ← Py.getitem page_categories "categories";
                                        Py.iter cats);
                     category_results ←
                       executor_batch client model utils_model.CategorywithItems
                         (phase2_requests restaurant_name page_number img_b64 categories);
                     mret (page_out page_number category_results))
                  pages;
           mret (envelope restaurant_name all_pages_out))
  end.

Definition execute_phase3 (service model restaurant_name : string)
    (base64_images : list string) (items_payload : json) : failure + prog json :=
  match get_client environ service with
  | inl e => inl e
  | inr client =>
      inr (pages ← lift (pages ← Py.getitem items_payload "pages"; Py.iter pages);
           all_pages_out ←
             mapM (fun page =>
                     page_number ← lift (Py.getitem page "page_number");
                     img_b64 ← lift (i ← minus_one page_number;
                                     Py.list_index base64_images i);
                     page_categories ← lift (Py.getitem page "categories");
                     coros ← lift (cats ← Py.iter page_categories;
                                   mapM (phase3_request restaurant_name page_number img_b64)
                                        cats);
                     category_results ←
                       executor_batch client model utils_model.CategoryBase coros;
                     mret (page_out page_number category_results))
                  pages;
           mret (envelope restaurant_name all_pages_out))
  end.

Definition execute_phase4 (service model restaurant_name : string)
    (base64_images : list string) (items_payload category_bases_payload : json)
    : failure + prog json :=
  match get_client environ service with
  | inl e => inl e
  | inr client =>
      inr (pages ← lift (Py.getitem items_payload "pages");
           pages_base ← lift (Py.getitem category_bases_payload "pages");
           pairs ← lift (py_zip pages pages_base);
           all_pages_out ←
             mapM (fun pair : json * json =>
                     let '(page, page_base) := pair in
                     page_number ← lift (Py.getitem page "page_number");
                     img_b64 ← lift (i ← minus_one page_number;
                                     Py.list_index base64_images i);
                     page_categories ← lift (Py.getitem page "categories");
                     page_bases ← lift (Py.getitem page_base "categories");
                     coros ← lift (pairs ← py_zip page_categories page_bases;
                                   mapM (phase4_request restaurant_name page_number img_b64)
                                        pairs);
                     category_results ←
                       executor_batch client model utils_model.CategoryItemAddons coros;
                     mret (page_out page_number category_results))
                  pairs;
           mret (envelope restaurant_name all_pages_out))
  end.

End Executors.

(** *** Prices on the page *)

(** [s.replace(".00", "")]: every occurrence, from the left. *)
Fixpoint strip_cents (s : string) : string :=
  match s with
  | String "."%char (String "0"%char (String "0"%char rest)) => strip_cents rest
  | String c rest => String c (strip_cents rest)
  | EmptyString => EmptyString
  end.

Section Display.

(** [str(v)] and [format(v, ",.2f")] are the interpreter's; the second
    raises on a value that is no number. *)
Variable str : json -> string.
Variable format_2f : json -> result string.

(** [_format_price(price_obj)]: [None] or the text to show. *)
Definition _format_price (price_obj : json) : result (option string) :=
  match price_obj with
  | JNull => ret None
  | JObj members =>
      let amount := dict_get "amount" members in
      let currency := match dict_get "currency" members with
                      | Some c => c
                      | None => JStr "$"
                      end in
      match amount with
      | None | Some JNull => ret None
      | Some amount =>
          formatted ← format_2f amount;
          ret (Some (strip_cents (str currency ++ formatted)))
      end
  | JInt _ | JFloat _ | JBool _ =>
      formatted ← format_2f price_obj;
      ret (Some (strip_cents ("$" ++ formatted)))
  | _ => ret (Some (str price_obj))
  end.

End Display.

End Streamlit.

(** The order of the stages. *)
Definition stage_number (k : stage) : nat :=
  match k with
  | Stage1 => 1
  | Stage2 => 2
  | Stage3 => 3
  | Stage4 => 4
  end.

(** ** A two-page menu *)

Module Menu.
Import Extractor.

(** Coercions that accept a float for [float] and a bool for [bool], the
    inputs every pydantic version accepts unchanged. *)
Definition exact_scalars : Scalars :=
  {| lax_float := fun v => match v with JFloat _ => Some v | _ => None end;
     lax_bool := fun v => match v with JBool _ => Some v | _ => None end |}.

Definition category (name : string) (subcategories : list string) : json :=
  JObj [("name_raw", JStr name);
        ("subcategories", JArr (map (fun s => JObj [("name_raw", JStr s)]) subcategories))].

(** Stage 1: "Appetizers" on page 1; "Entrees" with the subcategory "Pasta"
    on page 2. *)
Definition stage1 : json :=
  JObj [("restaurant_name", JStr "Amici");
        ("pages", JArr [
           JObj [("page_number", JInt 1);
                 ("data", JObj [("categories", JArr [category "Appetizers" []])])];
           JObj [("page_number", JInt 2);
                 ("data", JObj [("categories", JArr [category "Entrees" ["Pasta"]])])]])].

Definition items (name : string) : json :=
  JObj [("name_raw", JStr name); ("note", JStr "")].

Definition bases (name : string) : json :=
  JObj [("name_raw", JStr name)].

Definition addons (name : string) : json :=
  JObj [("name_raw", JStr name)].

Definition page (n : Z) (units : list json) : json :=
  JObj [("page_number", JInt n); ("categories", JArr units)].

Definition artifact (pages : list json) : json := envelope "Amici" pages.

(** Stage 2 and stage 3 artifacts for the same menu. *)
Definition pages2 : list json := [page 1 [items "Appetizers"]; page 2 [items "Entrees"]].
Definition stage2 : json := artifact pages2.

Definition pages3 : list json := [page 1 [bases "Appetizers"]; page 2 [bases "Entrees"]].
Definition stage3 : json := artifact pages3.

(** A stage 3 artifact whose units carry other names, in the same order. *)
Definition stage3_renamed : json :=
  artifact [page 1 [bases "Starters"]; page 2 [bases "Mains"]].

(** A stage 2 artifact with a surplus category on page 1 and a surplus
    page 3. *)
Definition pages2_longer : list json :=
  [page 1 [items "Appetizers"; items "Soups"]; page 2 [items "Entrees"];
   page 3 [items "Desserts"]].
Definition stage2_longer : json := artifact pages2_longer.

Definition images : result (list string) := inr ["cGFnZTE="; "cGFnZTI="; "cGFnZTM="].

(** A service that answers the [n]-th call after [n] suspensions with the
    document [answer n]. *)
Definition service (answer : nat -> text) (n : nat) (_ : request) : Executor.coro response :=
  {| Executor.suspensions := n; Executor.completion := inr {| content := answer n |} |}.

Definition answers (docs : list json) (n : nat) : text :=
  match docs !! n with
  | Some d => JsonText d
  | None => OtherText "I am sorry"
  end.

(** An event loop that always resumes the last task able to move, for 32
    steps per batch. *)
Definition last_first (_ : nat) : list nat := [7; 6; 5; 4; 3; 2; 1; 0; 7; 6; 5; 4; 3; 2; 1; 0;
                                                7; 6; 5; 4; 3; 2; 1; 0; 7; 6; 5; 4; 3; 2; 1; 0].

Definition fresh : world := {| files := ∅; journal := [] |}.

(** Three coroutines that complete with 10, 20 and 30 after one, no and
    two suspensions, and two ways of scheduling them. *)
Definition three : list (Executor.coro nat) :=
  [ {| Executor.suspensions := 1; Executor.completion := inr 10 |};
    {| Executor.suspensions := 0; Executor.completion := inr 20 |};
    {| Executor.suspensions := 2; Executor.completion := inr 30 |} ].

Definition first_first : list nat := [0; 0; 0; 0; 0; 0; 0; 0; 0].
Definition mixed : list nat := [2; 1; 5; 3; 1; 0; 7; 4; 2].

(** The same batch with a second coroutine that raises. *)
Definition three_failing : list (Executor.coro nat) :=
  [ {| Executor.suspensions := 1; Executor.completion := inr 10 |};
    {| Executor.suspensions := 0; Executor.completion := inl (APIError "rate limited") |};
    {| Executor.suspensions := 2; Executor.completion := inr 30 |} ].

(** The backend's [outputs/] directory after all four stages ran: the
    uploaded document, the reviewed categories and the three artifacts. *)
Definition stage4 : json :=
  artifact [page 1 [addons "Appetizers"]; page 2 [addons "Entrees"]].

Definition outputs (reviewed : json) : world :=
  {| files := <[Backend.UPLOADED_PDF_PATH := OtherText "%PDF-1.7"]>
              (<[Backend.PHASE2_INPUT_REVIEWED := JsonText reviewed]>
              (<[Backend.PHASE2_FINAL_ITEMS := JsonText stage2]>
              (<[Backend.PHASE3_FINAL_BASES := JsonText stage3]>
              (<[Backend.PHASE4_FINAL_ITEMS_ADDONS := JsonText stage4]> ∅))));
     journal := [] |}.

(** Reviewed categories as a front end may save them that also keeps a
    ["name"] key next to ["name_raw"] on every category. *)
Definition named_category (name : string) (subcategories : list string) : json :=
  JObj [("name", JStr name); ("name_raw", JStr name);
        ("subcategories", JArr (map (fun s => JObj [("name_raw", JStr s)]) subcategories))].

Definition stage1_named : json :=
  JObj [("restaurant_name", JStr "Amici");
        ("pages", JArr [
           JObj [("page_number", JInt 1);
                 ("data", JObj [("categories", JArr [named_category "Appetizers" []])])];
           JObj [("page_number", JInt 2);
                 ("data", JObj [("categories", JArr [named_category "Entrees" ["Pasta"]])])]])].

(** A rasterizer that finds two pages in any uploaded document. *)
Definition rasterizer (document : option text) : result (list string) :=
  match document with
  | Some _ => inr ["cGFnZTE="; "cGFnZTI="]
  | None => inl (ValueError "no such file")
  end.

(** The user's edit of the Stage-2 artifact: "Appetizers" becomes
    "Starters". *)
Definition edited_items : Backend.payload :=
  {| Backend.restaurant_name := "Amici";
     Backend.pages :=
       [ [("page_number", JInt 1); ("categories", JArr [items "Starters"])];
         [("page_number", JInt 2); ("categories", JArr [items "Entrees"])] ] |}.

End Menu.

(** * Properties *)

(** ** Schema validation: unknown fields *)

Section UnknownField.
Context `{Scalars}.

Lemma mem_In (k : string) (l : list string) : mem k l = true <-> In k l.
Proof.
  induction l as [|k' l IH]; simpl.
  - split; [discriminate | tauto].
  - rewrite orb_true_iff, IH, String.eqb_eq. tauto.
Qed.

Lemma mem_false (k : string) (l : list string) : mem k l = false <-> ~ In k l.
Proof.
  rewrite <- mem_In. destruct (mem k l); split; intros; congruence.
Qed.

(** Reading a key is not affected by another key's entry. *)
Lemma dict_get_skip (n k : string) (v : json) (l1 l2 : list (string * json)) :
  n <> k -> dict_get n (l1 ++ (k, v) :: l2) = dict_get n (l1 ++ l2).
Proof.
  intros Hne. induction l1 as [|[k1 v1] l1 IH]; simpl.
  - destruct (String.eqb_spec k n) as [->|_]; [congruence | reflexivity].
  - now rewrite IH.
Qed.

Lemma validate_fields_skip rec (k : string) (v : json) (l1 l2 : list (string * json))
    (fs : list field) :
  ~ In k (map field_name fs) ->
  validate_fields rec (l1 ++ (k, v) :: l2) fs = validate_fields rec (l1 ++ l2) fs.
Proof.
  induction fs as [|[[n ty] d] fs IH]; intros Hk; simpl; [reflexivity|].
  simpl in Hk. rewrite dict_get_skip by (intros ->; apply Hk; now left).
  rewrite IH by (intros Hin; apply Hk; now right). reflexivity.
Qed.

(** The dump of a model has exactly the declared fields, in order. *)
Lemma validate_fields_keys rec (members : list (string * json)) (fs : list field)
    (out : list (string * json)) :
  validate_fields rec members fs = Some out -> keys out = map field_name fs.
Proof.
  revert out. induction fs as [|[[n ty] d] fs IH]; intros out; simpl.
  - intros [= <-]. reflexivity.
  - destruct (dict_get n members) as [x|].
    + destruct (rec ty x) as [x'|]; [|discriminate].
      destruct (validate_fields rec members fs) as [rest|]; [|discriminate].
      intros [= <-]. simpl. f_equal. now apply IH.
    + destruct d as [d|]; [|discriminate].
      destruct (validate_fields rec members fs) as [rest|]; [|discriminate].
      intros [= <-]. simpl. f_equal. now apply IH.
Qed.

Lemma dict_get_not_key (k : string) (members : list (string * json)) :
  ~ In k (keys members) -> dict_get k members = None.
Proof.
  induction members as [|[k' v] members IH]; simpl; [reflexivity|].
  intros Hk. destruct (String.eqb_spec k' k) as [->|_]; [tauto|].
  apply IH. tauto.
Qed.

Lemma extra_keys_In (k : string) (fs : list field) (members : list (string * json)) :
  In k (keys members) -> ~ In k (map field_name fs) -> In k (extra_keys fs members).
Proof.
  intros Hin Hout. unfold extra_keys.
  apply list_elem_of_In, list_elem_of_filter. split.
  - apply mem_false in Hout. now rewrite Hout.
  - now apply list_elem_of_In.
Qed.

(** A model class that forbids extras rejects any dict with an undeclared key. *)
Lemma forbid_rejects (cls k : string) (fs : list field) (members : list (string * json)) :
  In k (keys members) -> ~ In k (map field_name fs) ->
  validate (SModel cls Forbid fs) (JObj members) = None.
Proof.
  intros Hin Hout. simpl.
  destruct (validate_fields validate members fs); [|reflexivity].
  pose proof (extra_keys_In k fs members Hin Hout) as Hex.
  unfold extras_allowed. destruct (extra_keys fs members); [destruct Hex | reflexivity].
Qed.

(** A model class that ignores extras validates as if the key were absent. *)
Lemma ignore_drops (cls k : string) (v : json) (fs : list field)
    (l1 l2 : list (string * json)) :
  ~ In k (map field_name fs) ->
  validate (SModel cls Ignore fs) (JObj (l1 ++ (k, v) :: l2))
  = validate (SModel cls Ignore fs) (JObj (l1 ++ l2)).
Proof.
  intros Hout. simpl. now rewrite validate_fields_skip.
Qed.

Lemma model_dump_keys (cls : string) (extra : extra_mode) (fs : list field) (v m : json) :
  validate (SModel cls extra fs) v = Some m ->
  exists out, m = JObj out /\ keys out = map field_name fs.
Proof.
  simpl. destruct v; try discriminate.
  destruct (validate_fields validate members fs) as [out|] eqn:E; [|discriminate].
  destruct (extras_allowed extra fs members); [|discriminate].
  intros [= <-]. exists out. split; [reflexivity|]. eapply validate_fields_keys; eauto.
Qed.

(** Every stage schema is a model class; the strict copy forbids extras,
    the lenient copy ignores them, and both declare the same field names. *)
Lemma stage_schema_shape (k : stage) :
  exists cls fs fs',
    strict_schema k = SModel cls Forbid fs /\
    lenient_schema k = SModel cls Ignore fs' /\
    map field_name fs = map field_name fs'.
Proof. destruct k; do 3 eexists; repeat split. Qed.

End UnknownField.

(** ** Schema validation: instances, the two copies, defaults *)

(** Induction over schemas, through the fields of a model class. *)
Section SchemaInduction.
Variable P : schema -> Prop.
Hypothesis HStr : P SStr.
Hypothesis HFloat : P SFloat.
Hypothesis HBool : P SBool.
Hypothesis HOptional : forall s, P s -> P (SOptional s).
Hypothesis HList : forall s, P s -> P (SList s).
Hypothesis HModel : forall cls extra fields,
  Forall (fun f : field => P (snd (fst f))) fields -> P (SModel cls extra fields).

Fixpoint schema_induction (s : schema) : P s :=
  match s with
  | SStr => HStr
  | SFloat => HFloat
  | SBool => HBool
  | SOptional s' => HOptional s' (schema_induction s')
  | SList s' => HList s' (schema_induction s')
  | SModel cls extra fields =>
      HModel cls extra fields
        ((fix go (fs : list field) : Forall (fun f : field => P (snd (fst f))) fs :=
            match fs with
            | [] => List.Forall_nil _
            | f :: fs' =>
                @List.Forall_cons _ _ f fs'
                  (match f return P (snd (fst f)) with
                   | (n, ty, d) => schema_induction ty
                   end)
                  (go fs')
            end) fields)
  end.

End SchemaInduction.

(** *** Validated instances validate again *)

(** A default the class can hand out as it is: [None] for an optional
    field, the empty list for a list, [False] for a flag, a string for a
    string. *)
Fixpoint default_ok (ty : schema) (d : json) : bool :=
  match ty with
  | SStr => match d with JStr _ => true | _ => false end
  | SBool => match d with JBool false => true | _ => false end
  | SOptional ty' => match d with JNull => true | _ => default_ok ty' d end
  | SList _ => match d with JArr [] => true | _ => false end
  | _ => false
  end.

Fixpoint nodup (l : list string) : bool :=
  match l with
  | [] => true
  | k :: l' => negb (mem k l') && nodup l'
  end.

(** A class is well formed when no two of its fields share a name, every
    default is one of the above, and the classes of its fields are well
    formed. *)
Fixpoint well_formed (s : schema) : bool :=
  match s with
  | SOptional s' | SList s' => well_formed s'
  | SModel _ _ fields =>
      nodup (map field_name fields) &&
      forallb (fun f : field =>
                 well_formed (snd (fst f)) &&
                 match snd f with
                 | Some d => default_ok (snd (fst f)) d
                 | None => true
                 end)
              fields
  | _ => true
  end.

Section Revalidation.
Context `{Scalars}.
Local Open Scope list_scope.

(** What pydantic's coercions give is of the target type, and a value of
    the target type is accepted as it is. *)
Hypothesis lax_float_idempotent : forall v m, lax_float v = Some m -> lax_float m = Some m.
Hypothesis lax_bool_idempotent : forall v m, lax_bool v = Some m -> lax_bool m = Some m.
Hypothesis lax_bool_false : lax_bool (JBool false) = Some (JBool false).

Lemma default_ok_valid (ty : schema) (d : json) :
  default_ok ty d = true -> validate ty d = Some d.
Proof.
  induction ty as [| | | ty IH | ty IH | cls extra fields]; simpl; try discriminate.
  - destruct d; try discriminate. reflexivity.
  - destruct d as [|b| | | | |]; try discriminate. destruct b; [discriminate|].
    intros _. exact lax_bool_false.
  - destruct d; try reflexivity; exact IH.
  - destruct d as [| | | | |items|]; try discriminate.
    destruct items; [reflexivity | discriminate].
Qed.

Lemma nodup_NoDup (l : list string) : nodup l = true -> NoDup l.
Proof.
  induction l as [|k l IH]; simpl; [constructor|].
  rewrite andb_true_iff, negb_true_iff. intros [Hk Hl].
  constructor; [|auto]. rewrite list_elem_of_In. now apply mem_false.
Qed.

Lemma dict_get_app_skip (n : string) (pre l : list (string * json)) :
  ~ In n (keys pre) -> dict_get n (pre ++ l) = dict_get n l.
Proof.
  induction pre as [|[k v] pre IH]; simpl; [reflexivity|].
  intros Hn. destruct (String.eqb_spec k n) as [->|_]; [tauto|]. apply IH. tauto.
Qed.

(** Where the entries of a dump come from: a validated input value or the
    field's default. *)
Lemma validate_fields_values rec (members : list (string * json)) (fs : list field)
    (out : list (string * json)) :
  validate_fields rec members fs = Some out ->
  Forall2 (fun (f : field) kv =>
             fst kv = field_name f /\
             ((exists x, rec (snd (fst f)) x = Some (snd kv)) \/ snd f = Some (snd kv)))
          fs out.
Proof.
  revert out. induction fs as [|[[n ty] d] fs IH]; intros out; simpl.
  - intros [= <-]. constructor.
  - destruct (dict_get n members) as [x|].
    + destruct (rec ty x) as [x'|] eqn:Hx; [|discriminate].
      destruct (validate_fields rec members fs) as [rest|]; [|discriminate].
      intros [= <-]. constructor; [|now apply IH]. simpl. eauto.
    + destruct d as [d|]; [|discriminate].
      destruct (validate_fields rec members fs) as [rest|]; [|discriminate].
      intros [= <-]. constructor; [|now apply IH]. simpl. eauto.
Qed.

(** A dump whose entries validate as they are is validated to itself. *)
Lemma validate_fields_again rec (fs : list field) (out : list (string * json)) :
  Forall2 (fun (f : field) kv =>
             fst kv = field_name f /\ rec (snd (fst f)) (snd kv) = Some (snd kv)) fs out ->
  NoDup (map field_name fs) ->
  forall pre, (forall k, In k (map field_name fs) -> ~ In k (keys pre)) ->
  validate_fields rec (pre ++ out) fs = Some out.
Proof.
  induction 1 as [|[[n ty] d] [k x] fs out [Hk Hx] _ IH]; intros Hnodup pre Hpre.
  - reflexivity.
  - unfold field_name in *. simpl in Hk, Hx, Hnodup, Hpre. subst k. simpl.
    rewrite dict_get_app_skip by (apply Hpre; now left). simpl.
    rewrite String.eqb_refl, Hx.
    inversion Hnodup as [|? ? Hn Hnodup']; subst.
    change (pre ++ (n, x) :: out) with (pre ++ [(n, x)] ++ out). rewrite app_assoc.
    rewrite IH; [reflexivity | assumption |].
    intros k Hin. unfold keys. rewrite map_app, in_app_iff. simpl.
    intros [Hin' | [<- | []]].
    + apply (Hpre k); [now right | exact Hin'].
    + apply Hn. now apply list_elem_of_In.
Qed.

Lemma extra_keys_none (fs : list field) (out : list (string * json)) :
  keys out = map field_name fs -> extra_keys fs out = [].
Proof.
  intros Hkeys. unfold extra_keys. rewrite Hkeys.
  assert (Hall : forall l, (forall k, In k l -> In k (map field_name fs)) ->
                           filter (fun k => negb (mem k (map field_name fs))) l = []).
  { induction l as [|k l IH]; intros Hl; [reflexivity|].
    rewrite filter_cons_False.
    - apply IH. intros k' Hk'. apply Hl. now right.
    - assert (Hk : mem k (map field_name fs) = true) by (apply mem_In, Hl; now left).
      rewrite Hk. simpl. auto. }
  apply Hall. auto.
Qed.

Lemma Forall2_impl_In {X Y} (P Q : X -> Y -> Prop) xs ys :
  Forall2 P xs ys -> (forall x y, In x xs -> P x y -> Q x y) -> Forall2 Q xs ys.
Proof.
  induction 1 as [|x y xs ys HP _ IH]; intros HPQ; constructor.
  - apply HPQ; [now left | exact HP].
  - apply IH. intros x' y' Hin. apply HPQ. now right.
Qed.

Lemma validate_idempotent (s : schema) :
  well_formed s = true -> forall v m, validate s v = Some m -> validate s m = Some m.
Proof.
  induction s as [| | | s IH | s IH | cls extra fields IH] using schema_induction;
    intros Hwf v m; simpl.
  - destruct v; try discriminate. now intros [= <-].
  - apply lax_float_idempotent.
  - apply lax_bool_idempotent.
  - intros Hv.
    assert (Hm : validate s v = Some m \/ m = JNull)
      by (destruct v; auto; injection Hv; auto).
    destruct Hm as [Hm | ->]; [|reflexivity].
    destruct m; [reflexivity | eapply IH; eauto ..].
  - destruct v as [| | | | |items|]; try discriminate.
    destruct (mapM (validate s) items) as [ms|] eqn:Hms; [|discriminate].
    simpl. intros [= <-].
    assert (Hagain : mapM (validate s) ms = Some ms).
    { apply mapM_Some. apply mapM_Some in Hms.
      clear -Hms IH Hwf. induction Hms as [|x y items ms Hxy _ IHms]; constructor; eauto. }
    now rewrite Hagain.
  - destruct v as [| | | | | |members]; try discriminate.
    destruct (validate_fields validate members fields) as [out|] eqn:Hout; [|discriminate].
    destruct (extras_allowed extra fields members); [|discriminate].
    intros [= <-].
    simpl in Hwf. apply andb_true_iff in Hwf as [Hnames Hfields].
    rewrite forallb_forall in Hfields.
    pose proof (validate_fields_keys _ _ _ _ Hout) as Hkeys.
    assert (Hvalues : Forall2 (fun (f : field) kv =>
                                 fst kv = field_name f /\
                                 validate (snd (fst f)) (snd kv) = Some (snd kv)) fields out).
    { apply validate_fields_values in Hout.
      rewrite Forall_forall in IH.
      eapply Forall2_impl_In; [exact Hout|].
      intros f kv Hf [Hk Hv]. split; [exact Hk|].
      pose proof (Hfields f Hf) as Hwff. apply andb_true_iff in Hwff as [Hwfty Hdef].
      destruct Hv as [[x Hx] | Hd].
      - eapply (IH f); eauto. now apply list_elem_of_In.
      - rewrite Hd in Hdef. now apply default_ok_valid. }
    pose proof (validate_fields_again validate fields out Hvalues (nodup_NoDup _ Hnames) [])
      as Hagain.
    simpl in Hagain. rewrite Hagain by (intros k _ []).
    unfold extras_allowed. rewrite (extra_keys_none fields out Hkeys).
    destruct extra; reflexivity.
Qed.

(** Every instance a stage schema validated, of either copy, is accepted
    again by the same schema, unchanged: what a stage returned and wrote
    can be read and validated by the stage that consumes it. The same
    holds for each class the stage schemas are built from. *)
Theorem validated_instances_validate_again (k : stage) (obj m : json) :
  (model_validate (strict_schema k) obj = ret m ->
   model_validate (strict_schema k) m = ret m) /\
  (model_validate (lenient_schema k) obj = ret m ->
   model_validate (lenient_schema k) m = ret m).
Proof.
  assert (Hgen : forall s, well_formed s = true ->
                           model_validate s obj = ret m -> model_validate s m = ret m).
  { intros s Hwf. unfold model_validate.
    destruct (validate s obj) as [m'|] eqn:Hv; [|discriminate].
    intros [= ->]. now rewrite (validate_idempotent s Hwf obj m Hv). }
  split; apply Hgen; destruct k; reflexivity.
Qed.

End Revalidation.

(** *** The lenient copy accepts what the strict copy accepts *)

(** The same class with [extra="ignore"] throughout. *)
Fixpoint relax (s : schema) : schema :=
  match s with
  | SOptional s' => SOptional (relax s')
  | SList s' => SList (relax s')
  | SModel cls _ fields =>
      SModel cls Ignore (map (fun f : field => (fst (fst f), relax (snd (fst f)), snd f)) fields)
  | _ => s
  end.

Section TwoCopies.
Context `{Scalars}.
Local Open Scope list_scope.

(** [s'] accepts what [s] accepts, with the same result. *)
Definition accepts_more (s s' : schema) : Prop :=
  forall v m, validate s v = Some m -> validate s' v = Some m.

(** A field that keeps its name, accepts at least as much, and keeps its
    default or gains one. *)
Definition field_weaker (f f' : field) : Prop :=
  field_name f' = field_name f /\
  accepts_more (snd (fst f)) (snd (fst f')) /\
  (snd f = None \/ snd f' = snd f).

Lemma validate_fields_weaker (members : list (string * json)) (fs fs' : list field)
    (out : list (string * json)) :
  Forall2 field_weaker fs fs' ->
  validate_fields validate members fs = Some out ->
  validate_fields validate members fs' = Some out.
Proof.
  intros Hfs. revert out.
  induction Hfs as [|[[n ty] d] [[n' ty'] d'] fs fs' (Hn & Hty & Hd) _ IH]; intros out;
    [trivial|].
  unfold field_name in Hn. simpl in Hn, Hty, Hd. subst n'. simpl.
  destruct (dict_get n members) as [x|].
  - destruct (validate ty x) as [x'|] eqn:Hx; [|discriminate].
    rewrite (Hty _ _ Hx).
    destruct (validate_fields validate members fs) as [rest|]; [|discriminate].
    intros [= <-]. now rewrite (IH rest eq_refl).
  - destruct d as [d|]; [|discriminate].
    destruct Hd as [Hd | ->]; [discriminate|].
    destruct (validate_fields validate members fs) as [rest|]; [|discriminate].
    intros [= <-]. now rewrite (IH rest eq_refl).
Qed.

Lemma model_accepts_more (cls : string) (extra : extra_mode) (fs fs' : list field) :
  Forall2 field_weaker fs fs' ->
  accepts_more (SModel cls extra fs) (SModel cls Ignore fs').
Proof.
  intros Hfs v m. simpl. destruct v as [| | | | | |members]; try discriminate.
  destruct (validate_fields validate members fs) as [out|] eqn:Hout; [|discriminate].
  rewrite (validate_fields_weaker _ _ _ _ Hfs Hout).
  destruct (extras_allowed extra fs members); [|discriminate]. trivial.
Qed.

Lemma relax_accepts_more (s : schema) : accepts_more s (relax s).
Proof.
  induction s as [| | | s IH | s IH | cls extra fields IH] using schema_induction;
    try (intros v m; trivial; fail).
  - intros v m. simpl. destruct v; auto.
  - intros v m. simpl. destruct v as [| | | | |items|]; try discriminate.
    destruct (mapM (validate s) items) as [ms|] eqn:Hms; [|discriminate].
    simpl. intros [= <-].
    assert (Hrelax : mapM (validate (relax s)) items = Some ms).
    { apply mapM_Some. apply mapM_Some in Hms.
      eapply Forall2_impl; [exact Hms|]. intros x y. apply IH. }
    now rewrite Hrelax.
  - simpl. apply model_accepts_more.
    induction IH as [|[[n ty] d] fs Hf _ IHfs]; constructor; [|exact IHfs].
    repeat split; [exact Hf | now right].
Qed.

(** Whatever object a stage schema of the strict copy
    ([src/utils/model.py]) accepts, the schema of the same stage in the
    lenient copy ([src/backend/utils/model.py]) accepts too, and the two
    instances are equal: the relaxations of the lenient copy (extras
    ignored, [note] optional) take nothing away. *)
Theorem lenient_copy_accepts_what_strict_copy_accepts (k : stage) (obj m : json) :
  model_validate (strict_schema k) obj = ret m ->
  model_validate (lenient_schema k) obj = ret m.
Proof.
  assert (Hgen : accepts_more (strict_schema k) (lenient_schema k)).
  { destruct k; try exact (relax_accepts_more _).
    apply model_accepts_more.
    repeat (constructor;
            [repeat split;
             [first [exact (relax_accepts_more _) | intros v m'; destruct v; simpl; congruence]
             | first [now right | now left]]|]).
    constructor. }
  unfold model_validate. destruct (validate (strict_schema k) obj) as [m'|] eqn:Hv;
    [|discriminate].
  intros [= ->]. now rewrite (Hgen _ _ Hv).
Qed.

Lemma validate_model (cls : string) (extra : extra_mode) (fs : list field)
    (members : list (string * json)) :
  validate (SModel cls extra fs) (JObj members)
  = match validate_fields validate members fs with
    | Some out => if extras_allowed extra fs members then Some (JObj out) else None
    | None => None
    end.
Proof. reflexivity. Qed.

(** A required field that the input lacks fails the class. *)
Lemma validate_fields_required rec (members : list (string * json)) (fs : list field)
    (n : string) (ty : schema) :
  In (n, ty, None) fs -> dict_get n members = None -> validate_fields rec members fs = None.
Proof.
  induction fs as [|[[n' ty'] d'] fs IH]; intros Hin Hn; [destruct Hin|].
  simpl. destruct Hin as [[= -> -> ->] | Hin].
  - rewrite Hn. reflexivity.
  - rewrite (IH Hin Hn).
    destruct (dict_get n' members); [destruct (rec ty' _)|destruct d']; reflexivity.
Qed.

(** A field with a default that the input lacks takes the default. *)
Lemma validate_fields_default rec (members : list (string * json)) (fs : list field)
    (out : list (string * json)) (n : string) (ty : schema) (d : json) :
  NoDup (map field_name fs) ->
  In (n, ty, Some d) fs -> dict_get n members = None ->
  validate_fields rec members fs = Some out -> dict_get n out = Some d.
Proof.
  revert out. induction fs as [|[[n' ty'] d'] fs IH]; intros out Hnodup Hin Hn; [destruct Hin|].
  simpl. inversion Hnodup as [|? ? Hfresh Hnodup']; subst.
  destruct Hin as [[= -> -> ->] | Hin].
  - rewrite Hn. destruct (validate_fields rec members fs); [|discriminate].
    intros [= <-]. simpl. now rewrite String.eqb_refl.
  - assert (Hne : n' <> n).
    { intros ->. apply Hfresh. apply list_elem_of_In.
      exact (in_map field_name _ _ Hin). }
    destruct (dict_get n' members) as [x|].
    + destruct (rec ty' x); [|discriminate].
      destruct (validate_fields rec members fs) as [rest|] eqn:Hrest; [|discriminate].
      intros [= <-]. simpl. destruct (String.eqb_spec n' n); [congruence|]. eapply IH; eauto.
    + destruct d' as [d'|]; [|discriminate].
      destruct (validate_fields rec members fs) as [rest|] eqn:Hrest; [|discriminate].
      intros [= <-]. simpl. destruct (String.eqb_spec n' n); [congruence|]. eapply IH; eauto.
Qed.

(** The [note] of a category with items: the strict copy requires it, the
    lenient copy fills in ["No notes provided"]. An object without the key
    is rejected by the first; when the second accepts it, the instance
    carries the default note. *)
Theorem missing_note_strict_rejects_lenient_defaults (members : list (string * json)) :
  dict_get "note" members = None ->
  model_validate utils_model.CategorywithItems (JObj members) = raise ValidationError /\
  (forall m, model_validate backend_utils_model.CategorywithItems (JObj members) = ret m ->
             Py.getitem m "note" = ret (JStr "No notes provided")).
Proof.
  intros Hnote. split.
  - unfold model_validate, utils_model.CategorywithItems. rewrite validate_model.
    rewrite (validate_fields_required _ members _ "note" SStr); [reflexivity | | exact Hnote].
    unfold required, optional. simpl. tauto.
  - intros m. unfold model_validate, backend_utils_model.CategorywithItems.
    rewrite validate_model.
    destruct (validate_fields validate members _) as [out|] eqn:Hout; [|discriminate].
    simpl extras_allowed. cbv iota. intros [= <-].
    unfold Py.getitem.
    erewrite (validate_fields_default _ members _ out "note" (SOptional SStr)
                (JStr "No notes provided")); [reflexivity | | | exact Hnote | exact Hout].
    + apply nodup_NoDup. reflexivity.
    + unfold required, optional. simpl. tauto.
Qed.

End TwoCopies.

(** ** Schema validation: unknown fields at any depth *)

Definition extra_mode_eqb (a b : extra_mode) : bool :=
  match a, b with
  | Forbid, Forbid | Ignore, Ignore => true
  | _, _ => false
  end.

(** Every model class of [s], the classes of its fields included, has
    [extra = mode]. *)
Fixpoint all_extra (mode : extra_mode) (s : schema) : bool :=
  match s with
  | SOptional s' | SList s' => all_extra mode s'
  | SModel _ extra fields =>
      extra_mode_eqb extra mode &&
      forallb (fun f : field => all_extra mode (snd (fst f))) fields
  | _ => true
  end.

(** [added name value s v v']: [v'] is the value [v] of annotation [s] with
    the entry [(name, value)] put into one of its objects, at any depth: an
    object of a model class that does not declare [name]. The object is
    reached the way validation reaches it: through a declared field of the
    enclosing object (the first entry of that key), through an optional,
    through an item of a list. *)
Inductive added (name : string) (value : json) : schema -> json -> json -> Prop :=
| added_here cls extra fs l1 l2 :
    ~ In name (map field_name fs) ->
    added name value (SModel cls extra fs)
          (JObj (l1 ++ l2)) (JObj (l1 ++ (name, value) :: l2))
| added_field cls extra fs n ty d l1 l2 x x' :
    In (n, ty, d) fs -> ~ In n (keys l1) ->
    added name value ty x x' ->
    added name value (SModel cls extra fs)
          (JObj (l1 ++ (n, x) :: l2)) (JObj (l1 ++ (n, x') :: l2))
| added_optional s v v' :
    added name value s v v' -> added name value (SOptional s) v v'
| added_item s l1 l2 v v' :
    added name value s v v' ->
    added name value (SList s) (JArr (l1 ++ v :: l2)) (JArr (l1 ++ v' :: l2)).

(** The least a unit's response can carry for stage [k]: its name, and for
    a page's categories nothing at all ... *)
Definition named_only (k : stage) (name_raw : string) : list (string * json) :=
  match k with
  | Stage1 => []
  | _ => [("name_raw", JStr name_raw)]
  end.

(** ... and the instance the lenient class of the stage makes of it: every
    other field at its declared default. *)
Definition defaults (k : stage) (name_raw : string) : json :=
  match k with
  | Stage1 => JObj [("categories", JArr [])]
  | Stage2 => JObj [("name_raw", JStr name_raw); ("category_items", JArr []);
                    ("subcategory_items", JArr []); ("note", JStr "No notes provided")]
  | Stage3 => JObj [("name_raw", JStr name_raw); ("base_options", JArr []);
                    ("subcategories_base", JArr [])]
  | Stage4 => JObj [("name_raw", JStr name_raw); ("subcategory_items", JArr []);
                    ("items_addons", JArr [])]
  end.

Section UnknownFieldNested.
Context `{Scalars}.
Local Open Scope list_scope.

Lemma added_not_null name value s v v' :
  added name value s v v' -> v <> JNull /\ v' <> JNull.
Proof. induction 1; try (split; discriminate); assumption. Qed.

Lemma validate_optional_not_null (s : schema) (v : json) :
  v <> JNull -> validate (SOptional s) v = validate s v.
Proof. intros Hv. destruct v; try reflexivity. now destruct Hv. Qed.

Lemma mapM_item_fails {A B} (f : A -> option B) (l1 : list A) (x : A) (l2 : list A) :
  f x = None -> mapM f (l1 ++ x :: l2) = None.
Proof.
  intros Hx. induction l1 as [|a l1 IH]; simpl.
  - now rewrite Hx.
  - rewrite IH. now destruct (f a).
Qed.

Lemma mapM_item_same {A B} (f : A -> option B) (l1 : list A) (x x' : A) (l2 : list A) :
  f x' = f x -> mapM f (l1 ++ x' :: l2) = mapM f (l1 ++ x :: l2).
Proof.
  intros Hx. induction l1 as [|a l1 IH]; simpl; [now rewrite Hx | now rewrite IH].
Qed.

(** A declared field whose entry is rejected fails the class. *)
Lemma validate_fields_fails rec (members : list (string * json)) (fs : list field)
    (n : string) (ty : schema) (d : option json) (x : json) :
  In (n, ty, d) fs -> dict_get n members = Some x -> rec ty x = None ->
  validate_fields rec members fs = None.
Proof.
  induction fs as [|[[n' ty'] d'] fs IH]; intros Hin Hn Hx; [destruct Hin|].
  simpl. destruct Hin as [[= -> -> ->] | Hin].
  - now rewrite Hn, Hx.
  - rewrite (IH Hin Hn Hx).
    destruct (dict_get n' members); [destruct (rec ty' _)|destruct d']; reflexivity.
Qed.

Lemma dict_get_first (n : string) (x : json) (l1 l2 : list (string * json)) :
  ~ In n (keys l1) -> dict_get n (l1 ++ (n, x) :: l2) = Some x.
Proof.
  intros Hn. rewrite dict_get_app_skip by assumption. simpl. now rewrite String.eqb_refl.
Qed.

(** The field loop sees an entry only through the fields of its key. *)
Lemma validate_fields_replace rec (n : string) (x x' : json)
    (l1 l2 : list (string * json)) (fs : list field) :
  ~ In n (keys l1) ->
  (forall ty d, In (n, ty, d) fs -> rec ty x' = rec ty x) ->
  validate_fields rec (l1 ++ (n, x') :: l2) fs = validate_fields rec (l1 ++ (n, x) :: l2) fs.
Proof.
  intros Hn. induction fs as [|[[k ty] d] fs IH]; intros Hsame; simpl; [reflexivity|].
  rewrite IH by (intros ty' d' Hin; apply (Hsame ty' d'); now right).
  destruct (String.eqb_spec k n) as [->|Hne].
  - rewrite !dict_get_first by assumption. rewrite (Hsame ty d) by now left. reflexivity.
  - rewrite !(dict_get_skip k n) by assumption. reflexivity.
Qed.

Lemma field_type_unique (fs : list field) (n : string) (ty ty' : schema)
    (d d' : option json) :
  NoDup (map field_name fs) -> In (n, ty, d) fs -> In (n, ty', d') fs -> ty' = ty.
Proof.
  induction fs as [|f fs IH]; intros Hnodup Hin Hin'; [destruct Hin|].
  inversion Hnodup as [|? ? Hfresh Hnodup']; subst.
  rewrite list_elem_of_In in Hfresh.
  destruct Hin as [->|Hin], Hin' as [E|Hin'].
  - now inversion E.
  - destruct Hfresh. exact (in_map field_name _ _ Hin').
  - subst f. destruct Hfresh. exact (in_map field_name _ _ Hin).
  - now apply IH.
Qed.

(** With [extra="forbid"] on every class, an undeclared key in any object
    of the value fails the whole validation. *)
Lemma forbid_rejects_at_any_depth name value s v v' :
  added name value s v v' -> all_extra Forbid s = true -> validate s v' = None.
Proof.
  induction 1 as [cls extra fs l1 l2 Hname
                 | cls extra fs n ty d l1 l2 x x' Hin Hn Hadd IH
                 | s v v' Hadd IH
                 | s l1 l2 v v' Hadd IH]; simpl all_extra; intros Hall.
  - apply andb_true_iff in Hall as [Hex _]. destruct extra; [|discriminate].
    apply (forbid_rejects cls name); [|assumption].
    unfold keys. rewrite map_app. apply in_or_app. right. now left.
  - apply andb_true_iff in Hall as [_ Hfs]. rewrite forallb_forall in Hfs.
    specialize (Hfs _ Hin). simpl in Hfs.
    rewrite validate_model.
    rewrite (validate_fields_fails _ _ _ n ty d x'); auto using dict_get_first.
  - rewrite validate_optional_not_null by apply (added_not_null _ _ _ _ _ Hadd). auto.
  - simpl. rewrite mapM_item_fails; auto.
Qed.

(** With [extra="ignore"] on every class, the value validates exactly as
    the value without the key. *)
Lemma ignore_drops_at_any_depth name value s v v' :
  added name value s v v' -> all_extra Ignore s = true -> well_formed s = true ->
  validate s v' = validate s v.
Proof.
  induction 1 as [cls extra fs l1 l2 Hname
                 | cls extra fs n ty d l1 l2 x x' Hin Hn Hadd IH
                 | s v v' Hadd IH
                 | s l1 l2 v v' Hadd IH]; simpl all_extra; simpl well_formed;
    intros Hall Hwf.
  - apply andb_true_iff in Hall as [Hex _]. destruct extra; [discriminate|].
    now apply ignore_drops.
  - apply andb_true_iff in Hall as [Hex Hfs]. rewrite forallb_forall in Hfs.
    destruct extra; [discriminate|].
    apply andb_true_iff in Hwf as [Hnodup Hwfs]. rewrite forallb_forall in Hwfs.
    pose proof (Hfs _ Hin) as Hty. pose proof (Hwfs _ Hin) as Hwty.
    simpl in Hty, Hwty. apply andb_true_iff in Hwty as [Hwty _].
    rewrite !validate_model.
    rewrite (validate_fields_replace validate n x x'); [reflexivity | assumption |].
    intros ty' d' Hin'.
    rewrite (field_type_unique fs n ty ty' d d' (nodup_NoDup _ Hnodup) Hin Hin').
    now apply IH.
  - destruct (added_not_null _ _ _ _ _ Hadd) as [Hv Hv'].
    rewrite !validate_optional_not_null by assumption. auto.
  - simpl. rewrite (mapM_item_same _ l1 v v'); auto.
Qed.

Lemma stage_schemas_uniform (k : stage) :
  all_extra Forbid (strict_schema k) = true /\
  all_extra Ignore (lenient_schema k) = true /\
  well_formed (lenient_schema k) = true.
Proof. destruct k; repeat split. Qed.

(** C5. For every stage schema and every response object that carries a
    field [name] the schema does not declare: the strict copy
    ([extra="forbid"], [src/utils/model.py]) rejects the object with a
    validation error; the lenient copy ([extra="ignore"],
    [src/backend/utils/model.py]) validates it exactly as it validates the
    object without that field, so an otherwise valid object is accepted,
    and the accepted instance does not carry [name]. Both settings exist,
    one per copy of the schema module. The lenient copy does accept: a
    unit that carries nothing but its name and the undeclared field is
    validated to the instance with every other field at its default. And
    the same holds below the top level, since every class of a copy has
    the copy's setting: an undeclared key in any object of the response, at
    any depth, makes the strict copy reject the whole response, and the
    lenient copy validates the response as it does without that key. *)
Theorem unknown_field_strict_rejects_lenient_drops
    (k : stage) (name : string) (value : json) (l1 l2 : list (string * json)) :
  ~ In name (declared (strict_schema k)) ->
  let obj := JObj (l1 ++ (name, value) :: l2) in
  extra_of (strict_schema k) = Some Forbid /\
  extra_of (lenient_schema k) = Some Ignore /\
  declared (lenient_schema k) = declared (strict_schema k) /\
  model_validate (strict_schema k) obj = raise ValidationError /\
  model_validate (lenient_schema k) obj = model_validate (lenient_schema k) (JObj (l1 ++ l2)) /\
  (forall m, model_validate (lenient_schema k) (JObj (l1 ++ l2)) = ret m ->
     model_validate (lenient_schema k) obj = ret m) /\
  (forall m, model_validate (lenient_schema k) obj = ret m ->
     exists out, m = JObj out /\ keys out = declared (lenient_schema k) /\
                 dict_get name out = None) /\
  (forall name_raw,
     model_validate (lenient_schema k) (JObj (named_only k name_raw ++ [(name, value)]))
     = ret (defaults k name_raw)) /\
  (forall name' value' v v',
     added name' value' (strict_schema k) v v' ->
     model_validate (strict_schema k) v' = raise ValidationError) /\
  (forall name' value' v v',
     added name' value' (lenient_schema k) v v' ->
     model_validate (lenient_schema k) v' = model_validate (lenient_schema k) v).
Proof.
  intros Hname obj.
  destruct (stage_schemas_uniform k) as (Hforbid & Hignore & Hwf).
  assert (Hnested : (forall name' value' v v',
     added name' value' (strict_schema k) v v' ->
     model_validate (strict_schema k) v' = raise ValidationError) /\
    (forall name' value' v v',
     added name' value' (lenient_schema k) v v' ->
     model_validate (lenient_schema k) v' = model_validate (lenient_schema k) v)).
  { split; intros name' value' v v' Hadd; unfold model_validate.
    - now rewrite (forbid_rejects_at_any_depth _ _ _ _ _ Hadd Hforbid).
    - now rewrite (ignore_drops_at_any_depth _ _ _ _ _ Hadd Hignore Hwf). }
  assert (Hblank : forall name_raw,
     model_validate (lenient_schema k) (JObj (named_only k name_raw ++ [(name, value)]))
     = ret (defaults k name_raw)).
  { intros name_raw. unfold model_validate.
    destruct (stage_schema_shape k) as (cls & fs & fs' & Hs & Hl & Hfs).
    assert (Hname' : ~ In name (map field_name fs')).
    { rewrite <- Hfs. unfold declared in Hname. now rewrite Hs in Hname. }
    rewrite Hl, ignore_drops by assumption. rewrite <- Hl, app_nil_r.
    destruct k; reflexivity. }
  destruct (stage_schema_shape k) as (cls & fs & fs' & Hs & Hl & Hfs).
  unfold declared in *. rewrite Hs, Hl in *. simpl in Hname. simpl fields_of.
  assert (Hname' : ~ In name (map field_name fs')) by now rewrite <- Hfs.
  assert (Hdrop : model_validate (SModel cls Ignore fs') obj
                  = model_validate (SModel cls Ignore fs') (JObj (l1 ++ l2))).
  { unfold model_validate, obj. now rewrite ignore_drops. }
  split; [reflexivity|]. split; [reflexivity|]. split; [now symmetry|].
  split.
  { unfold model_validate, obj. rewrite (forbid_rejects cls name); try assumption; [reflexivity|].
    unfold keys. rewrite map_app. apply in_or_app. right. now left. }
  split; [exact Hdrop|].
  split; [intros m Hm; now rewrite Hdrop|].
  split.
  { intros m. unfold model_validate.
    destruct (validate (SModel cls Ignore fs') obj) as [m'|] eqn:E; [|discriminate].
    intros [= <-]. destruct (model_dump_keys _ _ _ _ _ E) as (out & -> & Hkeys).
    exists out. repeat split; [assumption|].
    apply dict_get_not_key. now rewrite Hkeys. }
  split; [exact Hblank | exact Hnested].
Qed.

End UnknownFieldNested.

(** ** The bounded fan-out executor *)

Section ExecutorFacts.
Import Executor.
Context {A : Type}.
Implicit Types (l : loop A) (t : task A) (ts : list (task A)) (coros : list (coro A)).

(** *** Updating one task *)

Definition status_weight (s : status) : nat :=
  match s with Running _ => 1 | _ => 0 end.

Definition running_weight t : nat := status_weight (state t).

Definition flying ts : nat := sum_list (map running_weight ts).

Lemma in_flight_sum l : in_flight l = flying (tasks l).
Proof.
  unfold in_flight, flying. induction (tasks l) as [|t ts IH]; [reflexivity|].
  simpl.
  replace (running_weight t) with (if is_running t then 1 else 0)
    by (unfold running_weight, is_running; destruct (state t); reflexivity).
  destruct (is_running t); simpl; lia.
Qed.

Lemma sum_insert (f : task A -> nat) ts i t t' :
  ts !! i = Some t ->
  sum_list (map f (<[i := t']> ts)) + f t = sum_list (map f ts) + f t'.
Proof.
  revert i. induction ts as [|t0 ts IH]; intros [|i] Hi; simpl in *; try discriminate.
  - injection Hi as ->. lia.
  - specialize (IH i Hi). lia.
Qed.

Lemma flying_set_state ts i t s :
  ts !! i = Some t ->
  flying (set_state i t s ts) + status_weight (state t) = flying ts + status_weight s.
Proof.
  intros Hi. unfold flying, set_state.
  now rewrite (sum_insert running_weight ts i t _ Hi).
Qed.

Lemma body_insert ts i t s :
  ts !! i = Some t -> map body (set_state i t s ts) = map body ts.
Proof.
  unfold set_state. revert i.
  induction ts as [|t0 ts IH]; intros [|i] Hi; simpl in *; try discriminate.
  - now injection Hi as ->.
  - f_equal. now apply IH.
Qed.

Lemma lookup_set_state ts i j t s t' :
  ts !! i = Some t ->
  set_state i t s ts !! j = Some t' ->
  (j = i /\ t' = {| body := body t; state := s |}) \/ (j <> i /\ ts !! j = Some t').
Proof.
  unfold set_state. intros Hi Hj. destruct (decide (j = i)) as [->|Hne].
  - left. split; [reflexivity|].
    rewrite list_lookup_insert_eq in Hj by (eapply lookup_lt_Some; eauto). congruence.
  - right. split; [assumption|]. now rewrite list_lookup_insert_ne in Hj by congruence.
Qed.

(** *** The invariant of a run *)

Record invariant (limit : Z) (coros : list (coro A)) l : Prop := {
  inv_bodies : map body (tasks l) = coros;
  inv_permits : (sem_value l + Z.of_nat (in_flight l) = limit)%Z;
  inv_clean : raised l = None ->
    forall i t, tasks l !! i = Some t -> state t = Done ->
                exists a, completion (body t) = inr a;
  inv_raised : forall e, raised l = Some e ->
    exists c, In c coros /\ completion c = inl e
}.

Lemma start_invariant (limit : Z) coros : invariant limit coros (start limit coros).
Proof.
  split; simpl.
  - rewrite map_map. simpl. apply map_id.
  - assert (in_flight (start limit coros) = 0) as ->; [|lia].
    unfold in_flight. simpl. induction coros; simpl; auto.
  - intros _ i t Hi Hd. apply list_elem_of_lookup_2, list_elem_of_In, in_map_iff in Hi.
    destruct Hi as (c & <- & _). discriminate.
  - discriminate.
Qed.

Lemma lookup_body_In limit coros l i t :
  invariant limit coros l -> tasks l !! i = Some t -> In (body t) coros.
Proof.
  intros [Hb _ _ _] Hi. rewrite <- Hb. apply in_map.
  now apply list_elem_of_In, list_elem_of_lookup_2 with i.
Qed.

Lemma fire_invariant limit coros l i :
  invariant limit coros l -> invariant limit coros (fire i l).
Proof.
  intros Hinv. pose proof Hinv as [Hb Hp Hc Hr]. unfold fire.
  destruct (tasks l !! i) as [t|] eqn:Hi; [|assumption].
  pose proof (fun s => flying_set_state (tasks l) i t s Hi) as Hsum.
  destruct (state t) as [|[|n]|] eqn:Hst; [| | |assumption].
  - (* acquire *)
    destruct (0 <? sem_value l)%Z; [|assumption].
    split; simpl.
    + now rewrite body_insert.
    + rewrite in_flight_sum in *. simpl.
      specialize (Hsum (Running (suspensions (body t)))). simpl in Hsum. lia.
    + intros Hnone j t' Hj Hd.
      destruct (lookup_set_state _ _ _ _ _ _ Hi Hj) as [[_ ->]|[_ Hj']]; [discriminate|].
      eauto.
    + assumption.
  - (* complete and release *)
    split; simpl.
    + now rewrite body_insert.
    + rewrite in_flight_sum in *. simpl.
      specialize (Hsum (Done)). simpl in Hsum. lia.
    + intros Hnone j t' Hj Hd.
      destruct (raised l) eqn:Hraised; [discriminate|].
      destruct (lookup_set_state _ _ _ _ _ _ Hi Hj) as [[_ ->]|[_ Hj']].
      * simpl. destruct (completion (body t)); [discriminate | eauto].
      * eauto.
    + intros e. destruct (raised l) eqn:Hraised; [now apply Hr|].
      destruct (completion (body t)) eqn:Hcomp; [|discriminate].
      intros [= <-]. exists (body t). split; [|assumption].
      eapply lookup_body_In; eauto.
  - (* resume *)
    split; simpl.
    + now rewrite body_insert.
    + rewrite in_flight_sum in *. simpl.
      specialize (Hsum (Running n)). simpl in Hsum. lia.
    + intros Hnone j t' Hj Hd.
      destruct (lookup_set_state _ _ _ _ _ _ Hi Hj) as [[_ ->]|[_ Hj']]; [discriminate|].
      eauto.
    + assumption.
Qed.

Lemma step_invariant limit coros l c :
  invariant limit coros l -> invariant limit coros (step c l).
Proof.
  intros Hinv. unfold step. destruct (enabled l); [assumption|].
  now apply fire_invariant.
Qed.

Lemma run_invariant limit coros sched l :
  invariant limit coros l -> invariant limit coros (run sched l).
Proof.
  unfold run. revert l. induction sched as [|c sched IH]; intros l Hinv; simpl; [assumption|].
  apply IH. now apply step_invariant.
Qed.


(** *** Progress: with a permit to give, the loop completes every task *)

Lemma remaining_set_state ts i t s :
  ts !! i = Some t ->
  sum_list (map cost (set_state i t s ts)) + cost t
  = sum_list (map cost ts) + cost {| body := body t; state := s |}.
Proof. intros Hi. unfold set_state. now apply sum_insert. Qed.

Lemma fire_progress l i t :
  tasks l !! i = Some t -> can_move l t = true ->
  remaining (fire i l) + 1 = remaining l.
Proof.
  intros Hi Hmove. unfold fire, remaining. rewrite Hi.
  pose proof (fun s => remaining_set_state (tasks l) i t s Hi) as Hsum.
  assert (Hcost : cost t = match state t with
                           | Waiting => suspensions (body t) + 2
                           | Running n => n + 1
                           | Done => 0
                           end) by reflexivity.
  unfold can_move in Hmove.
  destruct (state t) as [|[|n]|]; cbn [tasks].
  - rewrite Hmove. cbn [tasks].
    specialize (Hsum (Running (suspensions (body t)))). cbn in Hsum. lia.
  - specialize (Hsum Done). cbn in Hsum. lia.
  - specialize (Hsum (Running n)). cbn in Hsum. lia.
  - discriminate.
Qed.

Lemma enabled_spec l i :
  In i (enabled l) <-> exists t, tasks l !! i = Some t /\ can_move l t = true.
Proof.
  unfold enabled. rewrite filter_In, in_seq. split.
  - intros [_ Hf]. destruct (tasks l !! i) as [t|]; [eauto | discriminate].
  - intros (t & Hi & Hmove). rewrite Hi. split; [|assumption].
    apply lookup_lt_Some in Hi. lia.
Qed.

Lemma step_progress l k :
  enabled l <> [] -> remaining (step k l) + 1 = remaining l.
Proof.
  intros Hen. unfold step. destruct (enabled l) as [|i0 en] eqn:E; [congruence|].
  assert (Hin : In (nth (k mod length (i0 :: en)) (i0 :: en) i0) (enabled l)).
  { rewrite E. apply nth_In. apply Nat.mod_upper_bound. simpl. lia. }
  apply enabled_spec in Hin. destruct Hin as (t & Hi & Hmove).
  now apply fire_progress with t.
Qed.

Lemma flying_zero ts :
  (forall t, In t ts -> status_weight (state t) = 0) -> flying ts = 0.
Proof.
  unfold flying. induction ts as [|t ts IH]; intros Hall; simpl; [reflexivity|].
  unfold running_weight at 1. rewrite Hall by now left.
  rewrite IH; [reflexivity|]. intros t' Ht'. apply Hall. now right.
Qed.

Lemma In_lookup ts t : In t ts -> exists i, ts !! i = Some t.
Proof. intros Hin. now apply list_elem_of_lookup_1, list_elem_of_In. Qed.

Lemma lookup_In ts i t : ts !! i = Some t -> In t ts.
Proof. intros Hi. now apply list_elem_of_In, list_elem_of_lookup_2 with i. Qed.

(** With no task able to move and a positive limit, every task is done:
    nothing runs, so every permit is free, so nothing can be waiting. *)
Lemma idle_all_done limit coros l :
  invariant limit coros l -> (0 < limit)%Z -> enabled l = [] ->
  forall t, In t (tasks l) -> state t = Done.
Proof.
  intros [_ Hp _ _] Hpos Hen.
  assert (Hstuck : forall t, In t (tasks l) -> can_move l t = false).
  { intros t Ht. destruct (In_lookup _ _ Ht) as [i Hi].
    destruct (can_move l t) eqn:Hmove; [|reflexivity].
    assert (Hin : In i (enabled l)) by (apply enabled_spec; eauto).
    rewrite Hen in Hin. destruct Hin. }
  assert (Hfly : flying (tasks l) = 0).
  { apply flying_zero. intros t Ht. specialize (Hstuck t Ht).
    unfold can_move in Hstuck. destruct (state t); simpl; congruence. }
  rewrite in_flight_sum, Hfly in Hp.
  intros t Ht. specialize (Hstuck t Ht). unfold can_move in Hstuck.
  destruct (state t); [|discriminate|reflexivity].
  apply Z.ltb_ge in Hstuck. lia.
Qed.

Lemma all_done_remaining ts :
  (forall t, In t ts -> state t = Done) -> sum_list (map cost ts) = 0.
Proof.
  induction ts as [|t ts IH]; intros Hall; simpl; [reflexivity|].
  rewrite IH by (intros t' Ht'; apply Hall; now right).
  unfold cost. rewrite Hall by now left. reflexivity.
Qed.

Lemma remaining_zero_done ts :
  sum_list (map cost ts) = 0 -> forallb is_done ts = true.
Proof.
  induction ts as [|t ts IH]; simpl; [reflexivity|].
  intros Hsum. rewrite IH by lia. unfold cost in Hsum. unfold is_done.
  destruct (state t); simpl in *; [lia | lia | reflexivity].
Qed.

Lemma step_remaining limit coros l k :
  invariant limit coros l -> (0 < limit)%Z ->
  remaining (step k l) = remaining l - 1.
Proof.
  intros Hinv Hpos. destruct (enabled l) as [|i0 en] eqn:E.
  - unfold step. rewrite E. unfold remaining.
    rewrite all_done_remaining; [reflexivity|]. now apply idle_all_done with limit coros.
  - pose proof (step_progress l k) as Hstep. rewrite E in Hstep.
    specialize (Hstep ltac:(discriminate)). lia.
Qed.

Lemma run_remaining limit coros sched l :
  invariant limit coros l -> (0 < limit)%Z ->
  remaining (run sched l) = remaining l - length sched.
Proof.
  unfold run. revert l. induction sched as [|k sched IH]; intros l Hinv Hpos; simpl.
  - lia.
  - rewrite IH by (try apply step_invariant; assumption).
    rewrite (step_remaining limit coros) by assumption. lia.
Qed.

(** Every schedule at least as long as the work to do completes every
    task, whatever it chooses. *)
Lemma run_completes (limit : Z) coros sched :
  (0 < limit)%Z -> work coros <= length sched ->
  forallb is_done (tasks (run sched (start limit coros))) = true.
Proof.
  intros Hpos Hlen. apply remaining_zero_done.
  change (remaining (run sched (start limit coros)) = 0).
  rewrite (run_remaining limit coros) by (try apply start_invariant; assumption).
  change (remaining (start limit coros)) with (work coros). lia.
Qed.

(** *** What [gather] delivers *)

Lemma all_done_lookup ts i t :
  forallb is_done ts = true -> ts !! i = Some t -> state t = Done.
Proof.
  intros Hall Hi. rewrite forallb_forall in Hall.
  specialize (Hall t (lookup_In _ _ _ Hi)). unfold is_done in Hall.
  destruct (state t); congruence.
Qed.

Lemma values_complete ts :
  (forall t, In t ts -> exists a, completion (body t) = inr a) ->
  map (fun t => completion (body t)) ts = map inr (values ts).
Proof.
  induction ts as [|t ts IH]; intros Hall; [reflexivity|].
  destruct (Hall t ltac:(now left)) as [a Ha].
  unfold values. simpl. rewrite Ha. simpl. f_equal.
  apply IH. intros t' Ht'. apply Hall. now right.
Qed.

Lemma gathered_returns limit coros l vs :
  invariant limit coros l -> gathered l = Some (inr vs) ->
  map completion coros = map inr vs.
Proof.
  intros [Hb _ Hc _]. unfold gathered.
  destruct (raised l); [discriminate|].
  destruct (forallb is_done (tasks l)) eqn:Hall; [|discriminate].
  intros [= <-]. rewrite <- Hb, map_map. apply values_complete.
  intros t Ht. destruct (In_lookup _ _ Ht) as [i Hi].
  apply (Hc eq_refl i t Hi). now apply all_done_lookup with (tasks l) i.
Qed.

Lemma gathered_raises limit coros l e :
  invariant limit coros l -> gathered l = Some (inl e) ->
  exists c, In c coros /\ completion c = inl e.
Proof.
  intros [_ _ _ Hr]. unfold gathered.
  destruct (raised l) as [e'|] eqn:Hraised.
  - intros [= <-]. now apply Hr.
  - destruct (forallb is_done (tasks l)); discriminate.
Qed.

Lemma gathered_resolved l :
  forallb is_done (tasks l) = true -> exists r, gathered l = Some r.
Proof.
  intros Hall. unfold gathered. rewrite Hall. destruct (raised l); eauto.
Qed.

Lemma Semaphore_ok (limit : Z) : (0 <= limit)%Z -> Semaphore limit = inr limit.
Proof. intros Hpos. unfold Semaphore. now rewrite (proj2 (Z.ltb_ge limit 0)). Qed.

Lemma Semaphore_inv (limit sem : Z) :
  Semaphore limit = inr sem -> sem = limit /\ (0 <= limit)%Z.
Proof.
  unfold Semaphore. destruct (limit <? 0)%Z eqn:E; [discriminate|].
  intros [= <-]. apply Z.ltb_ge in E. lia.
Qed.

Lemma map_inr_inj (xs ys : list A) :
  map (@inr exn A) xs = map inr ys -> xs = ys.
Proof.
  revert ys. induction xs as [|x xs IH]; intros [|y ys]; simpl; try discriminate.
  - reflexivity.
  - intros [= -> Hrest]. f_equal. now apply IH.
Qed.

Lemma bounded_gather_returns sched coros limit vs :
  bounded_gather sched coros limit = Some (inr vs) ->
  map completion coros = map inr vs.
Proof.
  unfold bounded_gather. destruct (Semaphore limit) as [e|sem] eqn:Hsem; [discriminate|].
  apply Semaphore_inv in Hsem as [-> _].
  apply gathered_returns with limit. apply run_invariant, start_invariant.
Qed.

Lemma bounded_gather_resolves sched coros limit :
  (0 < limit)%Z -> work coros <= length sched ->
  exists r, bounded_gather sched coros limit = Some r.
Proof.
  intros Hpos Hlen. unfold bounded_gather. rewrite Semaphore_ok by lia.
  apply gathered_resolved. now apply run_completes.
Qed.

Lemma bounded_gather_raises sched coros limit e :
  bounded_gather sched coros limit = Some (inl e) ->
  (limit < 0)%Z \/ exists c, In c coros /\ completion c = inl e.
Proof.
  unfold bounded_gather. destruct (Semaphore limit) as [e'|sem] eqn:Hsem.
  - intros _. left. unfold Semaphore in Hsem.
    destruct (limit <? 0)%Z eqn:E; [|discriminate]. now apply Z.ltb_lt.
  - apply Semaphore_inv in Hsem as [-> _]. intros Hg. right.
    apply gathered_raises with limit (run sched (start limit coros)); [|assumption].
    apply run_invariant, start_invariant.
Qed.

(** With no permit to give, nothing ever starts. *)
Lemma bounded_gather_zero sched coros :
  coros <> [] -> bounded_gather sched coros 0 = None.
Proof.
  intros Hne. unfold bounded_gather. simpl.
  assert (Hidle : run sched (start 0 coros) = start 0 coros).
  { unfold run. induction sched as [|k sched IH]; simpl; [reflexivity|].
    assert (Hen : enabled (start 0 coros) = []).
    { destruct (enabled (start 0 coros)) as [|i en] eqn:E; [reflexivity|].
      assert (Hin : In i (enabled (start 0 coros))) by (rewrite E; now left).
      apply enabled_spec in Hin. destruct Hin as (t & Hi & Hmove).
      apply lookup_In in Hi. simpl in Hi. apply in_map_iff in Hi.
      destruct Hi as (c & <- & _). discriminate. }
    unfold step at 2. rewrite Hen. exact IH. }
  rewrite Hidle. unfold gathered. simpl.
  destruct coros as [|c coros]; [congruence | reflexivity].
Qed.

End ExecutorFacts.

Section ExecutorClaims.
Import Executor.
Context {A : Type}.
Implicit Types (l : loop A) (coros : list (coro A)).

Lemma fire_sem_nonneg l i : (0 <= sem_value l)%Z -> (0 <= sem_value (fire i l))%Z.
Proof.
  intros Hpos. unfold fire. destruct (tasks l !! i) as [t|]; [|assumption].
  destruct (state t) as [|[|n]|]; simpl; try assumption; try lia.
  destruct (0 <? sem_value l)%Z eqn:E; simpl; [|assumption].
  apply Z.ltb_lt in E. lia.
Qed.

Lemma run_sem_nonneg sched l : (0 <= sem_value l)%Z -> (0 <= sem_value (run sched l))%Z.
Proof.
  unfold run. revert l. induction sched as [|k sched IH]; intros l Hpos; simpl; [assumption|].
  apply IH. unfold step. destruct (enabled l); [assumption|]. now apply fire_sem_nonneg.
Qed.

(** Completing a task gives its permit back, however the coroutine ended. *)
Lemma fire_releases l i t :
  tasks l !! i = Some t -> state t = Running 0 ->
  sem_value (fire i l) = (sem_value l + 1)%Z /\
  in_flight (fire i l) + 1 = in_flight l /\
  exists t', tasks (fire i l) !! i = Some t' /\ state t' = Done.
Proof.
  intros Hi Hst. unfold fire. rewrite Hi, Hst. simpl. split; [reflexivity|]. split.
  - rewrite !in_flight_sum. simpl.
    pose proof (flying_set_state (tasks l) i t Done Hi) as Hsum.
    rewrite Hst in Hsum. simpl in Hsum. lia.
  - exists {| body := body t; state := Done |}. split; [|reflexivity]. unfold set_state.
    apply list_lookup_insert_eq. eapply lookup_lt_Some; eauto.
Qed.

Lemma all_done_in_flight l : forallb is_done (tasks l) = true -> in_flight l = 0.
Proof.
  intros Hall. rewrite in_flight_sum. apply flying_zero. intros t Ht.
  rewrite forallb_forall in Hall. specialize (Hall t Ht). unfold is_done in Hall.
  destruct (state t); simpl; congruence.
Qed.

(** C2. [bounded_gather] preserves the order of submission: whatever the
    limit and whatever the schedule (the order in which the tasks start,
    suspend and complete), a list it returns has one entry per submitted
    coroutine and its [i]-th entry is the value the [i]-th coroutine
    completed with. And it does return: with a permit to give and every
    coroutine completing with a value, every schedule long enough to finish
    the batch ends with that list. *)
Theorem bounded_gather_preserves_order coros (limit : Z) (sched : list nat) :
  (forall vs, bounded_gather sched coros limit = Some (inr vs) ->
     length vs = length coros /\
     forall i c, coros !! i = Some c ->
                 exists v, vs !! i = Some v /\ completion c = inr v) /\
  ((0 < limit)%Z -> work coros <= length sched ->
   forall vs, map completion coros = map inr vs ->
              bounded_gather sched coros limit = Some (inr vs)).
Proof.
  split.
  - intros vs Hg. apply bounded_gather_returns in Hg.
    assert (Hlen : length vs = length coros).
    { apply (f_equal (@length _)) in Hg. rewrite !length_map in Hg. congruence. }
    split; [exact Hlen|].
    intros i c Hi.
    assert (Hlt : i < length vs) by (rewrite Hlen; eapply lookup_lt_Some; eauto).
    destruct (lookup_lt_is_Some_2 vs i Hlt) as [v Hv]. exists v. split; [exact Hv|].
    assert (Hc : map completion coros !! i = Some (completion c))
      by (change (map completion coros) with (completion <$> coros);
          now rewrite list_lookup_fmap, Hi).
    rewrite Hg in Hc. change (map inr vs) with (@inr exn A <$> vs) in Hc.
    rewrite list_lookup_fmap, Hv in Hc. simpl in Hc. congruence.
  - intros Hpos Hlen vs Hall.
    destruct (bounded_gather_resolves sched coros limit Hpos Hlen) as [[e|vs'] Hr].
    + apply bounded_gather_raises in Hr as [Hneg | (c & Hin & Hc)]; [lia|].
      assert (Hin' : In (completion c) (map inr vs))
        by (rewrite <- Hall; now apply in_map).
      apply in_map_iff in Hin' as (v & Hv & _). congruence.
    + rewrite Hr. pose proof (bounded_gather_returns _ _ _ _ Hr) as Hvs.
      rewrite Hall in Hvs. apply map_inr_inj in Hvs. now subst.
Qed.

(** C3. The concurrency ceiling. Along every schedule of a batch run with
    limit [L], the tasks in flight (past the semaphore, not yet completed)
    number at most [L], because the semaphore's counter and the tasks in
    flight always add up to [L] and the counter never goes below zero. A
    task that completes gives its permit back whether its coroutine
    returned or raised, so once every task is done all [L] permits are
    free. The limit is [MAX_CONCURRENCY], read from the environment
    variable of that name and 4 when the variable is not set. *)
Theorem bounded_gather_concurrency_ceiling coros (limit sem : Z) (sched : list nat) :
  Semaphore limit = inr sem ->
  let l := run sched (start sem coros) in
  (Z.of_nat (in_flight l) <= limit)%Z /\
  (sem_value l + Z.of_nat (in_flight l) = limit)%Z /\
  (0 <= sem_value l)%Z /\
  (forall i t, tasks l !! i = Some t -> state t = Running 0 ->
     sem_value (fire i l) = (sem_value l + 1)%Z /\
     in_flight (fire i l) + 1 = in_flight l /\
     exists t', tasks (fire i l) !! i = Some t' /\ state t' = Done) /\
  (forallb is_done (tasks l) = true -> sem_value l = limit) /\
  Config.MAX_CONCURRENCY ∅ = inr 4%Z /\
  (forall (environ : gmap string string) (value : string),
     environ !! "MAX_CONCURRENCY" = Some value ->
     Config.MAX_CONCURRENCY environ = Config.int value).
Proof.
  intros Hsem l. apply Semaphore_inv in Hsem as [-> Hpos].
  assert (Hinv : invariant limit coros l) by apply run_invariant, start_invariant.
  assert (Hnn : (0 <= sem_value l)%Z) by now apply run_sem_nonneg.
  pose proof (inv_permits _ _ _ Hinv) as Hsum.
  split; [lia|]. split; [exact Hsum|]. split; [exact Hnn|].
  split; [intros i t; apply fire_releases|].
  split; [intros Hall; rewrite (all_done_in_flight l Hall) in Hsum; lia|].
  split; [reflexivity|].
  intros environ value Hvalue. unfold Config.MAX_CONCURRENCY, Config.getenv.
  now rewrite Hvalue.
Qed.

End ExecutorClaims.

(** *** At the limits *)

Section ExecutorEdges.
Import Executor.
Context {A : Type}.
Implicit Types (l : loop A) (coros : list (coro A)).

Lemma run_nothing (sem : Z) (sched : list nat) :
  run sched (start sem (@nil (coro A))) = start sem [].
Proof.
  unfold run. induction sched as [|c sched IH]; simpl; [reflexivity | exact IH].
Qed.

(** [bounded_gather] at the ends of its range. A negative limit is
    refused by [asyncio.Semaphore] before any coroutine is looked at,
    whatever the batch. With the limit 0 no task ever gets a permit: a
    batch that is not empty never resolves, whatever the schedule. And
    the empty batch resolves at once to the empty list, for every limit
    that is not negative, 0 included. *)
Theorem bounded_gather_at_the_limits :
  (forall (sched : list nat) coros (limit : Z),
     (limit < 0)%Z ->
     bounded_gather sched coros limit
     = Some (inl (ValueError "Semaphore initial value must be >= 0"))) /\
  (forall (sched : list nat) coros,
     coros <> [] -> bounded_gather sched coros 0 = None) /\
  (forall (sched : list nat) (limit : Z),
     (0 <= limit)%Z -> bounded_gather sched (@nil (coro A)) limit = Some (inr [])).
Proof.
  split; [|split].
  - intros sched coros limit Hneg. unfold bounded_gather, Semaphore.
    apply Z.ltb_lt in Hneg. now rewrite Hneg.
  - intros sched coros. apply bounded_gather_zero.
  - intros sched limit Hpos. unfold bounded_gather. rewrite Semaphore_ok by exact Hpos.
    now rewrite run_nothing.
Qed.

(** The exception [bounded_gather] propagates is a task's own. Once the
    semaphore exists, whatever the call raises was raised by one of the
    coroutines of the batch; and when the coroutines that fail all fail
    with the same exception (when only one fails, say), a positive limit
    and a schedule long enough to finish the batch end with that
    exception. *)
Theorem bounded_gather_raises_a_task_exception :
  (forall (sched : list nat) coros (limit : Z) (e : exn),
     (0 <= limit)%Z ->
     bounded_gather sched coros limit = Some (inl e) ->
     exists c, In c coros /\ completion c = inl e) /\
  (forall (sched : list nat) coros (limit : Z) (e : exn),
     (0 < limit)%Z -> work coros <= length sched ->
     (exists c, In c coros /\ completion c = inl e) ->
     (forall c e', In c coros -> completion c = inl e' -> e' = e) ->
     bounded_gather sched coros limit = Some (inl e)).
Proof.
  split.
  - intros sched coros limit e Hpos Hg.
    apply bounded_gather_raises in Hg as [Hneg | Hc]; [lia | exact Hc].
  - intros sched coros limit e Hpos Hlen (c & Hin & Hc) Hsame.
    destruct (bounded_gather_resolves sched coros limit Hpos Hlen) as [[e'|vs] Hr].
    + rewrite Hr. apply bounded_gather_raises in Hr as [Hneg | (c' & Hin' & Hc')]; [lia|].
      now rewrite (Hsame c' e' Hin' Hc').
    + apply bounded_gather_returns in Hr.
      assert (Hin' : In (completion c) (map inr vs)) by (rewrite <- Hr; now apply in_map).
      apply in_map_iff in Hin' as (v & Hv & _). congruence.
Qed.

End ExecutorEdges.

(** ** Programs over the world *)

Section ProgFacts.
Import Extractor.
Local Open Scope list_scope.

(** *** Sequencing *)

Lemma bind_returned {A B} (m : prog A) (k : A -> prog B) w w' b :
  (m ≫= k) w = (w', Returned b) ->
  exists a w1, m w = (w1, Returned a) /\ k a w1 = (w', Returned b).
Proof.
  unfold mbind, prog_bind. destruct (m w) as [w1 [a|e|]]; try discriminate. eauto.
Qed.

Lemma lift_returned {A} (r : result A) w w' a :
  lift r w = (w', Returned a) -> r = inr a /\ w' = w.
Proof. unfold lift. destruct r; intros [= <- <-] || intros [=]; auto. Qed.

Lemma result_bind_inr {A B} (m : result A) (k : A -> result B) b :
  m ≫= k = inr b -> exists a, m = inr a /\ k a = inr b.
Proof. unfold mbind, result_bind. destruct m; [discriminate | eauto]. Qed.

Lemma mapM_returned {A B} (f : A -> prog B) xs w w' ys :
  mapM f xs w = (w', Returned ys) ->
  match xs with
  | [] => ys = [] /\ w' = w
  | x :: xs' =>
      exists y ys' w1, f x w = (w1, Returned y) /\ mapM f xs' w1 = (w', Returned ys')
                       /\ ys = y :: ys'
  end.
Proof.
  destruct xs as [|x xs']; simpl.
  - unfold mret, prog_ret. intros [= <- <-]. auto.
  - intros Hrun. apply bind_returned in Hrun as (y & w1 & Hy & Hrun).
    apply bind_returned in Hrun as (ys' & w2 & Hys & Hrun).
    unfold mret, prog_ret in Hrun. injection Hrun as <- <-. eauto 8.
Qed.

Lemma mapM_result_inr {A B} (f : A -> result B) xs ys :
  mapM f xs = inr ys -> Forall2 (fun x y => f x = inr y) xs ys.
Proof.
  revert ys. induction xs as [|x xs IH]; intros ys; simpl.
  - intros [= <-]. constructor.
  - intros Hrun. apply result_bind_inr in Hrun as (y & Hy & Hrun).
    apply result_bind_inr in Hrun as (ys' & Hys & Hrun).
    injection Hrun as <-. constructor; auto.
Qed.

(** *** What a step leaves behind *)

(** The journal entries of batches that ran to their end. *)
Definition settled (bs : list (list request)) : list event :=
  concat (map (fun b => [Submitted b; Resolved]) bs).

(** A run is orderly when it adds to the journal a sequence of settled
    batches, followed by one batch still pending exactly when the run is
    unresolved: no batch is submitted before the one before it resolved. *)
Definition trail {A} (evs : list event) (o : outcome A) : Prop :=
  match o with
  | Unresolved => exists bs b, evs = settled bs ++ [Submitted b]
  | _ => exists bs, evs = settled bs
  end.

Definition orderly {A} (m : prog A) : Prop :=
  forall w w' o, m w = (w', o) -> exists evs, journal w' = journal w ++ evs /\ trail evs o.

(** A step is quiet when it writes no file. *)
Definition quiet {A} (m : prog A) : Prop :=
  forall w w' o, m w = (w', o) -> files w' = files w.

Lemma settled_app bs1 bs2 : settled (bs1 ++ bs2) = settled bs1 ++ settled bs2.
Proof. unfold settled. now rewrite map_app, concat_app. Qed.

Lemma orderly_lift {A} (r : result A) : orderly (lift r).
Proof.
  intros w w' o. unfold lift. destruct r; intros [= <- <-];
    exists []; rewrite app_nil_r; (split; [reflexivity | now exists []]).
Qed.

Lemma quiet_lift {A} (r : result A) : quiet (lift r).
Proof. intros w w' o. unfold lift. destruct r; now intros [= <- <-]. Qed.

Lemma orderly_ret {A} (a : A) : orderly (mret a).
Proof.
  intros w w' o [= <- <-]. exists []. rewrite app_nil_r. split; [reflexivity | now exists []].
Qed.

Lemma quiet_ret {A} (a : A) : quiet (mret a).
Proof. now intros w w' o [= <- <-]. Qed.

Lemma orderly_bind {A B} (m : prog A) (k : A -> prog B) :
  orderly m -> (forall a, orderly (k a)) -> orderly (m ≫= k).
Proof.
  intros Hm Hk w w' o. unfold mbind, prog_bind.
  destruct (m w) as [w1 [a| e |]] eqn:Hrun.
  - intros Hrun'. destruct (Hm _ _ _ Hrun) as (evs1 & Hj1 & [bs1 ->]).
    destruct (Hk a _ _ _ Hrun') as (evs2 & Hj2 & Htrail).
    exists (settled bs1 ++ evs2). rewrite Hj2, Hj1, <- app_assoc. split; [reflexivity|].
    destruct o; simpl in *.
    + destruct Htrail as [bs2 ->]. exists (bs1 ++ bs2). now rewrite settled_app.
    + destruct Htrail as [bs2 ->]. exists (bs1 ++ bs2). now rewrite settled_app.
    + destruct Htrail as (bs2 & b & ->). exists (bs1 ++ bs2), b.
      now rewrite settled_app, <- app_assoc.
  - intros [= <- <-]. destruct (Hm _ _ _ Hrun) as (evs & Hj & Ht).
    exists evs. split; [assumption | exact Ht].
  - intros [= <- <-]. destruct (Hm _ _ _ Hrun) as (evs & Hj & Ht).
    exists evs. split; [assumption | exact Ht].
Qed.

Lemma quiet_bind {A B} (m : prog A) (k : A -> prog B) :
  quiet m -> (forall a, quiet (k a)) -> quiet (m ≫= k).
Proof.
  intros Hm Hk w w' o. unfold mbind, prog_bind.
  destruct (m w) as [w1 [a| e |]] eqn:Hrun.
  - intros Hrun'. rewrite (Hk a _ _ _ Hrun'). eauto.
  - intros [= <- <-]. eauto.
  - intros [= <- <-]. eauto.
Qed.

Lemma orderly_mapM {A B} (f : A -> prog B) xs :
  (forall x, orderly (f x)) -> orderly (mapM f xs).
Proof.
  intros Hf. induction xs as [|x xs IH]; simpl.
  - apply orderly_ret.
  - apply orderly_bind; [apply Hf|]. intros y.
    apply orderly_bind; [apply IH|]. intros ys. apply orderly_ret.
Qed.

Lemma quiet_mapM {A B} (f : A -> prog B) xs :
  (forall x, quiet (f x)) -> quiet (mapM f xs).
Proof.
  intros Hf. induction xs as [|x xs IH]; simpl.
  - apply quiet_ret.
  - apply quiet_bind; [apply Hf|]. intros y.
    apply quiet_bind; [apply IH|]. intros ys. apply quiet_ret.
Qed.

Lemma orderly_write path data : orderly (write_text path data).
Proof.
  intros w w' o [= <- <-]. exists []. simpl. rewrite app_nil_r.
  split; [reflexivity | now exists []].
Qed.

Lemma bind_lift_inr {A B} (a : A) (k : A -> prog B) w : (lift (inr a) ≫= k) w = k a w.
Proof. reflexivity. Qed.

Lemma result_bind_ret {A B} (a : A) (k : A -> result B) : (inr a ≫= k) = k a.
Proof. reflexivity. Qed.

Lemma bind_returned_eq {X Y} (m : prog X) (k : X -> prog Y) w w1 a :
  m w = (w1, Returned a) -> (m ≫= k) w = k a w1.
Proof. unfold mbind, prog_bind. now intros ->. Qed.

Lemma bind_raised_eq {X Y} (m : prog X) (k : X -> prog Y) w w1 e :
  m w = (w1, Raised e) -> (m ≫= k) w = (w1, Raised e).
Proof. unfold mbind, prog_bind. now intros ->. Qed.

Lemma mapM_ext {A B} (f g : A -> prog B) :
  (forall x w, f x w = g x w) -> forall xs w, mapM f xs w = mapM g xs w.
Proof.
  intros Hfg. induction xs as [|x xs IH]; intros w; simpl; [reflexivity|].
  unfold mbind, prog_bind. rewrite Hfg. destruct (g x w) as [w1 [y| e |]]; try reflexivity.
  now rewrite IH.
Qed.

End ProgFacts.

(** Taking a returning run apart, one step at a time. *)
Ltac run_inv H :=
  repeat (let a := fresh "a" in
          let w := fresh "w" in
          let Hstep := fresh "Hstep" in
          apply bind_returned in H as (a & w & Hstep & H);
          cbv beta in H;
          try (apply lift_returned in Hstep as [Hstep ->]));
  try (unfold mret, Extractor.prog_ret in H; injection H as <- <-).

(** ** The stage runners *)

Section RunnerFacts.
Import Extractor.
Context `{Scalars}.
Variable MAX_CONCURRENCY : Z.
Variable images : result (list string).
Variable call_openrouter : nat -> request -> Executor.coro response.
Variable event_loop : nat -> list nat.

Local Open Scope list_scope.

Abbreviation await_bounded_gather :=
  (await_bounded_gather MAX_CONCURRENCY call_openrouter event_loop).
Abbreviation extract_batch := (extract_batch MAX_CONCURRENCY call_openrouter event_loop).
Abbreviation coroutines := (coroutines call_openrouter).

Lemma orderly_gather batch : orderly (await_bounded_gather batch).
Proof.
  intros w w' o. unfold Extractor.await_bounded_gather.
  destruct (Executor.bounded_gather _ _ _) as [[e|rs]|]; intros [= <- <-]; simpl.
  - exists [Submitted batch; Resolved]. rewrite <- app_assoc. split; [reflexivity|].
    exists [batch]. reflexivity.
  - exists [Submitted batch; Resolved]. rewrite <- app_assoc. split; [reflexivity|].
    exists [batch]. reflexivity.
  - exists [Submitted batch]. split; [reflexivity|]. exists [], batch. reflexivity.
Qed.

Lemma quiet_gather batch : quiet (await_bounded_gather batch).
Proof.
  intros w w' o. unfold Extractor.await_bounded_gather.
  destruct (Executor.bounded_gather _ _ _) as [[e|rs]|]; now intros [= <- <-].
Qed.

Lemma orderly_extract cls batch : orderly (extract_batch cls batch).
Proof.
  apply orderly_bind; [apply orderly_gather | intros; apply orderly_lift].
Qed.

Lemma quiet_extract cls batch : quiet (extract_batch cls batch).
Proof.
  apply quiet_bind; [apply quiet_gather | intros; apply quiet_lift].
Qed.


(** *** A batch that returns *)

(** Every request of the batch was answered and every answer decoded:
    [results] holds one validated unit per request, in request order. The
    coroutines of the batch are numbered from [n]. *)
Definition batch_ok (cls : schema) (n : nat) (batch : list request) (results : list json)
    : Prop :=
  Forall2 (fun c result =>
             exists resp, Executor.completion c = inr resp /\ decode cls resp = inr result)
          (coroutines n batch) results.

(** The same for consecutive batches. *)
Fixpoint units_ok (cls : schema) (n : nat) (bs : list (list request)) : Prop :=
  match bs with
  | [] => True
  | b :: bs' => (exists results, batch_ok cls n b results) /\ units_ok cls (n + length b) bs'
  end.

Lemma map_eq_Forall2 {X Y Z} (f : X -> Z) (g : Y -> Z) xs ys :
  map f xs = map g ys -> Forall2 (fun x y => f x = g y) xs ys.
Proof.
  revert ys. induction xs as [|x xs IH]; intros [|y ys]; simpl; try discriminate.
  - constructor.
  - intros [= Hxy Hrest]. constructor; auto.
Qed.

Lemma Forall2_compose {X Y Z} (P : X -> Y -> Prop) (Q : Y -> Z -> Prop) xs ys zs :
  Forall2 P xs ys -> Forall2 Q ys zs ->
  Forall2 (fun x z => exists y, P x y /\ Q y z) xs zs.
Proof.
  intros HP. revert zs. induction HP; intros zs HQ; inversion HQ; subst; constructor; eauto.
Qed.

Lemma Forall2_In_l {X Y} (P : X -> Y -> Prop) xs ys x :
  Forall2 P xs ys -> In x xs -> exists y, P x y.
Proof.
  induction 1 as [|x0 y0 xs ys HP _ IH]; intros Hin; [destruct Hin|].
  destruct Hin as [<-|Hin]; eauto.
Qed.

Lemma gather_returned batch w w' responses :
  await_bounded_gather batch w = (w', Returned responses) ->
  files w' = files w /\
  journal w' = journal w ++ [Submitted batch; Resolved] /\
  map Executor.completion (coroutines (issued (journal w)) batch) = map inr responses.
Proof.
  unfold Extractor.await_bounded_gather.
  destruct (Executor.bounded_gather _ _ _) as [[e|rs]|] eqn:Hg; intros [= <- <-].
  simpl. rewrite <- app_assoc. repeat split.
  now apply bounded_gather_returns in Hg.
Qed.

Lemma extract_batch_returned cls batch w w' results :
  extract_batch cls batch w = (w', Returned results) ->
  files w' = files w /\
  journal w' = journal w ++ [Submitted batch; Resolved] /\
  batch_ok cls (issued (journal w)) batch results.
Proof.
  intros Hrun. apply bind_returned in Hrun as (responses & w1 & Hg & Hdec).
  apply gather_returned in Hg as (Hf & Hj & Hc).
  apply lift_returned in Hdec as [Hdec ->].
  repeat split; try assumption.
  apply mapM_result_inr in Hdec. apply map_eq_Forall2 in Hc.
  unfold batch_ok. eapply Forall2_impl; [eapply Forall2_compose; eassumption|].
  simpl. intros c result (resp & Hresp & Hok). eauto.
Qed.

Lemma batch_ok_length cls n batch results :
  batch_ok cls n batch results -> length results = length batch.
Proof.
  intros Hok. apply Forall2_length in Hok. unfold Extractor.coroutines in Hok.
  rewrite length_imap in Hok. congruence.
Qed.

(** A batch with a unit that fails (the call raises, or its response does
    not decode or does not validate) does not return. *)
Lemma extract_batch_all_or_nothing cls batch w c e :
  In c (coroutines (issued (journal w)) batch) ->
  (Executor.completion c = inl e \/
   exists resp, Executor.completion c = inr resp /\ decode cls resp = inl e) ->
  forall w' results, extract_batch cls batch w <> (w', Returned results).
Proof.
  intros Hin Hfail w' results Hrun.
  apply extract_batch_returned in Hrun as (_ & _ & Hok).
  destruct (Forall2_In_l _ _ _ c Hok Hin) as (result & resp & Hresp & Hdec).
  destruct Hfail as [Hfail | (resp' & Hresp' & Hdec')]; congruence.
Qed.

(** *** The journal of a page loop *)

Lemma batches_app j1 j2 : batches (j1 ++ j2) = batches j1 ++ batches j2.
Proof. unfold batches. apply omap_app. Qed.

Lemma issued_app j1 j2 : issued (j1 ++ j2) = issued j1 + issued j2.
Proof. unfold issued. now rewrite batches_app, concat_app, length_app. Qed.

Lemma issued_settled_one j b :
  issued (j ++ [Submitted b; Resolved]) = issued j + length b.
Proof. rewrite issued_app. unfold issued. simpl. now rewrite app_nil_r. Qed.

Lemma mapM_batches {X} cls (R : X -> list request -> Prop) (f : X -> prog json) xs :
  (forall x w w' out, f x w = (w', Returned out) ->
     exists b results, R x b /\ journal w' = journal w ++ [Submitted b; Resolved]
                       /\ batch_ok cls (issued (journal w)) b results) ->
  forall w w' outs, mapM f xs w = (w', Returned outs) ->
  exists bs, Forall2 R xs bs /\ journal w' = journal w ++ settled bs
             /\ units_ok cls (issued (journal w)) bs.
Proof.
  intros Hf. induction xs as [|x xs IH]; intros w w' outs Hrun;
    apply mapM_returned in Hrun.
  - destruct Hrun as [_ ->]. exists []. simpl. rewrite app_nil_r. repeat split. constructor.
  - destruct Hrun as (y & ys & w1 & Hy & Hys & _).
    destruct (Hf _ _ _ _ Hy) as (b & results & HR & Hj & Hok).
    destruct (IH _ _ _ Hys) as (bs & HRs & Hjs & Hoks).
    exists (b :: bs). repeat split.
    + now constructor.
    + rewrite Hjs, Hj, <- app_assoc. reflexivity.
    + eauto.
    + rewrite Hj, issued_settled_one in Hoks. exact Hoks.
Qed.


(** *** Stage 2: one call per top-level category, page after page *)

(** The image of a page: [images[page_number - 1]]. *)
Definition page_image (imgs : list string) (page_number : json) : result string :=
  i ← minus_one page_number; Py.list_index imgs i.

(** The top-level categories of a Stage-1 page: the [categories] of its
    validated [data]. *)
Definition top_level_categories (page : json) : result (list json) :=
  data ← Py.getitem page "data";
  page_categories ← model_validate utils_model.Categories data;
  cats ← Py.getitem page_categories "categories";
  Py.iter cats.

(** The batch Stage 2 owes a page: one request per top-level category, in
    order, each carrying that category alone. *)
Definition phase2_batch (restaurant_name : string) (imgs : list string)
    (page : json) (batch : list request) : Prop :=
  exists page_number img_b64 categories,
    Py.getitem page "page_number" = inr page_number /\
    page_image imgs page_number = inr img_b64 /\
    top_level_categories page = inr categories /\
    batch = map (fun cat =>
                   message (phase2_prompt (JStr restaurant_name) page_number cat) img_b64
                           (json_schema_format utils_model.CategorywithItems))
                categories.

Lemma phase2_page_returned restaurant_name imgs page w w' out :
  phase2_page MAX_CONCURRENCY call_openrouter event_loop restaurant_name imgs page w
  = (w', Returned out) ->
  exists b results,
    phase2_batch restaurant_name imgs page b /\
    journal w' = journal w ++ [Submitted b; Resolved] /\
    batch_ok utils_model.CategorywithItems (issued (journal w)) b results.
Proof.
  intros Hrun. unfold phase2_page in Hrun. run_inv Hrun.
  apply extract_batch_returned in Hstep3 as (_ & Hj & Hok).
  eexists _, a3. split; [|split; [exact Hj | exact Hok]].
  exists a, a0, a2. repeat split; try assumption.
  unfold top_level_categories.
  apply result_bind_inr in Hstep1 as (data & -> & Hval). simpl.
  unfold mbind at 1, result_bind. rewrite Hval. exact Hstep2.
Qed.

Lemma orderly_phase2_page restaurant_name imgs page :
  orderly (phase2_page MAX_CONCURRENCY call_openrouter event_loop restaurant_name imgs page).
Proof.
  unfold phase2_page.
  repeat (apply orderly_bind; [first [apply orderly_lift | apply orderly_extract]|]; intros).
  apply orderly_ret.
Qed.

Lemma orderly_run_phase2 restaurant_name payload :
  orderly (run_phase2 MAX_CONCURRENCY images call_openrouter event_loop restaurant_name payload).
Proof.
  unfold run_phase2.
  repeat (apply orderly_bind;
          [first [apply orderly_lift | apply orderly_write
                 | apply orderly_mapM; intros; apply orderly_phase2_page]|]; intros).
  apply orderly_ret.
Qed.

(** *** The batches of a run, whatever its outcome *)

Lemma extract_batch_batches cls batch w w' (o : outcome (list json)) :
  extract_batch cls batch w = (w', o) ->
  batches (journal w') = batches (journal w) ++ [batch].
Proof.
  unfold Extractor.extract_batch, mbind, prog_bind, Extractor.await_bounded_gather.
  destruct (Executor.bounded_gather _ _ _) as [[e|responses]|].
  - intros [= <- <-]. simpl. now rewrite !batches_app, app_nil_r.
  - unfold lift. destruct (mapM _ responses); intros [= <- <-]; simpl;
      now rewrite !batches_app, app_nil_r.
  - intros [= <- <-]. simpl. now rewrite batches_app.
Qed.

(** The body of a page loop: a batch is planned from the page alone, then
    extracted, and its results are wrapped with the page number. *)
Definition planned {X} (plan : X -> result (json * list request)) (cls : schema) (x : X)
    : prog json :=
  p ← lift (plan x);
  results ← extract_batch cls (snd p);
  mret (page_out (fst p) results).

Lemma planned_step {X} (plan : X -> result (json * list request)) cls x w w' o :
  planned plan cls x w = (w', o) ->
  (batches (journal w') = batches (journal w) /\ forall out, o <> Returned out) \/
  (exists page_number b, plan x = inr (page_number, b) /\
                         batches (journal w') = batches (journal w) ++ [b]).
Proof.
  unfold planned, mbind at 1, prog_bind, lift.
  destruct (plan x) as [e|[page_number b]].
  - intros [= <- <-]. left. split; [reflexivity | discriminate].
  - intros Hrun. right. exists page_number, b. split; [reflexivity|].
    unfold mbind, prog_bind in Hrun. simpl in Hrun.
    destruct (extract_batch cls b w) as [w1 o1] eqn:Hb.
    apply extract_batch_batches in Hb.
    destruct o1; injection Hrun as <- <-; exact Hb.
Qed.

(** The batches a page loop submits are those planned for its first
    pages, in order; for all of its pages when it returns. *)
Lemma planned_loop {X} (plan : X -> result (json * list request)) cls (xs : list X) w w' o :
  mapM (planned plan cls) xs w = (w', o) ->
  exists bs,
    batches (journal w') = batches (journal w) ++ bs /\
    Forall2 (fun x b => exists page_number, plan x = inr (page_number, b))
            (take (length bs) xs) bs /\
    length bs <= length xs /\
    (forall outs, o = Returned outs -> length bs = length xs).
Proof.
  revert w w' o. induction xs as [|x xs IH]; intros w w' o; simpl.
  - intros [= <- <-]. exists []. rewrite app_nil_r. repeat split; auto; constructor.
  - unfold mbind at 1, prog_bind.
    destruct (planned plan cls x w) as [w1 o1] eqn:Hx.
    apply planned_step in Hx.
    destruct o1 as [y| e |].
    + destruct Hx as [[_ Hno]|(pn & b & Hplan & Hj)]; [now destruct (Hno y)|].
      unfold mbind, prog_bind.
      destruct (mapM (planned plan cls) xs w1) as [w2 o2] eqn:Hrest.
      destruct (IH _ _ _ Hrest) as (bs & Hjs & Hall & Hlen & Hfull).
      intros Hrun. exists (b :: bs).
      assert (Hw : w' = w2) by (destruct o2; now injection Hrun as <- _).
      subst w'. split; [rewrite Hjs, Hj, <- app_assoc; reflexivity|].
      split; [simpl; constructor; eauto|]. split; [simpl; lia|].
      intros outs ->. destruct o2 as [ys| |]; try discriminate Hrun.
      simpl. f_equal. now apply (Hfull ys).
    + intros [= <- <-]. destruct Hx as [[Hj _]|(pn & b & Hplan & Hj)].
      * exists []. rewrite app_nil_r. repeat split; auto; try discriminate; simpl; lia.
      * exists [b]. repeat split; auto; try discriminate; simpl; [|lia].
        constructor; [eauto | constructor].
    + intros [= <- <-]. destruct Hx as [[Hj _]|(pn & b & Hplan & Hj)].
      * exists []. rewrite app_nil_r. repeat split; auto; try discriminate; simpl; lia.
      * exists [b]. repeat split; auto; try discriminate; simpl; [|lia].
        constructor; [eauto | constructor].
Qed.

(** What Stage 2 plans for a page, before any call is made. *)
Definition phase2_plan (restaurant_name : string) (imgs : list string) (page : json)
    : result (json * list request) :=
  page_number ← Py.getitem page "page_number";
  img_b64 ← page_image imgs page_number;
  categories ← top_level_categories page;
  ret (page_number, phase2_requests restaurant_name page_number img_b64 categories).

Lemma phase2_page_planned restaurant_name imgs page w :
  phase2_page MAX_CONCURRENCY call_openrouter event_loop restaurant_name imgs page w
  = planned (phase2_plan restaurant_name imgs) utils_model.CategorywithItems page w.
Proof.
  unfold phase2_page, planned, phase2_plan, top_level_categories, page_image.
  destruct (Py.getitem page "page_number") as [e|page_number]; [reflexivity|].
  rewrite bind_lift_inr, result_bind_ret.
  destruct (minus_one page_number ≫= (fun i => Py.list_index imgs i)) as [e|img_b64];
    [reflexivity|].
  rewrite bind_lift_inr, result_bind_ret.
  destruct (Py.getitem page "data") as [e|data]; [reflexivity|].
  rewrite !result_bind_ret.
  destruct (model_validate utils_model.Categories data) as [e|page_categories]; [reflexivity|].
  rewrite bind_lift_inr, !result_bind_ret.
  destruct (Py.getitem page_categories "categories" ≫= (fun cats => Py.iter cats))
    as [e|categories] eqn:Hcats.
  - assert (Hnone : (Py.getitem page_categories "categories" ≫= Py.iter : result (list json))
                    = inl e) by exact Hcats.
    reflexivity.
  - reflexivity.
Qed.

Lemma phase2_plan_batch restaurant_name imgs page page_number b :
  phase2_plan restaurant_name imgs page = inr (page_number, b) ->
  phase2_batch restaurant_name imgs page b.
Proof.
  unfold phase2_plan. intros Hplan.
  apply result_bind_inr in Hplan as (pn & Hpn & Hplan).
  apply result_bind_inr in Hplan as (img & Himg & Hplan).
  apply result_bind_inr in Hplan as (cats & Hcats & Hplan).
  injection Hplan as <- <-. exists pn, img, cats. auto.
Qed.

Lemma run_phase2_batches restaurant_name payload imgs pages w w' o :
  images = inr imgs ->
  (pages ← Py.getitem payload "pages"; Py.iter pages) = inr pages ->
  run_phase2 MAX_CONCURRENCY images call_openrouter event_loop restaurant_name payload w
  = (w', o) ->
  exists bs,
    batches (journal w') = batches (journal w) ++ bs /\
    length bs <= length pages /\
    Forall2 (phase2_batch restaurant_name imgs) (take (length bs) pages) bs /\
    (forall output, o = Returned output -> length bs = length pages).
Proof.
  intros Himgs Hpages. unfold run_phase2. rewrite Himgs, Hpages.
  rewrite !bind_lift_inr. unfold mbind at 1, prog_bind.
  rewrite (mapM_ext _ _ (phase2_page_planned restaurant_name imgs)).
  destruct (mapM (M:=prog) (planned _ _) pages w) as [w1 o1] eqn:Hloop.
  apply planned_loop in Hloop as (bs & Hj & Hall & Hlen & Hfull).
  intros Hrun. exists bs.
  assert (Hw : batches (journal w') = batches (journal w1)).
  { destruct o1; injection Hrun as <- _; reflexivity. }
  rewrite Hw. split; [exact Hj|]. split; [exact Hlen|]. split.
  - eapply Forall2_impl; [exact Hall|]. intros page b [pn Hplan].
    now apply phase2_plan_batch with pn.
  - intros output ->. destruct o1 as [outs| |]; try discriminate Hrun. now apply (Hfull outs).
Qed.

(** C6. Stage 2 ([run_phase2]) works page after page: whatever the run's
    outcome, the journal it leaves is a sequence of batches each of which
    resolved before the next was submitted (followed by one pending batch
    exactly when the run is still unresolved). When the run returns, there
    is exactly one batch per page of the Stage-1 payload, in page order, and
    the batch of a page holds exactly one request per top-level category of
    that page, in order, whose prompt carries that category alone (its
    subcategories travel inside it and get no call of their own); the
    requests of a page are handed to [bounded_gather] together. When the
    run does not return, the batches it submitted are those of the first
    pages, in page order, each again with one request per top-level
    category. *)
Theorem run_phase2_call_pattern (restaurant_name : string) (categories_payload : json)
    (w w' : world) (o : outcome json) :
  run_phase2 MAX_CONCURRENCY images call_openrouter event_loop
             restaurant_name categories_payload w = (w', o) ->
  (exists evs, journal w' = journal w ++ evs /\ trail evs o) /\
  (forall output, o = Returned output ->
     exists imgs pages bs,
       images = inr imgs /\
       (pages ← Py.getitem categories_payload "pages"; Py.iter pages) = inr pages /\
       journal w' = journal w ++ settled bs /\
       Forall2 (phase2_batch restaurant_name imgs) pages bs /\
       Forall2 (fun page b =>
                  exists categories, top_level_categories page = inr categories /\
                                     length b = length categories)
               pages bs) /\
  (forall imgs pages,
     images = inr imgs ->
     (pages ← Py.getitem categories_payload "pages"; Py.iter pages) = inr pages ->
     exists bs,
       batches (journal w') = batches (journal w) ++ bs /\
       length bs <= length pages /\
       Forall2 (phase2_batch restaurant_name imgs) (take (length bs) pages) bs /\
       (forall output, o = Returned output -> length bs = length pages)).
Proof.
  intros Hrun. split; [now apply (orderly_run_phase2 restaurant_name categories_payload)|].
  split; [|intros imgs pages Himgs Hpages;
           now apply run_phase2_batches with categories_payload].
  intros output ->. unfold run_phase2 in Hrun. run_inv Hrun.
  unfold write_text in Hstep2. injection Hstep2 as <-. simpl.
  destruct (mapM_batches utils_model.CategorywithItems (phase2_batch restaurant_name a)
              (phase2_page MAX_CONCURRENCY call_openrouter event_loop restaurant_name a) a0
              (phase2_page_returned restaurant_name a) _ _ _ Hstep1)
    as (bs & Hbs & Hj & _).
  exists a, a0, bs. repeat split; try assumption.
  eapply Forall2_impl; [exact Hbs|]. simpl.
  intros page b (pn & img & cats & _ & _ & Hcats & ->).
  exists cats. split; [assumption | apply length_map].
Qed.


(** *** Stage 4: pairing by position *)

(** [zs] answers the pairs of [xs] and [ys] position by position: it is as
    long as the shorter of the two, and its [i]-th element answers the
    [i]-th elements of both. *)
Definition positional {X Y Z} (R : X -> Y -> Z -> Prop)
    (xs : list X) (ys : list Y) (zs : list Z) : Prop :=
  length zs = Nat.min (length xs) (length ys) /\
  forall i x y, xs !! i = Some x -> ys !! i = Some y ->
                exists z, zs !! i = Some z /\ R x y z.

Lemma Forall2_combine_positional {X Y Z} (R : X -> Y -> Z -> Prop) xs ys zs :
  Forall2 (fun p z => R (fst p) (snd p) z) (combine xs ys) zs ->
  positional R xs ys zs.
Proof.
  revert ys zs. induction xs as [|x xs IH]; intros ys zs Hall.
  - inversion Hall; subst. split; [reflexivity|]. intros i x y Hx. now destruct i.
  - destruct ys as [|y ys].
    + inversion Hall; subst. split; [reflexivity|]. intros i x' y' _ Hy. now destruct i.
    + simpl in Hall. inversion Hall as [|p z ps zs' HR Hrest]; subst.
      destruct (IH ys zs' Hrest) as [Hlen Hpos]. split; [simpl; lia|].
      intros [|i] x' y' Hx Hy; simpl in *.
      * injection Hx as <-. injection Hy as <-. eauto.
      * eauto.
Qed.

Lemma combine_take {X Y} (xs : list X) (ys : list Y) :
  let k := Nat.min (length xs) (length ys) in
  combine (take k xs) (take k ys) = combine xs ys.
Proof.
  revert ys. induction xs as [|x xs IH]; intros [|y ys]; simpl; try reflexivity.
  f_equal. apply IH.
Qed.

(** The request Stage 4 builds for one category and its base: both are
    validated, and both validated objects go into the prompt. *)
Definition paired (restaurant_name : string) (page_number : json) (img_b64 : string)
    (cat cat_base : json) (req : request) : Prop :=
  exists category category_base,
    model_validate utils_model.CategorywithItems cat = inr category /\
    model_validate utils_model.CategoryBase cat_base = inr category_base /\
    req = message (phase4_prompt (JStr restaurant_name) page_number
                                 (JObj [("category", category)])
                                 (JObj [("category_base", category_base)]))
                  img_b64 (json_schema_format utils_model.CategoryItemAddons).

(** The batch Stage 4 submits for a Stage-2 page and the Stage-3 page at
    the same position. *)
Definition phase4_batch (restaurant_name : string) (imgs : list string)
    (page page_base : json) (batch : list request) : Prop :=
  exists page_number img_b64 categories category_bases,
    Py.getitem page "page_number" = inr page_number /\
    page_image imgs page_number = inr img_b64 /\
    (cats ← Py.getitem page "categories"; Py.iter cats) = inr categories /\
    (cats ← Py.getitem page_base "categories"; Py.iter cats) = inr category_bases /\
    positional (paired restaurant_name page_number img_b64) categories category_bases batch.

Lemma py_zip_inr a b pairs :
  py_zip a b = inr pairs ->
  exists xs ys, Py.iter a = inr xs /\ Py.iter b = inr ys /\ pairs = combine xs ys.
Proof.
  unfold py_zip. intros Hzip.
  apply result_bind_inr in Hzip as (xs & Hxs & Hzip).
  apply result_bind_inr in Hzip as (ys & Hys & Hzip).
  injection Hzip as <-. eauto.
Qed.

Lemma phase4_request_inr restaurant_name page_number img_b64 cat cat_base req :
  phase4_request restaurant_name page_number img_b64 (cat, cat_base) = inr req ->
  paired restaurant_name page_number img_b64 cat cat_base req.
Proof.
  unfold phase4_request. intros Hreq.
  apply result_bind_inr in Hreq as (category & Hcat & Hreq).
  apply result_bind_inr in Hreq as (category_base & Hbase & Hreq).
  injection Hreq as <-. exists category, category_base. auto.
Qed.

Lemma phase4_page_returned restaurant_name imgs page page_base w w' out :
  phase4_page MAX_CONCURRENCY call_openrouter event_loop restaurant_name imgs
              (page, page_base) w = (w', Returned out) ->
  exists b results,
    phase4_batch restaurant_name imgs page page_base b /\
    journal w' = journal w ++ [Submitted b; Resolved] /\
    batch_ok utils_model.CategoryItemAddons (issued (journal w)) b results.
Proof.
  intros Hrun. unfold phase4_page in Hrun. run_inv Hrun.
  apply extract_batch_returned in Hstep4 as (_ & Hj & Hok).
  exists a3, a4. split; [|split; [exact Hj | exact Hok]].
  apply result_bind_inr in Hstep3 as (pairs & Hzip & Hreqs).
  apply py_zip_inr in Hzip as (cats & bases & Hcats & Hbases & ->).
  exists a, a0, cats, bases.
  split; [assumption|]. split; [assumption|].
  split; [unfold mbind, result_bind; now rewrite Hstep1|].
  split; [unfold mbind, result_bind; now rewrite Hstep2|].
  apply Forall2_combine_positional.
  eapply Forall2_impl; [apply mapM_result_inr; exact Hreqs|].
  intros [cat cat_base] req. apply phase4_request_inr.
Qed.


Lemma run_phase4_returned restaurant_name category_payload category_base_payload w w' output :
  run_phase4 MAX_CONCURRENCY images call_openrouter event_loop restaurant_name
             category_payload category_base_payload w = (w', Returned output) ->
  exists imgs pages pages_base bs,
    images = inr imgs /\
    (pages ← Py.getitem category_payload "pages"; Py.iter pages) = inr pages /\
    (pages ← Py.getitem category_base_payload "pages"; Py.iter pages) = inr pages_base /\
    journal w' = journal w ++ settled bs /\
    units_ok utils_model.CategoryItemAddons (issued (journal w)) bs /\
    positional (phase4_batch restaurant_name imgs) pages pages_base bs.
Proof.
  intros Hrun. unfold run_phase4 in Hrun. run_inv Hrun.
  unfold write_text in Hstep4. injection Hstep4 as <-. simpl.
  apply py_zip_inr in Hstep2 as (pages & pages_base & Hpages & Hbases & ->).
  match goal with
  | Hm : mapM _ _ _ = (_, Returned _) |- _ =>
      apply (mapM_batches utils_model.CategoryItemAddons
               (fun p b => phase4_batch restaurant_name a (fst p) (snd p) b)) in Hm
        as (bs & Hbs & Hj & Hok);
      [|intros [page page_base] w1 w2 out; apply phase4_page_returned]
  end.
  exists a, pages, pages_base, bs.
  split; [assumption|].
  split; [unfold mbind, result_bind; now rewrite Hstep0|].
  split; [unfold mbind, result_bind; now rewrite Hstep1|].
  split; [assumption|]. split; [assumption|].
  now apply Forall2_combine_positional.
Qed.

Lemma getitem_envelope_pages restaurant_name pages :
  Py.getitem (envelope restaurant_name pages) "pages" = inr (JArr pages).
Proof. reflexivity. Qed.

Lemma getitem_page_out_categories page_number categories :
  Py.getitem (page_out page_number categories) "categories" = inr (JArr categories).
Proof. reflexivity. Qed.

Lemma getitem_page_out_number page_number categories :
  Py.getitem (page_out page_number categories) "page_number" = inr page_number.
Proof. reflexivity. Qed.

Lemma py_zip_arr xs ys : py_zip (JArr xs) (JArr ys) = inr (combine xs ys).
Proof. reflexivity. Qed.

(** C10. Stage 4 ([run_phase4]) zips without checking lengths. On two
    artifacts whose page lists differ in length it behaves exactly as on the
    two lists cut to the shorter length, and on a pair of pages whose
    category lists differ in length it behaves exactly as on the two lists
    cut to the shorter length: same journal, same files, same outcome, so
    the surplus entries are never read and no error mentions the mismatch.
    When the run returns, it submitted as many batches as the shorter page
    list has pages, and each batch holds as many requests as the shorter of
    the page's two category lists has entries. *)
Theorem run_phase4_truncates_silently (restaurant_name name2 name3 : string)
    (pages pages_base : list json) (w : world) :
  let k := Nat.min (length pages) (length pages_base) in
  run_phase4 MAX_CONCURRENCY images call_openrouter event_loop restaurant_name
             (envelope name2 pages) (envelope name3 pages_base) w
  = run_phase4 MAX_CONCURRENCY images call_openrouter event_loop restaurant_name
               (envelope name2 (take k pages)) (envelope name3 (take k pages_base)) w
  /\
  (forall imgs page_number page_number' categories category_bases w0,
     let k' := Nat.min (length categories) (length category_bases) in
     phase4_page MAX_CONCURRENCY call_openrouter event_loop restaurant_name imgs
                 (page_out page_number categories, page_out page_number' category_bases) w0
     = phase4_page MAX_CONCURRENCY call_openrouter event_loop restaurant_name imgs
                   (page_out page_number (take k' categories),
                    page_out page_number' (take k' category_bases)) w0)
  /\
  (forall w' output,
     run_phase4 MAX_CONCURRENCY images call_openrouter event_loop restaurant_name
                (envelope name2 pages) (envelope name3 pages_base) w = (w', Returned output) ->
     exists imgs bs,
       images = inr imgs /\
       journal w' = journal w ++ settled bs /\
       length bs = k /\
       forall i page page_base,
         pages !! i = Some page -> pages_base !! i = Some page_base ->
         exists b categories category_bases,
           bs !! i = Some b /\
           (cats ← Py.getitem page "categories"; Py.iter cats) = inr categories /\
           (cats ← Py.getitem page_base "categories"; Py.iter cats) = inr category_bases /\
           length b = Nat.min (length categories) (length category_bases)).
Proof.
  intros k. split; [|split].
  - unfold run_phase4. rewrite !getitem_envelope_pages.
    pose proof (combine_take pages pages_base) as Hcut. simpl in Hcut. fold k in Hcut.
    destruct images as [e|imgs]; [reflexivity|].
    repeat (rewrite bind_lift_inr; cbv beta). rewrite !py_zip_arr.
    repeat (rewrite bind_lift_inr; cbv beta). now rewrite Hcut.
  - intros imgs pn pn' cats bases w0 k'. unfold phase4_page.
    rewrite !getitem_page_out_categories.
    pose proof (combine_take cats bases) as Hcut. simpl in Hcut. fold k' in Hcut.
    rewrite !getitem_page_out_number. rewrite !bind_lift_inr. cbv beta.
    destruct (minus_one pn ≫= (fun i => Py.list_index imgs i)) as [e|img]; [reflexivity|].
    repeat (rewrite bind_lift_inr; cbv beta). rewrite !py_zip_arr, !result_bind_ret.
    now rewrite Hcut.
  - intros w' output Hrun.
    apply run_phase4_returned in Hrun
      as (imgs & ps & bs' & bs & Himgs & Hpages & Hbases & Hj & _ & Hlen & Hpos).
    rewrite getitem_envelope_pages in Hpages, Hbases. simpl in Hpages, Hbases.
    injection Hpages as <-. injection Hbases as <-.
    exists imgs, bs. repeat (split; [assumption|]).
    intros i page page_base Hpage Hbase.
    destruct (Hpos i page page_base Hpage Hbase)
      as (b & Hb & pn & img & cats & cbases & _ & _ & Hcats & Hcbases & Hblen & _).
    exists b, cats, cbases. auto.
Qed.


(** *** All or nothing *)

(** A run is transactional when it leaves the files alone unless it
    returns. *)
Definition transactional {A} (m : prog A) : Prop :=
  forall w w' o, m w = (w', o) -> (forall a, o <> Returned a) -> files w' = files w.

Lemma transactional_bind {A B} (m : prog A) (k : A -> prog B) :
  quiet m -> (forall a, transactional (k a)) -> transactional (m ≫= k).
Proof.
  intros Hm Hk w w' o. unfold mbind, prog_bind.
  destruct (m w) as [w1 [a| e |]] eqn:Hrun.
  - intros Hrun' Hfail. rewrite (Hk a _ _ _ Hrun' Hfail). eauto.
  - intros [= <- <-] _. eauto.
  - intros [= <- <-] _. eauto.
Qed.

Lemma transactional_persist {A} path data (x : A) :
  transactional (write_text path data ≫= fun _ => mret x).
Proof. intros w w' o [= <- <-] Hfail. now destruct (Hfail x). Qed.

Ltac quiet_steps :=
  repeat (apply quiet_bind;
          [first [apply quiet_lift | apply quiet_extract]|]; intros);
  apply quiet_ret.

Lemma quiet_phase2_page restaurant_name imgs page :
  quiet (phase2_page MAX_CONCURRENCY call_openrouter event_loop restaurant_name imgs page).
Proof. unfold phase2_page. quiet_steps. Qed.

Lemma quiet_phase3_page restaurant_name imgs page :
  quiet (phase3_page MAX_CONCURRENCY call_openrouter event_loop restaurant_name imgs page).
Proof. unfold phase3_page. quiet_steps. Qed.

Lemma quiet_phase4_page restaurant_name imgs pair :
  quiet (phase4_page MAX_CONCURRENCY call_openrouter event_loop restaurant_name imgs pair).
Proof. destruct pair. unfold phase4_page. quiet_steps. Qed.

Lemma phase3_page_returned restaurant_name imgs page w w' out :
  phase3_page MAX_CONCURRENCY call_openrouter event_loop restaurant_name imgs page w
  = (w', Returned out) ->
  exists b results,
    True /\
    journal w' = journal w ++ [Submitted b; Resolved] /\
    batch_ok utils_model.CategoryBase (issued (journal w)) b results.
Proof.
  intros Hrun. unfold phase3_page in Hrun. run_inv Hrun.
  match goal with
  | Hx : Extractor.extract_batch _ _ _ _ _ _ = _ |- _ =>
      apply extract_batch_returned in Hx as (_ & Hj & Hok)
  end.
  eauto.
Qed.

(** What a stage's run leaves: on return, the artifact in its file and a
    journal of settled batches every unit of which was answered, decoded
    and validated; otherwise, the files as they were. *)
Definition all_or_nothing (cls : schema) (path : string) (w w' : world) (o : outcome json)
    : Prop :=
  match o with
  | Returned output =>
      files w' = <[path := json_dumps output]> (files w) /\
      exists bs, journal w' = journal w ++ settled bs /\
                 units_ok cls (issued (journal w)) bs
  | _ => files w' = files w
  end.

Lemma run_phase1_all_or_nothing restaurant_name w w' o :
  run_phase1 MAX_CONCURRENCY images call_openrouter event_loop restaurant_name w = (w', o) ->
  all_or_nothing utils_model.Categories Config.CATEGORIES_FILE w w' o.
Proof.
  intros Hrun.
  assert (Htx : transactional
                  (run_phase1 MAX_CONCURRENCY images call_openrouter event_loop restaurant_name)).
  { unfold run_phase1.
    apply transactional_bind; [apply quiet_lift|]; intros.
    apply transactional_bind; [apply quiet_extract|]; intros.
    apply transactional_persist. }
  destruct o as [output| e |]; simpl;
    try (apply (Htx _ _ _ Hrun); intros ? [=]).
  unfold run_phase1 in Hrun. run_inv Hrun.
  match goal with
  | Hx : Extractor.extract_batch _ _ _ _ _ _ = _ |- _ =>
      apply extract_batch_returned in Hx as (Hf & Hj & Hok)
  end.
  match goal with
  | Hw : write_text _ _ _ = _ |- _ => unfold write_text in Hw; injection Hw as <-
  end.
  simpl. rewrite Hf. split; [reflexivity|].
  eexists [_]. simpl. split; [exact Hj|]. eauto.
Qed.

Ltac page_loop_run Hrun cls page_lemma :=
  run_inv Hrun;
  match goal with
  | Hm : mapM _ _ ?w0 = (?w1, Returned _) |- _ =>
      let Hf := fresh "Hf" in
      assert (Hf : files w1 = files w0)
        by (revert Hm; apply quiet_mapM; intros;
            first [apply quiet_phase2_page | apply quiet_phase3_page | apply quiet_phase4_page]);
      apply (mapM_batches cls (fun _ _ => True)) in Hm as (bs & _ & Hj & Hok);
      [| intros x ? ? ? Hpage; apply page_lemma in Hpage as (b & results & _ & ? & ?);
         exists b, results; auto ]
  end;
  match goal with
  | Hw : write_text _ _ _ = _ |- _ => unfold write_text in Hw; injection Hw as <-
  end.

Lemma run_phase2_all_or_nothing restaurant_name payload w w' o :
  run_phase2 MAX_CONCURRENCY images call_openrouter event_loop restaurant_name payload w
  = (w', o) ->
  all_or_nothing utils_model.CategorywithItems Config.ITEMS_FILE w w' o.
Proof.
  intros Hrun.
  assert (Htx : transactional
                  (run_phase2 MAX_CONCURRENCY images call_openrouter event_loop
                              restaurant_name payload)).
  { unfold run_phase2.
    apply transactional_bind; [apply quiet_lift|]; intros.
    apply transactional_bind; [apply quiet_lift|]; intros.
    apply transactional_bind; [apply quiet_mapM; intros; apply quiet_phase2_page|]; intros.
    apply transactional_persist. }
  destruct o as [output| e |]; simpl;
    try (apply (Htx _ _ _ Hrun); intros ? [=]).
  unfold run_phase2 in Hrun.
  page_loop_run Hrun utils_model.CategorywithItems phase2_page_returned.
  simpl. rewrite Hf. split; [reflexivity|]. eauto.
Qed.

Lemma run_phase3_all_or_nothing restaurant_name payload w w' o :
  run_phase3 MAX_CONCURRENCY images call_openrouter event_loop restaurant_name payload w
  = (w', o) ->
  all_or_nothing utils_model.CategoryBase Config.CATEGORY_BASES_FILE w w' o.
Proof.
  intros Hrun.
  assert (Htx : transactional
                  (run_phase3 MAX_CONCURRENCY images call_openrouter event_loop
                              restaurant_name payload)).
  { unfold run_phase3.
    apply transactional_bind; [apply quiet_lift|]; intros.
    apply transactional_bind; [apply quiet_lift|]; intros.
    apply transactional_bind; [apply quiet_mapM; intros; apply quiet_phase3_page|]; intros.
    apply transactional_persist. }
  destruct o as [output| e |]; simpl;
    try (apply (Htx _ _ _ Hrun); intros ? [=]).
  unfold run_phase3 in Hrun.
  page_loop_run Hrun utils_model.CategoryBase phase3_page_returned.
  simpl. rewrite Hf. split; [reflexivity|]. eauto.
Qed.

Lemma run_phase4_all_or_nothing restaurant_name payload payload_base w w' o :
  run_phase4 MAX_CONCURRENCY images call_openrouter event_loop restaurant_name
             payload payload_base w = (w', o) ->
  all_or_nothing utils_model.CategoryItemAddons Config.ITEMS_ADDONS_FILE w w' o.
Proof.
  intros Hrun.
  assert (Htx : transactional
                  (run_phase4 MAX_CONCURRENCY images call_openrouter event_loop
                              restaurant_name payload payload_base)).
  { unfold run_phase4.
    apply transactional_bind; [apply quiet_lift|]; intros.
    apply transactional_bind; [apply quiet_lift|]; intros.
    apply transactional_bind; [apply quiet_lift|]; intros.
    apply transactional_bind; [apply quiet_lift|]; intros.
    apply transactional_bind; [apply quiet_mapM; intros; apply quiet_phase4_page|]; intros.
    apply transactional_persist. }
  destruct o as [output| e |]; simpl;
    try (apply (Htx _ _ _ Hrun); intros ? [=]).
  pose proof (run_phase4_returned _ _ _ _ _ _ Hrun)
    as (imgs & pages & pages_base & bs & _ & _ & _ & Hj & Hok & _).
  split; [|eauto].
  unfold run_phase4 in Hrun. run_inv Hrun.
  match goal with
  | Hm : mapM _ _ ?w0 = (?w1, Returned _) |- _ =>
      assert (Hf : files w1 = files w0)
        by (revert Hm; apply quiet_mapM; intros; apply quiet_phase4_page)
  end.
  match goal with
  | Hw : write_text _ _ _ = _ |- _ => unfold write_text in Hw; injection Hw as <-
  end.
  simpl. now rewrite Hf.
Qed.


(** A unit of a batch fails when its call raises or when its response does
    not decode or does not validate. *)
Definition unit_fails (cls : schema) (c : Executor.coro response) : Prop :=
  (exists e, Executor.completion c = inl e) \/
  (exists resp e, Executor.completion c = inr resp /\ decode cls resp = inl e).

Lemma executor_all_or_nothing {A} (coros : list (Executor.coro A)) limit sched c e :
  In c coros -> Executor.completion c = inl e ->
  (forall vs, Executor.bounded_gather sched coros limit <> Some (inr vs)) /\
  ((0 < limit)%Z -> Executor.work coros <= length sched ->
   exists e', Executor.bounded_gather sched coros limit = Some (inl e')).
Proof.
  intros Hin Hfail.
  assert (Hnever : forall vs, Executor.bounded_gather sched coros limit <> Some (inr vs)).
  { intros vs Hg. apply bounded_gather_returns in Hg.
    apply map_eq_Forall2 in Hg.
    destruct (Forall2_In_l _ _ _ c Hg Hin) as [v Hv]. congruence. }
  split; [exact Hnever|].
  intros Hpos Hlen.
  destruct (bounded_gather_resolves sched coros limit Hpos Hlen) as [[e'|vs] Hr]; [eauto|].
  now destruct (Hnever vs).
Qed.

Lemma extract_batch_fails cls batch w w' o c :
  In c (coroutines (issued (journal w)) batch) -> unit_fails cls c ->
  extract_batch cls batch w = (w', o) ->
  (forall results, o <> Returned results) /\
  files w' = files w /\
  ((0 < MAX_CONCURRENCY)%Z ->
   Executor.work (coroutines (issued (journal w)) batch)
   <= length (event_loop (length (batches (journal w)))) ->
   exists e, o = Raised e).
Proof.
  intros Hin Hfail Hrun.
  assert (Hnever : forall results, o <> Returned results).
  { intros results ->. revert Hrun.
    destruct Hfail as [[e He] | (resp & e & Hresp & He)];
      eapply extract_batch_all_or_nothing; eauto. }
  split; [exact Hnever|]. split; [eapply quiet_extract; eauto|].
  intros Hpos Hlen.
  destruct (bounded_gather_resolves _ _ _ Hpos Hlen) as [r Hr].
  unfold Extractor.extract_batch, mbind, prog_bind, Extractor.await_bounded_gather in Hrun.
  rewrite Hr in Hrun. destruct r as [e|responses].
  - injection Hrun as <- <-. eauto.
  - unfold lift in Hrun. destruct (mapM (decode cls) responses) as [e|results].
    + injection Hrun as <- <-. eauto.
    + injection Hrun as <- <-. now destruct (Hnever results).
Qed.

(** C1. Batches fail as a whole. (1) [bounded_gather]: when a task of the
    batch raises, the call never delivers a list of results, whatever the
    schedule and the limit; with a positive limit and a schedule long
    enough to finish the batch it delivers one exception. (2) A stage
    runner's batch: when a unit of the batch fails (its call raises, or its
    response is no JSON, or the JSON does not validate), the batch does not
    return a list, partial or not, and writes no file; once resolved, its
    result is one exception. (3) Each of the four stage runners either
    returns, having written its artifact, every unit of every batch it
    submitted having been answered, decoded and validated; or it does not return and
    leaves every file as it was. *)
Theorem batches_fail_as_a_whole :
  (forall (coros : list (Executor.coro response)) limit sched c e,
     In c coros -> Executor.completion c = inl e ->
     (forall vs, Executor.bounded_gather sched coros limit <> Some (inr vs)) /\
     ((0 < limit)%Z -> Executor.work coros <= length sched ->
      exists e', Executor.bounded_gather sched coros limit = Some (inl e'))) /\
  (forall cls batch w w' o c,
     In c (coroutines (issued (journal w)) batch) -> unit_fails cls c ->
     extract_batch cls batch w = (w', o) ->
     (forall results, o <> Returned results) /\
     files w' = files w /\
     ((0 < MAX_CONCURRENCY)%Z ->
      Executor.work (coroutines (issued (journal w)) batch)
      <= length (event_loop (length (batches (journal w)))) ->
      exists e, o = Raised e)) /\
  (forall restaurant_name w w' o,
     run_phase1 MAX_CONCURRENCY images call_openrouter event_loop restaurant_name w = (w', o) ->
     all_or_nothing utils_model.Categories Config.CATEGORIES_FILE w w' o) /\
  (forall restaurant_name payload w w' o,
     run_phase2 MAX_CONCURRENCY images call_openrouter event_loop restaurant_name payload w
     = (w', o) ->
     all_or_nothing utils_model.CategorywithItems Config.ITEMS_FILE w w' o) /\
  (forall restaurant_name payload w w' o,
     run_phase3 MAX_CONCURRENCY images call_openrouter event_loop restaurant_name payload w
     = (w', o) ->
     all_or_nothing utils_model.CategoryBase Config.CATEGORY_BASES_FILE w w' o) /\
  (forall restaurant_name payload payload_base w w' o,
     run_phase4 MAX_CONCURRENCY images call_openrouter event_loop restaurant_name
                payload payload_base w = (w', o) ->
     all_or_nothing utils_model.CategoryItemAddons Config.ITEMS_ADDONS_FILE w w' o).
Proof.
  split; [intros coros limit sched c e; apply executor_all_or_nothing|].
  split; [intros cls batch w w' o c; apply extract_batch_fails|].
  split; [intros rn w w' o; apply run_phase1_all_or_nothing|].
  split; [intros rn payload w w' o; apply run_phase2_all_or_nothing|].
  split; [intros rn payload w w' o; apply run_phase3_all_or_nothing|].
  intros rn payload payload_base w w' o. apply run_phase4_all_or_nothing.
Qed.

(** *** Stage 1: one call per page image *)

Lemma lookup_batch_ok cls n batch results i req :
  batch_ok cls n batch results -> batch !! i = Some req ->
  exists resp data,
    Executor.completion (call_openrouter (n + i) req) = inr resp /\
    decode cls resp = inr data /\
    results !! i = Some data.
Proof.
  unfold batch_ok, Extractor.coroutines. intros Hok Hreq.
  assert (Hc : imap (fun i r => call_openrouter (n + i) r) batch !! i
               = Some (call_openrouter (n + i) req))
    by now rewrite list_lookup_imap, Hreq.
  destruct (Forall2_lookup_l _ _ _ _ _ Hok Hc) as (data & Hdata & resp & Hresp & Hdec).
  eauto.
Qed.

(** Stage 1 ([run_phase1]) hands [bounded_gather] a single batch, whatever
    the outcome: one request per page image, in page order, the [i]-th
    (from 0) carrying the [i]-th image and the page number [i + 1]. When it
    returns, its output has one page per image, numbered from 1 in the
    same order, the page [i + 1] holding the validated response to the
    request that carried the [i]-th image; and that output is what
    [categories_all_pages.json] now holds. *)
Theorem run_phase1_numbers_pages_from_one (restaurant_name : string) (imgs : list string)
    (w w' : world) (o : outcome json) :
  images = inr imgs ->
  run_phase1 MAX_CONCURRENCY images call_openrouter event_loop restaurant_name w = (w', o) ->
  batches (journal w') = batches (journal w) ++ [phase1_requests restaurant_name imgs] /\
  (forall i img_b64,
     imgs !! i = Some img_b64 ->
     phase1_requests restaurant_name imgs !! i
     = Some (message (phase1_prompt (JStr restaurant_name) (JInt (Z.of_nat i + 1))) img_b64
                     (json_schema_format utils_model.Categories))) /\
  (forall output,
     o = Returned output ->
     exists pages,
       output = envelope restaurant_name pages /\
       length pages = length imgs /\
       files w' = <[Config.CATEGORIES_FILE := json_dumps output]> (files w) /\
       forall i req,
         phase1_requests restaurant_name imgs !! i = Some req ->
         exists resp data,
           Executor.completion (call_openrouter (issued (journal w) + i) req) = inr resp /\
           decode utils_model.Categories resp = inr data /\
           pages !! i = Some (JObj [("page_number", JInt (Z.of_nat i + 1)); ("data", data)])).
Proof.
  intros Himgs. unfold run_phase1. rewrite Himgs, bind_lift_inr.
  unfold mbind at 1, prog_bind.
  destruct (extract_batch utils_model.Categories (phase1_requests restaurant_name imgs) w)
    as [w1 o1] eqn:Hbatch.
  pose proof (extract_batch_batches _ _ _ _ _ Hbatch) as Hj.
  intros Hrun.
  assert (Hw : journal w' = journal w1).
  { destruct o1; injection Hrun as <- _; reflexivity. }
  split; [now rewrite Hw|]. split.
  - intros i img_b64 Hi. unfold phase1_requests. rewrite list_lookup_imap, Hi. simpl.
    do 4 f_equal. lia.
  - intros output ->. destruct o1 as [results| |]; try discriminate Hrun.
    injection Hrun as <- <-.
    apply extract_batch_returned in Hbatch as (Hf & _ & Hok).
    eexists. split; [reflexivity|]. split.
    + rewrite length_imap, (batch_ok_length _ _ _ _ Hok).
      unfold phase1_requests. now rewrite length_imap.
    + split; [simpl; now rewrite Hf|].
      intros i req Hreq.
      destruct (lookup_batch_ok _ _ _ _ _ _ Hok Hreq) as (resp & data & Hresp & Hdec & Hdata).
      exists resp, data. split; [exact Hresp|]. split; [exact Hdec|].
      rewrite list_lookup_imap, Hdata. simpl. do 5 f_equal. lia.
Qed.

(** *** Without a permit *)

Lemma bounded_gather_negative {A} (sched : list nat) (coros : list (Executor.coro A))
    (limit : Z) :
  (limit < 0)%Z ->
  Executor.bounded_gather sched coros limit
  = Some (inl (ValueError "Semaphore initial value must be >= 0")).
Proof.
  intros Hneg. unfold Executor.bounded_gather, Executor.Semaphore.
  apply Z.ltb_lt in Hneg. now rewrite Hneg.
Qed.

Lemma coroutines_nil n batch : batch <> [] -> coroutines n batch <> [].
Proof. destruct batch; [congruence | discriminate]. Qed.

(** The limit decides whether a stage can run at all. With
    [MAX_CONCURRENCY] 0 a batch that is not empty is submitted and never
    resolves, so Stage 1 on a document with a page hangs, with nothing
    written; with a negative limit every batch, empty or not, raises the
    [ValueError] of [asyncio.Semaphore], and Stage 1 raises it and writes
    nothing. Both values are accepted when the module reads the
    environment variable. *)
Theorem stages_need_a_permit :
  (forall cls batch w,
     batch <> [] ->
     Extractor.extract_batch 0 call_openrouter event_loop cls batch w
     = (log (Submitted batch) w, Unresolved)) /\
  (forall (limit : Z) cls batch w,
     (limit < 0)%Z ->
     Extractor.extract_batch limit call_openrouter event_loop cls batch w
     = (log Resolved (log (Submitted batch) w),
        Raised (ValueError "Semaphore initial value must be >= 0"))) /\
  (forall restaurant_name imgs w,
     images = inr imgs -> imgs <> [] ->
     run_phase1 0 images call_openrouter event_loop restaurant_name w
     = (log (Submitted (phase1_requests restaurant_name imgs)) w, Unresolved)) /\
  (forall (limit : Z) restaurant_name imgs w,
     images = inr imgs -> (limit < 0)%Z ->
     exists w',
       run_phase1 limit images call_openrouter event_loop restaurant_name w
       = (w', Raised (ValueError "Semaphore initial value must be >= 0")) /\
       files w' = files w) /\
  Config.MAX_CONCURRENCY {[ "MAX_CONCURRENCY" := "0" ]} = inr 0%Z /\
  Config.MAX_CONCURRENCY {[ "MAX_CONCURRENCY" := "-1" ]} = inr (-1)%Z.
Proof.
  assert (Hzero : forall cls batch w,
            batch <> [] ->
            Extractor.extract_batch 0 call_openrouter event_loop cls batch w
            = (log (Submitted batch) w, Unresolved)).
  { intros cls batch w Hne.
    unfold Extractor.extract_batch, mbind, prog_bind, Extractor.await_bounded_gather.
    rewrite bounded_gather_zero; [reflexivity|]. now apply coroutines_nil. }
  assert (Hneg : forall (limit : Z) cls batch w,
            (limit < 0)%Z ->
            Extractor.extract_batch limit call_openrouter event_loop cls batch w
            = (log Resolved (log (Submitted batch) w),
               Raised (ValueError "Semaphore initial value must be >= 0"))).
  { intros limit cls batch w Hlimit.
    unfold Extractor.extract_batch, mbind, prog_bind, Extractor.await_bounded_gather.
    now rewrite bounded_gather_negative. }
  split; [exact Hzero|]. split; [exact Hneg|]. split; [|split; [|split; reflexivity]].
  - intros restaurant_name imgs w Himgs Hne. unfold run_phase1.
    rewrite Himgs, bind_lift_inr. unfold mbind at 1, prog_bind.
    rewrite Hzero; [reflexivity|]. destruct imgs; [congruence | discriminate].
  - intros limit restaurant_name imgs w Himgs Hlimit. eexists. unfold run_phase1.
    rewrite Himgs, bind_lift_inr. unfold mbind at 1, prog_bind.
    rewrite Hneg by exact Hlimit. split; reflexivity.
Qed.

(** *** The output of a page loop mirrors its input *)

Lemma mapM_returned_Forall2 {X} (R : X -> json -> Prop) (f : X -> prog json) xs :
  (forall x w w' y, f x w = (w', Returned y) -> R x y) ->
  forall w w' ys, mapM f xs w = (w', Returned ys) -> Forall2 R xs ys.
Proof.
  intros Hf. induction xs as [|x xs IH]; intros w w' ys Hrun;
    apply mapM_returned in Hrun.
  - destruct Hrun as [-> _]. constructor.
  - destruct Hrun as (y & ys' & w1 & Hy & Hys & ->). constructor; eauto.
Qed.

(** The categories a Stage-2 or Stage-3 artifact lists for a page. *)
Definition listed_categories (page : json) : result (list json) :=
  cats ← Py.getitem page "categories"; Py.iter cats.

(** [out] is the output page of [page]: it carries the page number of
    [page] and one result per unit that [units] finds on it. *)
Definition page_mirrors (units : json -> result (list json)) (page out : json) : Prop :=
  exists page_number categories results,
    Py.getitem page "page_number" = inr page_number /\
    units page = inr categories /\
    out = page_out page_number results /\
    length results = length categories.

(** The same for Stage 4, which reads a Stage-2 page and the Stage-3 page
    at the same position: the page number is the Stage-2 page's, and the
    results are as many as the shorter list of units. *)
Definition pair_mirrors (pair : json * json) (out : json) : Prop :=
  exists page_number categories category_bases results,
    Py.getitem (fst pair) "page_number" = inr page_number /\
    listed_categories (fst pair) = inr categories /\
    listed_categories (snd pair) = inr category_bases /\
    out = page_out page_number results /\
    length results = Nat.min (length categories) (length category_bases).

Lemma phase2_page_mirrors restaurant_name imgs page w w' out :
  phase2_page MAX_CONCURRENCY call_openrouter event_loop restaurant_name imgs page w
  = (w', Returned out) ->
  page_mirrors top_level_categories page out.
Proof.
  rewrite phase2_page_planned. unfold planned. intros Hrun. run_inv Hrun.
  destruct a as [page_number batch]. simpl in *.
  match goal with
  | Hx : Extractor.extract_batch _ _ _ _ _ _ = _ |- _ =>
      apply extract_batch_returned in Hx as (_ & _ & Hok)
  end.
  apply batch_ok_length in Hok.
  unfold phase2_plan in Hstep.
  apply result_bind_inr in Hstep as (pn & Hpn & Hstep).
  apply result_bind_inr in Hstep as (img & Himg & Hstep).
  apply result_bind_inr in Hstep as (cats & Hcats & Hstep).
  injection Hstep as <- <-.
  exists pn, cats, a0. repeat split; try assumption.
  rewrite Hok. unfold phase2_requests. now rewrite length_map.
Qed.

Lemma mapM_result_length {X Y} (f : X -> result Y) xs ys :
  mapM f xs = inr ys -> length ys = length xs.
Proof. intros Hm. apply mapM_result_inr, Forall2_length in Hm. congruence. Qed.

Lemma phase3_page_mirrors restaurant_name imgs page w w' out :
  phase3_page MAX_CONCURRENCY call_openrouter event_loop restaurant_name imgs page w
  = (w', Returned out) ->
  page_mirrors listed_categories page out.
Proof.
  intros Hrun. unfold phase3_page in Hrun. run_inv Hrun.
  match goal with
  | Hx : Extractor.extract_batch _ _ _ _ _ _ = _ |- _ =>
      apply extract_batch_returned in Hx as (_ & _ & Hok)
  end.
  apply batch_ok_length in Hok.
  match goal with
  | Hx : (_ ≫= _) = inr ?coros, Hy : Py.getitem page "categories" = inr _ |- _ =>
      apply result_bind_inr in Hx as (cats & Hcats & Hreqs);
      apply mapM_result_length in Hreqs;
      exists a, cats, a3; repeat split; try assumption;
      [unfold listed_categories; now rewrite Hy | congruence]
  end.
Qed.

Lemma phase4_page_mirrors restaurant_name imgs pair w w' out :
  phase4_page MAX_CONCURRENCY call_openrouter event_loop restaurant_name imgs pair w
  = (w', Returned out) ->
  pair_mirrors pair out.
Proof.
  destruct pair as [page page_base]. intros Hrun. unfold phase4_page in Hrun. run_inv Hrun.
  match goal with
  | Hx : Extractor.extract_batch _ _ _ _ _ _ = _ |- _ =>
      apply extract_batch_returned in Hx as (_ & _ & Hok)
  end.
  apply batch_ok_length in Hok.
  match goal with
  | Hx : (_ ≫= _) = inr ?coros |- _ =>
      apply result_bind_inr in Hx as (pairs & Hzip & Hreqs);
      apply mapM_result_length in Hreqs;
      apply py_zip_inr in Hzip as (cats & bases & Hcats & Hbases & ->)
  end.
  exists a, cats, bases, a4. simpl. unfold listed_categories.
  rewrite Hstep1, Hstep2. repeat split; try assumption.
  rewrite Hok, Hreqs. apply length_combine.
Qed.

(** What a stage returns mirrors what it was given. The output of Stage 2
    and of Stage 3 carries the restaurant name the stage was called with
    and one page per page of the input, in the same order and under the
    same page number, with one result per category that the page lists
    (Stage 2: per top-level category of its validated [data]). The output
    of Stage 4 has one page per pair of pages at the same position of its
    two inputs, under the page number of the Stage-2 page, with as many
    results as the shorter of the two category lists. *)
Theorem stage_output_mirrors_input :
  (forall restaurant_name payload w w' output,
     run_phase2 MAX_CONCURRENCY images call_openrouter event_loop restaurant_name payload w
     = (w', Returned output) ->
     exists pages outs,
       (pages ← Py.getitem payload "pages"; Py.iter pages) = inr pages /\
       output = envelope restaurant_name outs /\
       Forall2 (page_mirrors top_level_categories) pages outs) /\
  (forall restaurant_name payload w w' output,
     run_phase3 MAX_CONCURRENCY images call_openrouter event_loop restaurant_name payload w
     = (w', Returned output) ->
     exists pages outs,
       (pages ← Py.getitem payload "pages"; Py.iter pages) = inr pages /\
       output = envelope restaurant_name outs /\
       Forall2 (page_mirrors listed_categories) pages outs) /\
  (forall restaurant_name payload payload_base w w' output,
     run_phase4 MAX_CONCURRENCY images call_openrouter event_loop restaurant_name
                payload payload_base w = (w', Returned output) ->
     exists pages pages_base outs,
       (pages ← Py.getitem payload "pages"; Py.iter pages) = inr pages /\
       (pages ← Py.getitem payload_base "pages"; Py.iter pages) = inr pages_base /\
       output = envelope restaurant_name outs /\
       length outs = Nat.min (length pages) (length pages_base) /\
       Forall2 pair_mirrors (combine pages pages_base) outs).
Proof.
  split; [|split].
  - intros restaurant_name payload w w' output Hrun. unfold run_phase2 in Hrun.
    run_inv Hrun.
    exists a0, a1. split; [assumption|]. split; [reflexivity|].
    revert Hstep1. apply mapM_returned_Forall2. intros x wa wb y.
    apply phase2_page_mirrors.
  - intros restaurant_name payload w w' output Hrun. unfold run_phase3 in Hrun.
    run_inv Hrun.
    exists a0, a1. split; [assumption|]. split; [reflexivity|].
    revert Hstep1. apply mapM_returned_Forall2. intros x wa wb y.
    apply phase3_page_mirrors.
  - intros restaurant_name payload payload_base w w' output Hrun.
    unfold run_phase4 in Hrun. run_inv Hrun.
    match goal with
    | Hz : py_zip _ _ = inr _ |- _ =>
        apply py_zip_inr in Hz as (pages & pages_base & Hpages & Hbases & ->)
    end.
    assert (Hall : Forall2 pair_mirrors (combine pages pages_base) a3)
      by (revert Hstep3; apply mapM_returned_Forall2; intros x wa wb y;
          apply phase4_page_mirrors).
    exists pages, pages_base, a3.
    unfold mbind, result_bind. rewrite Hstep0, Hstep1.
    repeat split; try assumption.
    apply Forall2_length in Hall. rewrite <- Hall. apply length_combine.
Qed.

(** *** The page number as an index *)

Lemma nth_error_is_lookup {X} (l : list X) (i : nat) : nth_error l i = l !! i.
Proof. revert i. induction l as [|x l IH]; intros [|i]; simpl; auto. Qed.

Lemma list_index_spec {X} (l : list X) (i : Z) :
  Py.list_index l i
  = let n := Z.of_nat (length l) in
    let j := if (i <? 0)%Z then (n + i)%Z else i in
    match (if ((0 <=? j) && (j <? n))%Z then l !! Z.to_nat j else None) with
    | Some x => inr x
    | None => inl IndexError
    end.
Proof.
  unfold Py.list_index. cbv zeta.
  destruct ((0 <=? _) && (_ <? _))%Z; [|reflexivity].
  rewrite nth_error_is_lookup. now destruct (l !! _).
Qed.

Lemma page_image_in_range (imgs : list string) (n : Z) (img_b64 : string) :
  (1 <= n)%Z -> imgs !! Z.to_nat (n - 1) = Some img_b64 ->
  page_image imgs (JInt n) = inr img_b64.
Proof.
  intros Hn Himg. unfold page_image. simpl. rewrite list_index_spec. cbv zeta.
  pose proof (lookup_lt_Some _ _ _ Himg) as Hlt.
  replace (n - 1 <? 0)%Z with false by (symmetry; apply Z.ltb_ge; lia).
  replace ((0 <=? n - 1) && (n - 1 <? Z.of_nat (length imgs)))%Z with true.
  - now rewrite Himg.
  - symmetry. apply andb_true_iff. split; [apply Z.leb_le | apply Z.ltb_lt]; lia.
Qed.

Lemma page_image_from_the_end (imgs : list string) (n : Z) (img_b64 : string) :
  (- Z.of_nat (length imgs) < n <= 0)%Z ->
  imgs !! Z.to_nat (Z.of_nat (length imgs) + n - 1) = Some img_b64 ->
  page_image imgs (JInt n) = inr img_b64.
Proof.
  intros Hn Himg. unfold page_image. simpl. rewrite list_index_spec. cbv zeta.
  replace (n - 1 <? 0)%Z with true by (symmetry; apply Z.ltb_lt; lia).
  replace (Z.of_nat (length imgs) + (n - 1))%Z with (Z.of_nat (length imgs) + n - 1)%Z by lia.
  replace ((0 <=? _) && (_ <? _))%Z with true.
  - now rewrite Himg.
  - symmetry. apply andb_true_iff. split; [apply Z.leb_le | apply Z.ltb_lt]; lia.
Qed.

Lemma page_image_out_of_range (imgs : list string) (n : Z) :
  (Z.of_nat (length imgs) < n \/ n <= - Z.of_nat (length imgs))%Z ->
  page_image imgs (JInt n) = inl IndexError.
Proof.
  intros Hn. unfold page_image. simpl. rewrite list_index_spec. cbv zeta.
  destruct (n - 1 <? 0)%Z eqn:Hneg.
  - apply Z.ltb_lt in Hneg.
    replace ((0 <=? _) && (_ <? _))%Z with false; [reflexivity|].
    symmetry. apply andb_false_iff. left. apply Z.leb_gt. lia.
  - apply Z.ltb_ge in Hneg.
    replace ((0 <=? _) && (_ <? _))%Z with false; [reflexivity|].
    symmetry. apply andb_false_iff. right. apply Z.ltb_ge. lia.
Qed.

(** The page number of an input page is used as it comes, as the index
    [images[page_number - 1]]: a number from 1 to the number of images
    selects that page's image; a number from 0 down to one more than minus
    the number of images counts from the end, 0 selecting the last image;
    any other number makes Stages 2, 3 and 4 raise [IndexError] at that
    page, before a request is built or a batch submitted. *)
Theorem page_number_indexes_the_images (imgs : list string) (n : Z) :
  (forall img_b64,
     (1 <= n)%Z -> imgs !! Z.to_nat (n - 1) = Some img_b64 ->
     page_image imgs (JInt n) = inr img_b64) /\
  (forall img_b64,
     (- Z.of_nat (length imgs) < n <= 0)%Z ->
     imgs !! Z.to_nat (Z.of_nat (length imgs) + n - 1) = Some img_b64 ->
     page_image imgs (JInt n) = inr img_b64) /\
  (forall restaurant_name page page_base w,
     Py.getitem page "page_number" = inr (JInt n) ->
     (Z.of_nat (length imgs) < n \/ n <= - Z.of_nat (length imgs))%Z ->
     phase2_page MAX_CONCURRENCY call_openrouter event_loop restaurant_name imgs page w
     = (w, Raised IndexError) /\
     phase3_page MAX_CONCURRENCY call_openrouter event_loop restaurant_name imgs page w
     = (w, Raised IndexError) /\
     phase4_page MAX_CONCURRENCY call_openrouter event_loop restaurant_name imgs
                 (page, page_base) w
     = (w, Raised IndexError)).
Proof.
  split; [intros img_b64; apply page_image_in_range|].
  split; [intros img_b64; apply page_image_from_the_end|].
  intros restaurant_name page page_base w Hpage Hn.
  pose proof (page_image_out_of_range imgs n Hn) as Himg. unfold page_image in Himg.
  unfold phase2_page, phase3_page, phase4_page.
  rewrite Hpage, !bind_lift_inr, Himg. repeat split.
Qed.

(** *** From Stage 2 to Stage 3 *)

(** What Stage 3 plans for a page, before any call is made. *)
Definition phase3_plan (restaurant_name : string) (imgs : list string) (page : json)
    : result (json * list request) :=
  page_number ← Py.getitem page "page_number";
  img_b64 ← page_image imgs page_number;
  page_categories ← Py.getitem page "categories";
  coros ← (cats ← Py.iter page_categories;
           mapM (phase3_request restaurant_name page_number img_b64) cats);
  ret (page_number, coros).

Lemma phase3_page_planned restaurant_name imgs page w :
  phase3_page MAX_CONCURRENCY call_openrouter event_loop restaurant_name imgs page w
  = planned (phase3_plan restaurant_name imgs) utils_model.CategoryBase page w.
Proof.
  unfold phase3_page, planned, phase3_plan, page_image.
  destruct (Py.getitem page "page_number") as [e|page_number]; [reflexivity|].
  rewrite bind_lift_inr, result_bind_ret.
  destruct (minus_one page_number ≫= (fun i => Py.list_index imgs i)) as [e|img_b64];
    [reflexivity|].
  rewrite bind_lift_inr, result_bind_ret.
  destruct (Py.getitem page "categories") as [e|page_categories]; [reflexivity|].
  rewrite bind_lift_inr, result_bind_ret.
  destruct (Py.iter page_categories ≫= _) as [e|coros]; reflexivity.
Qed.

(** A page whose batch is planned submits it, whatever comes of it. *)
Lemma planned_submits {X} (plan : X -> result (json * list request)) cls x w w' o
    page_number b :
  plan x = inr (page_number, b) ->
  planned plan cls x w = (w', o) ->
  batches (journal w') = batches (journal w) ++ [b].
Proof.
  intros Hplan. unfold planned. rewrite Hplan, bind_lift_inr. simpl.
  unfold mbind, prog_bind.
  destruct (extract_batch cls b w) as [w1 o1] eqn:Hb.
  apply extract_batch_batches in Hb.
  destruct o1; intros [= <- <-]; exact Hb.
Qed.

(** A loop all of whose pages are planned submits a batch unless it has
    no page. *)
Lemma planned_loop_submits {X} (plan : X -> result (json * list request)) cls
    (xs : list X) w w' o :
  Forall (fun x => exists p, plan x = inr p) xs -> xs <> [] ->
  mapM (planned plan cls) xs w = (w', o) ->
  batches (journal w') <> batches (journal w).
Proof.
  intros Hall Hne. destruct xs as [|x xs]; [congruence|].
  inversion Hall as [|? ? [[pn b] Hplan] _]; subst.
  simpl. unfold mbind at 1, prog_bind.
  destruct (planned plan cls x w) as [w1 o1] eqn:Hx.
  apply (planned_submits _ _ _ _ _ _ _ _ Hplan) in Hx.
  assert (Hlonger : forall w2, (exists bs, batches (journal w2) = batches (journal w1) ++ bs) ->
                               batches (journal w2) <> batches (journal w)).
  { intros w2 [bs Hbs] Heq. rewrite Hbs, Hx in Heq.
    apply (f_equal (@length _)) in Heq. rewrite !length_app in Heq. simpl in Heq. lia. }
  destruct o1 as [y| e |].
  - unfold mbind, prog_bind.
    destruct (mapM (planned plan cls) xs w1) as [w2 o2] eqn:Hrest.
    apply planned_loop in Hrest as (bs & Hbs & _).
    intros Hrun. assert (Hw : w' = w2) by (destruct o2; now injection Hrun as <- _).
    subst w'. apply Hlonger. eauto.
  - intros [= <- <-]. apply Hlonger. exists []. now rewrite app_nil_r.
  - intros [= <- <-]. apply Hlonger. exists []. now rewrite app_nil_r.
Qed.

Lemma mapM_result_cons {X Y} (f : X -> result Y) x xs :
  mapM f (x :: xs) = (y ← f x; k ← mapM f xs; mret (y :: k)).
Proof. reflexivity. Qed.

Section Chaining.

(** What pydantic's coercions give is of the target type, and a value of
    the target type is accepted as it is. *)
Hypothesis lax_float_idempotent : forall v m, lax_float v = Some m -> lax_float m = Some m.
Hypothesis lax_bool_idempotent : forall v m, lax_bool v = Some m -> lax_bool m = Some m.
Hypothesis lax_bool_false : lax_bool (JBool false) = Some (JBool false).

Lemma decode_revalidates cls resp data :
  well_formed cls = true -> decode cls resp = inr data -> model_validate cls data = inr data.
Proof.
  intros Hwf. unfold decode. intros Hdec.
  apply result_bind_inr in Hdec as (obj & _ & Hdec).
  apply result_bind_inr in Hdec as (validated & Hval & Hdec).
  injection Hdec as <-. unfold model_dump, model_validate in *.
  destruct (validate cls obj) as [m|] eqn:Hv; [|discriminate].
  injection Hval as ->.
  now rewrite (validate_idempotent lax_float_idempotent lax_bool_idempotent lax_bool_false
                 cls Hwf obj validated Hv).
Qed.

(** The request Stage 3 builds for a unit of Stage 2. *)
Definition phase3_request_of (restaurant_name : string) (page_number : json)
    (img_b64 : string) (cat : json) : request :=
  message (phase3_prompt (JStr restaurant_name) page_number (JObj [("category", cat)]))
          img_b64 (json_schema_format utils_model.CategoryBase).

(** A page of Stage 2's output, as Stage 3 will read it. *)
Definition ready_for_phase3 (imgs : list string) (out : json) : Prop :=
  exists page_number img_b64 results,
    out = page_out page_number results /\
    page_image imgs page_number = inr img_b64 /\
    forall restaurant_name,
      phase3_plan restaurant_name imgs out
      = inr (page_number,
             map (phase3_request_of restaurant_name page_number img_b64) results).

Lemma phase2_page_ready restaurant_name imgs page w w' out :
  phase2_page MAX_CONCURRENCY call_openrouter event_loop restaurant_name imgs page w
  = (w', Returned out) ->
  ready_for_phase3 imgs out.
Proof.
  rewrite phase2_page_planned. unfold planned. intros Hrun. run_inv Hrun.
  destruct a as [page_number batch]. simpl in *.
  match goal with
  | Hx : Extractor.extract_batch _ _ _ _ _ _ = _ |- _ =>
      apply extract_batch_returned in Hx as (_ & _ & Hok)
  end.
  unfold phase2_plan in Hstep.
  apply result_bind_inr in Hstep as (pn & Hpn & Hstep).
  apply result_bind_inr in Hstep as (img & Himg & Hstep).
  apply result_bind_inr in Hstep as (cats & Hcats & Hstep).
  injection Hstep as <- <-.
  exists pn, img, a0. split; [reflexivity|]. split; [exact Himg|].
  intros name3. unfold phase3_plan, page_out. simpl Py.getitem.
  rewrite result_bind_ret, Himg, !result_bind_ret. simpl Py.iter. rewrite result_bind_ret.
  assert (Hreqs : mapM (phase3_request name3 pn img) a0
                  = inr (map (phase3_request_of name3 pn img) a0)).
  { assert (Hone : forall resp r, decode utils_model.CategorywithItems resp = inr r ->
                     phase3_request name3 pn img r = inr (phase3_request_of name3 pn img r)).
    { intros resp r Hdec. unfold phase3_request.
      now rewrite (decode_revalidates utils_model.CategorywithItems resp r eq_refl Hdec). }
    unfold batch_ok in Hok. clear -Hok Hone.
    induction Hok as [|c result cs results (resp & _ & Hdec) _ IH]; [reflexivity|].
    rewrite mapM_result_cons, (Hone _ _ Hdec), result_bind_ret, IH. reflexivity. }
  now rewrite Hreqs.
Qed.

(** Stage 3 accepts what Stage 2 returned. When Stage 2 returns, every
    page of its output has a Stage-3 plan over the same images, whatever
    restaurant name Stage 3 is called with: the page number finds its
    image again, every unit passes Stage 3's validation as it is, and the
    plan holds one request per unit, in order, carrying that unit. So a
    Stage-3 run on that output that raises got as far as handing a batch
    to [bounded_gather]: nothing in the input stopped it. *)
Theorem stage3_accepts_stage2_output (restaurant_name : string) (payload : json)
    (w w' : world) (output : json) :
  run_phase2 MAX_CONCURRENCY images call_openrouter event_loop restaurant_name payload w
  = (w', Returned output) ->
  exists imgs outs,
    images = inr imgs /\
    (pages ← Py.getitem output "pages"; Py.iter pages) = inr outs /\
    Forall (ready_for_phase3 imgs) outs /\
    (forall name3 wa wb e,
       run_phase3 MAX_CONCURRENCY images call_openrouter event_loop name3 output wa
       = (wb, Raised e) ->
       batches (journal wb) <> batches (journal wa)).
Proof.
  intros Hrun. unfold run_phase2 in Hrun. run_inv Hrun.
  exists a, a1. split; [assumption|]. split; [reflexivity|].
  assert (Hready : Forall (ready_for_phase3 a) a1).
  { assert (Hall : Forall2 (fun _ out => ready_for_phase3 a out) a0 a1)
      by (revert Hstep1; apply mapM_returned_Forall2; intros x wa wb y;
          apply phase2_page_ready).
    clear -Hall. induction Hall; constructor; auto. }
  split; [exact Hready|].
  intros name3 wa wb e. unfold run_phase3. rewrite Hstep, bind_lift_inr.
  unfold envelope at 1. simpl Py.getitem. rewrite result_bind_ret. simpl Py.iter.
  rewrite bind_lift_inr. unfold mbind at 1, prog_bind.
  rewrite (mapM_ext _ _ (phase3_page_planned name3 a)).
  destruct (mapM (M:=prog) (planned _ _) a1 wa) as [wc oc] eqn:Hloop.
  intros Hraised.
  assert (Hw : journal wb = journal wc).
  { destruct oc; injection Hraised as <- _; reflexivity. }
  assert (Hne : a1 <> []).
  { intros ->. simpl in Hloop. injection Hloop as <- <-. discriminate Hraised. }
  rewrite Hw. revert Hloop. apply planned_loop_submits; [|exact Hne].
  eapply Forall_impl; [exact Hready|].
  intros out (pn & img & results & _ & _ & Hplan). rewrite Hplan. eauto.
Qed.

End Chaining.

(** *** Stage 4: what it submits whatever its outcome, and that it returns *)

Lemma positional_Forall2_combine {X Y Z} (R : X -> Y -> Z -> Prop) xs ys zs :
  positional R xs ys zs ->
  Forall2 (fun p z => R (fst p) (snd p) z) (combine xs ys) zs.
Proof.
  revert ys zs. induction xs as [|x xs IH]; intros ys zs [Hlen Hpos].
  - destruct zs; [constructor | discriminate].
  - destruct ys as [|y ys].
    + destruct zs; [constructor | discriminate].
    + destruct zs as [|z zs]; [discriminate|]. simpl.
      destruct (Hpos 0 x y eq_refl eq_refl) as (z' & [= <-] & HR).
      constructor; [exact HR|]. apply IH. split; [simpl in Hlen; lia|].
      intros i x' y' Hx Hy. exact (Hpos (S i) x' y' Hx Hy).
Qed.

Lemma mapM_result_Forall2 {X Y} (f : X -> result Y) xs ys :
  Forall2 (fun x y => f x = inr y) xs ys -> mapM f xs = inr ys.
Proof.
  induction 1 as [|x y xs ys Hxy _ IH]; [reflexivity|].
  rewrite mapM_result_cons, Hxy, result_bind_ret, IH. reflexivity.
Qed.

(** What Stage 4 plans for a Stage-2 page and the Stage-3 page zipped with
    it, before any call is made. *)
Definition phase4_plan (restaurant_name : string) (imgs : list string)
    (pair : json * json) : result (json * list request) :=
  let '(page, page_base) := pair in
  page_number ← Py.getitem page "page_number";
  img_b64 ← page_image imgs page_number;
  page_categories ← Py.getitem page "categories";
  page_bases ← Py.getitem page_base "categories";
  coros ← (pairs ← py_zip page_categories page_bases;
           mapM (phase4_request restaurant_name page_number img_b64) pairs);
  ret (page_number, coros).

Lemma phase4_page_planned restaurant_name imgs pair w :
  phase4_page MAX_CONCURRENCY call_openrouter event_loop restaurant_name imgs pair w
  = planned (phase4_plan restaurant_name imgs) utils_model.CategoryItemAddons pair w.
Proof.
  destruct pair as [page page_base].
  unfold phase4_page, planned, phase4_plan, page_image.
  destruct (Py.getitem page "page_number") as [e|page_number]; [reflexivity|].
  rewrite bind_lift_inr, result_bind_ret.
  destruct (minus_one page_number ≫= (fun i => Py.list_index imgs i)) as [e|img_b64];
    [reflexivity|].
  rewrite bind_lift_inr, result_bind_ret.
  destruct (Py.getitem page "categories") as [e|page_categories]; [reflexivity|].
  rewrite bind_lift_inr, result_bind_ret.
  destruct (Py.getitem page_base "categories") as [e|page_bases]; [reflexivity|].
  rewrite bind_lift_inr, result_bind_ret.
  destruct (py_zip page_categories page_bases ≫= _) as [e|coros]; reflexivity.
Qed.

(** The plan of a pair of pages is the batch that pairs their categories
    by position, and the other way round. *)
Lemma phase4_plan_batch restaurant_name imgs page page_base page_number b :
  phase4_plan restaurant_name imgs (page, page_base) = inr (page_number, b) ->
  phase4_batch restaurant_name imgs page page_base b.
Proof.
  unfold phase4_plan. intros Hplan.
  apply result_bind_inr in Hplan as (pn & Hpn & Hplan).
  apply result_bind_inr in Hplan as (img & Himg & Hplan).
  apply result_bind_inr in Hplan as (pc & Hpc & Hplan).
  apply result_bind_inr in Hplan as (pb & Hpb & Hplan).
  apply result_bind_inr in Hplan as (coros & Hcoros & Hplan).
  injection Hplan as <- <-.
  apply result_bind_inr in Hcoros as (pairs & Hzip & Hreqs).
  apply py_zip_inr in Hzip as (cats & bases & Hcats & Hbases & ->).
  exists pn, img, cats, bases.
  split; [assumption|]. split; [assumption|].
  split; [now rewrite Hpc, result_bind_ret|].
  split; [now rewrite Hpb, result_bind_ret|].
  apply Forall2_combine_positional.
  eapply Forall2_impl; [apply mapM_result_inr; exact Hreqs|].
  intros [cat cat_base] req. apply phase4_request_inr.
Qed.

Lemma phase4_batch_plan restaurant_name imgs page page_base b :
  phase4_batch restaurant_name imgs page page_base b ->
  exists page_number, phase4_plan restaurant_name imgs (page, page_base) = inr (page_number, b).
Proof.
  intros (pn & img & cats & bases & Hpn & Himg & Hcats & Hbases & Hpos).
  apply result_bind_inr in Hcats as (pc & Hpc & Hcats).
  apply result_bind_inr in Hbases as (pb & Hpb & Hbases).
  exists pn. unfold phase4_plan.
  rewrite Hpn, result_bind_ret, Himg, result_bind_ret, Hpc, result_bind_ret,
    Hpb, result_bind_ret.
  unfold py_zip. rewrite Hcats, result_bind_ret, Hbases, !result_bind_ret.
  rewrite (mapM_result_Forall2 _ (combine cats bases) b); [reflexivity|].
  eapply Forall2_impl; [apply positional_Forall2_combine; exact Hpos|].
  intros [cat cat_base] req (category & category_base & Hc & Hb & ->).
  simpl in Hc, Hb. unfold phase4_request. now rewrite Hc, result_bind_ret, Hb.
Qed.

(** The event loop gives the batches [bs], the first of which is the
    [n]-th batch of the run and starts with the [k]-th call, steps enough
    to finish each of them. *)
Fixpoint scheduled (n k : nat) (bs : list (list request)) : Prop :=
  match bs with
  | [] => True
  | b :: bs' =>
      Executor.work (coroutines k b) <= length (event_loop n) /\
      scheduled (S n) (k + length b) bs'
  end.

Lemma answered_responses cls (cs : list (Executor.coro response)) (results : list json) :
  Forall2 (fun c result =>
             exists resp, Executor.completion c = inr resp /\ decode cls resp = inr result)
          cs results ->
  exists responses,
    map Executor.completion cs = map inr responses /\
    mapM (decode cls) responses = inr results.
Proof.
  induction 1 as [|c result cs rs Hhead _ IH].
  - exists []. split; reflexivity.
  - destruct Hhead as (resp & Hc & Hd). destruct IH as (responses & Hcs & Hds).
    exists (resp :: responses). split; [simpl; now rewrite Hc, Hcs|].
    rewrite mapM_result_cons, Hd, result_bind_ret, Hds. reflexivity.
Qed.

(** A batch returns: with a permit to give, a schedule long enough and
    every request answered by a response that decodes, the results come
    back in request order. *)
Lemma extract_batch_returns cls batch results w :
  (0 < MAX_CONCURRENCY)%Z ->
  Executor.work (coroutines (issued (journal w)) batch)
  <= length (event_loop (length (batches (journal w)))) ->
  batch_ok cls (issued (journal w)) batch results ->
  extract_batch cls batch w = (log Resolved (log (Submitted batch) w), Returned results).
Proof.
  intros Hpos Hwork Hok. unfold batch_ok in Hok.
  apply answered_responses in Hok as Hresp.
  destruct Hresp as (responses & Hcs & Hds).
  unfold Extractor.extract_batch, mbind, prog_bind, Extractor.await_bounded_gather.
  destruct (bounded_gather_resolves _ _ _ Hpos Hwork) as [[e|vs] Hr]; rewrite Hr.
  - apply bounded_gather_raises in Hr as [Hneg | (c & Hin & Hc)]; [lia|].
    assert (Hin' : In (Executor.completion c) (map inr responses))
      by (rewrite <- Hcs; now apply in_map).
    apply in_map_iff in Hin' as (v & Hv & _). congruence.
  - apply bounded_gather_returns in Hr. rewrite Hcs in Hr.
    apply map_inr_inj in Hr. subst vs. unfold lift. now rewrite Hds.
Qed.

Lemma mapM_cons_returned {X Y} (f : X -> prog Y) x xs w w1 w' y ys :
  f x w = (w1, Returned y) -> mapM f xs w1 = (w', Returned ys) ->
  mapM f (x :: xs) w = (w', Returned (y :: ys)).
Proof.
  intros Hx Hxs.
  change (mapM f (x :: xs) w) with ((y ← f x; k ← mapM f xs; mret (y :: k)) w).
  rewrite (bind_returned_eq _ _ _ _ _ Hx), (bind_returned_eq _ _ _ _ _ Hxs). reflexivity.
Qed.

(** A page loop returns: every page has a plan, every request of the
    planned batches is answered by a response that decodes, and the event
    loop finishes every batch. *)
Lemma planned_loop_returns {X} (plan : X -> result (json * list request)) cls
    (xs : list X) (bs : list (list request)) :
  (0 < MAX_CONCURRENCY)%Z ->
  Forall2 (fun x b => exists page_number, plan x = inr (page_number, b)) xs bs ->
  forall w,
    units_ok cls (issued (journal w)) bs ->
    scheduled (length (batches (journal w))) (issued (journal w)) bs ->
    exists outs w',
      mapM (planned plan cls) xs w = (w', Returned outs) /\
      journal w' = journal w ++ settled bs /\ files w' = files w /\
      length outs = length bs.
Proof.
  intros Hpos Hall. induction Hall as [|x b xs bs [pn Hplan] _ IH]; intros w Hok Hsched.
  - exists [], w. simpl. rewrite app_nil_r. auto.
  - destruct Hok as [[results Hb] Hok]. destruct Hsched as [Hwork Hsched].
    pose proof (extract_batch_returns cls b results w Hpos Hwork Hb) as Hrun.
    set (w1 := log Resolved (log (Submitted b) w)) in *.
    assert (Hj1 : journal w1 = journal w ++ [Submitted b; Resolved])
      by (simpl; now rewrite <- app_assoc).
    assert (Hx : planned plan cls x w = (w1, Returned (page_out pn results))).
    { unfold planned. rewrite Hplan, bind_lift_inr. simpl.
      now rewrite (bind_returned_eq _ _ _ _ _ Hrun). }
    destruct (IH w1) as (outs & w' & Hrest & Hj & Hf & Hlen).
    + now rewrite Hj1, issued_settled_one.
    + rewrite Hj1, batches_app, length_app, issued_settled_one. simpl.
      now rewrite Nat.add_1_r.
    + exists (page_out pn results :: outs), w'. split; [|split; [|split]].
      * now apply mapM_cons_returned with w1.
      * rewrite Hj, Hj1, <- app_assoc. reflexivity.
      * now rewrite Hf.
      * simpl. now rewrite Hlen.
Qed.

Lemma pages_of payload pages :
  (pages ← Py.getitem payload "pages"; Py.iter pages) = inr pages ->
  exists listed, Py.getitem payload "pages" = inr listed /\ Py.iter listed = inr pages.
Proof. intros Hp. now apply result_bind_inr in Hp. Qed.

(** Whatever the outcome of Stage 4, the batches it submitted are those of
    the first pairs of pages, each pairing the categories of its two pages
    by position. *)
Lemma run_phase4_batches restaurant_name payload payload_base imgs pages pages_base w w' o :
  images = inr imgs ->
  (pages ← Py.getitem payload "pages"; Py.iter pages) = inr pages ->
  (pages ← Py.getitem payload_base "pages"; Py.iter pages) = inr pages_base ->
  run_phase4 MAX_CONCURRENCY images call_openrouter event_loop restaurant_name
             payload payload_base w = (w', o) ->
  exists bs,
    batches (journal w') = batches (journal w) ++ bs /\
    length bs <= Nat.min (length pages) (length pages_base) /\
    positional (phase4_batch restaurant_name imgs)
               (take (length bs) pages) (take (length bs) pages_base) bs /\
    (forall output, o = Returned output ->
       length bs = Nat.min (length pages) (length pages_base)).
Proof.
  intros Himgs Hpages Hbases.
  apply pages_of in Hpages as (listed & Hl & Hpages).
  apply pages_of in Hbases as (listed_base & Hlb & Hbases).
  assert (Hzip : py_zip listed listed_base = inr (combine pages pages_base))
    by (unfold py_zip; now rewrite Hpages, Hbases).
  unfold run_phase4. rewrite Himgs, Hl, Hlb.
  repeat (rewrite bind_lift_inr; cbv beta). rewrite Hzip, bind_lift_inr.
  unfold mbind at 1, prog_bind.
  rewrite (mapM_ext _ _ (phase4_page_planned restaurant_name imgs)).
  destruct (mapM (M:=prog) (planned _ _) (combine pages pages_base) w) as [w1 o1] eqn:Hloop.
  apply planned_loop in Hloop as (bs & Hj & Hall & Hlen & Hfull).
  rewrite length_combine in Hlen, Hfull.
  intros Hrun. exists bs.
  assert (Hw : batches (journal w') = batches (journal w1)).
  { destruct o1; injection Hrun as <- _; reflexivity. }
  rewrite Hw. split; [exact Hj|]. split; [exact Hlen|]. split.
  - apply Forall2_combine_positional. rewrite <- combine_firstn.
    eapply Forall2_impl; [exact Hall|]. intros [page page_base] b [pn Hplan].
    now apply phase4_plan_batch with pn.
  - intros output ->. destruct o1 as [outs| |]; try discriminate Hrun. now apply (Hfull outs).
Qed.

(** Stage 4 gets through its pages: every paired batch is submitted and
    resolved, and what is left of the run is the write of the artifact. *)
Lemma run_phase4_reaches_the_write restaurant_name payload payload_base imgs pages
    pages_base bs w :
  (0 < MAX_CONCURRENCY)%Z ->
  images = inr imgs ->
  (pages ← Py.getitem payload "pages"; Py.iter pages) = inr pages ->
  (pages ← Py.getitem payload_base "pages"; Py.iter pages) = inr pages_base ->
  positional (phase4_batch restaurant_name imgs) pages pages_base bs ->
  units_ok utils_model.CategoryItemAddons (issued (journal w)) bs ->
  scheduled (length (batches (journal w))) (issued (journal w)) bs ->
  exists w1 all_pages_out,
    journal w1 = journal w ++ settled bs /\
    files w1 = files w /\
    length all_pages_out = length bs /\
    run_phase4 MAX_CONCURRENCY images call_openrouter event_loop restaurant_name
               payload payload_base w
    = (_ ← write_text Config.ITEMS_ADDONS_FILE (envelope restaurant_name all_pages_out);
       mret (envelope restaurant_name all_pages_out)) w1.
Proof.
  intros Hpos Himgs Hpages Hbases Hbs Hok Hsched.
  apply pages_of in Hpages as (listed & Hl & Hpages).
  apply pages_of in Hbases as (listed_base & Hlb & Hbases).
  destruct (planned_loop_returns (phase4_plan restaurant_name imgs)
              utils_model.CategoryItemAddons (combine pages pages_base) bs Hpos)
    with (w := w) as (outs & w1 & Hloop & Hj & Hf & Hlen); try assumption.
  { eapply Forall2_impl; [apply positional_Forall2_combine; exact Hbs|].
    intros [page page_base] b. apply phase4_batch_plan. }
  exists w1, outs. repeat (split; [assumption|]).
  assert (Hzip : py_zip listed listed_base = inr (combine pages pages_base))
    by (unfold py_zip; now rewrite Hpages, Hbases).
  unfold run_phase4. rewrite Himgs, Hl, Hlb.
  repeat (rewrite bind_lift_inr; cbv beta). rewrite Hzip, bind_lift_inr.
  rewrite <- (mapM_ext _ _ (phase4_page_planned restaurant_name imgs)) in Hloop.
  now rewrite (bind_returned_eq _ _ _ _ _ Hloop).
Qed.

(** C7. Stage 4 ([run_phase4]) pairs by position. When it returns on a
    Stage-2 and a Stage-3 payload whose page lists have the same length, it
    submitted one batch per page; and for every page whose two category
    lists have the same length, the batch holds exactly one request per
    category, the [j]-th request being built from the [j]-th Stage-2
    category and the [j]-th Stage-3 category of the page at the same
    position: both are validated and both validated objects are put into
    that request's prompt. The pairing is by position only: no [name_raw]
    is compared. Whatever the outcome of the run, the batches it submitted
    are those of the first pairs of pages, each pairing the categories of
    its two pages by position. And Stage 4 does get through its pages:
    with a permit to give, pages whose categories validate and whose
    numbers are within the images, every request of the paired batches
    answered by a response that decodes, and an event loop that finishes
    every batch, the run submits exactly the paired batches, each resolved
    before the next, with one page of results per batch, and ends as the
    write of the artifact ends: it returns the artifact once that is
    written. *)
Theorem run_phase4_pairs_by_position (restaurant_name : string)
    (category_payload category_base_payload : json) (w w' : world) (o : outcome json) :
  run_phase4 MAX_CONCURRENCY images call_openrouter event_loop restaurant_name
             category_payload category_base_payload w = (w', o) ->
  (forall output, o = Returned output ->
   exists imgs pages pages_base bs,
    images = inr imgs /\
    (pages ← Py.getitem category_payload "pages"; Py.iter pages) = inr pages /\
    (pages ← Py.getitem category_base_payload "pages"; Py.iter pages) = inr pages_base /\
    journal w' = journal w ++ settled bs /\
    (length pages = length pages_base ->
     length bs = length pages /\
     forall i page page_base,
       pages !! i = Some page -> pages_base !! i = Some page_base ->
       exists b page_number img_b64 categories category_bases,
         bs !! i = Some b /\
         Py.getitem page "page_number" = inr page_number /\
         page_image imgs page_number = inr img_b64 /\
         (cats ← Py.getitem page "categories"; Py.iter cats) = inr categories /\
         (cats ← Py.getitem page_base "categories"; Py.iter cats) = inr category_bases /\
         (length categories = length category_bases ->
          length b = length categories /\
          forall j cat cat_base,
            categories !! j = Some cat -> category_bases !! j = Some cat_base ->
            exists req, b !! j = Some req /\
                        paired restaurant_name page_number img_b64 cat cat_base req))) /\
  (forall imgs pages pages_base,
     images = inr imgs ->
     (pages ← Py.getitem category_payload "pages"; Py.iter pages) = inr pages ->
     (pages ← Py.getitem category_base_payload "pages"; Py.iter pages) = inr pages_base ->
     exists bs,
       batches (journal w') = batches (journal w) ++ bs /\
       length bs <= Nat.min (length pages) (length pages_base) /\
       positional (phase4_batch restaurant_name imgs)
                  (take (length bs) pages) (take (length bs) pages_base) bs /\
       (forall output, o = Returned output ->
          length bs = Nat.min (length pages) (length pages_base))) /\
  (forall imgs pages pages_base bs,
     (0 < MAX_CONCURRENCY)%Z ->
     images = inr imgs ->
     (pages ← Py.getitem category_payload "pages"; Py.iter pages) = inr pages ->
     (pages ← Py.getitem category_base_payload "pages"; Py.iter pages) = inr pages_base ->
     positional (phase4_batch restaurant_name imgs) pages pages_base bs ->
     units_ok utils_model.CategoryItemAddons (issued (journal w)) bs ->
     scheduled (length (batches (journal w))) (issued (journal w)) bs ->
     exists w1 all_pages_out,
       journal w1 = journal w ++ settled bs /\
       files w1 = files w /\
       length all_pages_out = length bs /\
       (w', o)
       = (_ ← write_text Config.ITEMS_ADDONS_FILE (envelope restaurant_name all_pages_out);
          mret (envelope restaurant_name all_pages_out)) w1).
Proof.
  intros Hrun. split; [|split].
  - intros output ->.
    apply run_phase4_returned in Hrun
      as (imgs & pages & pages_base & bs & Himgs & Hpages & Hbases & Hj & _ & Hlen & Hpos).
    exists imgs, pages, pages_base, bs. repeat (split; [assumption|]).
    intros Hsame. split; [lia|].
    intros i page page_base Hpage Hbase.
    destruct (Hpos i page page_base Hpage Hbase)
      as (b & Hb & pn & img & cats & cbases & Hpn & Himg & Hcats & Hcbases & Hblen & Hbpos).
    exists b, pn, img, cats, cbases. repeat (split; [assumption|]).
    intros Hsame'. split; [lia | exact Hbpos].
  - intros imgs pages pages_base Himgs Hpages Hbases.
    now apply run_phase4_batches with category_payload category_base_payload.
  - intros imgs pages pages_base bs Hpos Himgs Hpages Hbases Hbs Hok Hsched.
    destruct (run_phase4_reaches_the_write restaurant_name category_payload
                category_base_payload imgs pages pages_base bs w
                Hpos Himgs Hpages Hbases Hbs Hok Hsched)
      as (w1 & outs & Hj & Hf & Hlen & Hret).
    exists w1, outs. repeat (split; [assumption|]). now rewrite <- Hrun.
Qed.


End RunnerFacts.

(** ** The HTTP handlers *)

Section BackendFacts.
Import Extractor Backend.
Context `{Scalars}.
Variable call_openrouter : nat -> request -> Executor.coro response.
Variable convert_pdf_into_images : option text -> result (list string).

Local Open Scope list_scope.

Lemma quiet_check paths : quiet (check_required_files paths).
Proof.
  induction paths as [|p paths IH]; intros w w' o; simpl.
  - now intros [= <- <-].
  - destruct (negb (exists_ w p)); [|apply IH].
    destruct (String.eqb p UPLOADED_PDF_PATH); now intros [= <- <-].
Qed.

Lemma quiet_load path message : quiet (load_json_file path message).
Proof.
  intros w w' o. unfold load_json_file.
  destruct (files w !! path) as [t|]; [destruct (json_loads t)|]; now intros [= <- <-].
Qed.

Lemma quiet_images : quiet (images_of_upload convert_pdf_into_images).
Proof. intros w w' o. unfold images_of_upload. apply quiet_lift. Qed.

Lemma quiet_await_call req : quiet (await_call call_openrouter req).
Proof.
  intros w w' o. unfold await_call.
  destruct (Executor.completion _); now intros [= <- <-].
Qed.

Lemma await_call_returned req w w' resp :
  await_call call_openrouter req w = (w', Returned resp) ->
  journal w' = journal w ++ [Submitted [req]; Resolved] /\
  Executor.completion (call_openrouter (issued (journal w)) req) = inr resp.
Proof.
  unfold await_call. destruct (Executor.completion _) as [e|r]; intros [= <- <-].
  simpl. now rewrite <- app_assoc.
Qed.

Ltac quiet_handler :=
  repeat (apply quiet_bind;
          [first [apply quiet_lift | apply quiet_check | apply quiet_load
                 | apply quiet_images | apply quiet_await_call]|]; intros);
  apply quiet_ret.

(** The check of the required files passes exactly when they all exist,
    and it changes nothing. *)
Lemma check_required_files_passes paths w :
  (forall p, In p paths -> exists_ w p = true) <->
  check_required_files paths w = (w, Returned tt).
Proof.
  induction paths as [|p paths IH]; simpl.
  - split; [reflexivity | intros _ p []].
  - split.
    + intros Hall. rewrite (Hall p) by now left. simpl. apply IH. intros q Hq. apply Hall. now right.
    + destruct (exists_ w p) eqn:E; simpl.
      * intros Hrest q [<-|Hq]; [assumption|]. now apply IH.
      * destruct (String.eqb p UPLOADED_PDF_PATH); discriminate.
Qed.

(** A re-extraction that returns made exactly one call to the service,
    whose response decoded and validated to one instance of [cls], an
    object of exactly the fields [cls] declares; what it hands back is the
    dict of [success], [message] and that instance under [key], and nothing
    else; whatever its outcome, it wrote no file. *)
Definition single_unit (cls : schema) (key message : string) (w w' : world)
    (o : outcome json) : Prop :=
  files w' = files w /\
  forall response, o = Returned response ->
    exists req resp validated,
      journal w' = journal w ++ [Submitted [req]; Resolved] /\
      Executor.completion (call_openrouter (issued (journal w)) req) = inr resp /\
      (obj ← json_loads (content resp); model_validate cls obj) = inr validated /\
      (exists members, validated = JObj members /\ keys members = declared cls) /\
      response = JObj [("success", JBool true); ("message", JStr message);
                       (key, validated)].

(** What decodes and validates against a model class is an object of the
    declared fields. *)
Lemma decoded_unit (cls : string) (extra : extra_mode) (fs : list field)
    (t : text) (validated : json) :
  (obj ← json_loads t; model_validate (SModel cls extra fs) obj) = inr validated ->
  exists members, validated = JObj members /\
                  keys members = declared (SModel cls extra fs).
Proof.
  destruct (json_loads t) as [e|obj]; [discriminate|].
  rewrite result_bind_ret. unfold model_validate.
  destruct (validate (SModel cls extra fs) obj) as [m|] eqn:E; [|discriminate].
  intros [= <-]. exact (model_dump_keys _ _ _ _ _ E).
Qed.

Lemma world_of_check paths w w' u :
  check_required_files paths w = (w', Returned u) -> w' = w.
Proof.
  revert w w'. induction paths as [|p paths IH]; intros w w'; simpl.
  - now intros [= <-].
  - destruct (negb (exists_ w p)); [|apply IH].
    destruct (String.eqb p UPLOADED_PDF_PATH); discriminate.
Qed.

Lemma world_of_load path message w w' data :
  load_json_file path message w = (w', Returned data) -> w' = w.
Proof.
  unfold load_json_file.
  destruct (files w !! path) as [t|]; [destruct (json_loads t)|]; now intros [= <-].
Qed.

Lemma world_of_images w w' imgs :
  images_of_upload convert_pdf_into_images w = (w', Returned imgs) -> w' = w.
Proof. unfold images_of_upload. intros Hrun. now apply lift_returned in Hrun. Qed.


Ltac same_world :=
  repeat match goal with
         | Hx : check_required_files _ _ = (_, Returned _) |- _ =>
             apply world_of_check in Hx; subst
         | Hx : load_json_file _ _ _ = (_, Returned _) |- _ =>
             apply world_of_load in Hx; subst
         | Hx : images_of_upload _ _ = (_, Returned _) |- _ =>
             apply world_of_images in Hx; subst
         end.

Lemma reextract_category_items_single category_name page_number w w' o :
  reextract_category_items call_openrouter convert_pdf_into_images
                           category_name page_number w = (w', o) ->
  single_unit backend_utils_model.CategorywithItems "category_items"
              ("Re-extracted items for category '" ++ category_name ++ "'") w w' o.
Proof.
  intros Hrun. split.
  - revert w w' o Hrun. change (quiet
      (reextract_category_items call_openrouter convert_pdf_into_images
                                category_name page_number)).
    unfold reextract_category_items. quiet_handler.
  - intros response ->. unfold reextract_category_items in Hrun. run_inv Hrun. same_world.
    eexists _, _, _. split; [simpl; rewrite <- app_assoc; reflexivity|].
    split; [eassumption|]. split; [eassumption|].
    split; [eapply decoded_unit; eassumption | reflexivity].
Qed.

Lemma reextract_category_base_single category_name page_number w w' o :
  reextract_category_base call_openrouter convert_pdf_into_images
                          category_name page_number w = (w', o) ->
  single_unit backend_utils_model.CategoryBase "category_base"
              ("Re-extracted base for category '" ++ category_name ++ "'") w w' o.
Proof.
  intros Hrun. split.
  - revert w w' o Hrun. change (quiet
      (reextract_category_base call_openrouter convert_pdf_into_images
                               category_name page_number)).
    unfold reextract_category_base. quiet_handler.
  - intros response ->. unfold reextract_category_base in Hrun. run_inv Hrun. same_world.
    eexists _, _, _. split; [simpl; rewrite <- app_assoc; reflexivity|].
    split; [eassumption|]. split; [eassumption|].
    split; [eapply decoded_unit; eassumption | reflexivity].
Qed.

Lemma reextract_category_addons_single category_name page_number w w' o :
  reextract_category_addons call_openrouter convert_pdf_into_images
                            category_name page_number w = (w', o) ->
  single_unit backend_utils_model.CategoryItemAddons "category_addons"
              ("Re-extracted addons for category '" ++ category_name ++ "'") w w' o.
Proof.
  intros Hrun. split.
  - revert w w' o Hrun. change (quiet
      (reextract_category_addons call_openrouter convert_pdf_into_images
                                 category_name page_number)).
    unfold reextract_category_addons. quiet_handler.
  - intros response ->. unfold reextract_category_addons in Hrun. run_inv Hrun. same_world.
    eexists _, _, _. split; [simpl; rewrite <- app_assoc; reflexivity|].
    split; [eassumption|]. split; [eassumption|].
    split; [eapply decoded_unit; eassumption | reflexivity].
Qed.

(** C9. A partial re-extraction does not touch the stored artifacts. For
    each of the three PATCH handlers and every request
    [(category_name, page_number)]: whatever the outcome, every file is
    left exactly as it was, so the result is merged into no artifact and no
    other page's or category's stored data changes; and when the handler
    returns, it made exactly one call to the service, and what it returns
    is the dict [{"success": True, "message": ..., key: unit}] whose unit
    is the one validated instance of that call's answer: an object of
    exactly the fields its class declares. *)
Theorem reextraction_returns_one_unit_and_writes_nothing
    (category_name : string) (page_number : Z) (w w' : world) (o : outcome json) :
  (reextract_category_items call_openrouter convert_pdf_into_images
                            category_name page_number w = (w', o) ->
   single_unit backend_utils_model.CategorywithItems "category_items"
               ("Re-extracted items for category '" ++ category_name ++ "'") w w' o) /\
  (reextract_category_base call_openrouter convert_pdf_into_images
                           category_name page_number w = (w', o) ->
   single_unit backend_utils_model.CategoryBase "category_base"
               ("Re-extracted base for category '" ++ category_name ++ "'") w w' o) /\
  (reextract_category_addons call_openrouter convert_pdf_into_images
                             category_name page_number w = (w', o) ->
   single_unit backend_utils_model.CategoryItemAddons "category_addons"
               ("Re-extracted addons for category '" ++ category_name ++ "'") w w' o).
Proof.
  split; [apply reextract_category_items_single|].
  split; [apply reextract_category_base_single | apply reextract_category_addons_single].
Qed.

End BackendFacts.

(** ** The stored artifacts of the API *)

Section BackendStore.
Import Extractor Backend.
Context `{Scalars}.
Variable run_phase1 : json -> string -> prog json.
Variable run_phase2 : json -> json -> string -> prog json.
Variable run_phase3 : json -> json -> string -> prog json.
Variable run_phase4 : json -> json -> json -> string -> prog json.

Local Open Scope list_scope.

(** *** Required files *)

(** The detail of the error for a missing file. *)
Definition missing_detail (file_path : string) : string :=
  if String.eqb file_path UPLOADED_PDF_PATH
  then "PDF not found. Please upload PDF first."
  else ("Required file not found: " ++ name file_path
        ++ ". Please complete previous phases.")%string.

Lemma check_first_missing (present : list string) (p : string) (rest : list string)
    (w : world) :
  Forall (fun q => exists_ w q = true) present -> exists_ w p = false ->
  check_required_files (present ++ p :: rest) w
  = (w, Raised (HTTPException 400 (missing_detail p))).
Proof.
  induction 1 as [|q present Hq _ IH]; intros Hp; simpl.
  - rewrite Hp. simpl. unfold missing_detail.
    now destruct (String.eqb p UPLOADED_PDF_PATH).
  - rewrite Hq. simpl. now apply IH.
Qed.

(** [check_required_files] looks at the paths in the order given and
    stops at the first that does not exist: it returns, having changed
    nothing, exactly when every path exists; otherwise it raises the 400
    of the first missing path, whatever is missing after it, with the
    upload's own message when that path is the uploaded document. *)
Theorem check_required_files_reports_first_missing (paths : list string) (w : world) :
  (Forall (fun p => exists_ w p = true) paths /\
   check_required_files paths w = (w, Returned tt)) \/
  (exists present p rest,
     paths = present ++ p :: rest /\
     Forall (fun q => exists_ w q = true) present /\
     exists_ w p = false /\
     check_required_files paths w = (w, Raised (HTTPException 400 (missing_detail p)))).
Proof.
  induction paths as [|p paths IH].
  - left. split; [constructor | reflexivity].
  - destruct (exists_ w p) eqn:Hp.
    + destruct IH as [[Hall Hrun] | (present & q & rest & -> & Hpresent & Hq & Hrun)].
      * left. split; [now constructor|]. simpl. now rewrite Hp.
      * right. exists (p :: present), q, rest. split; [reflexivity|].
        split; [now constructor|]. split; [exact Hq|].
        simpl. rewrite Hp. exact Hrun.
    + right. exists [], p, paths. split; [reflexivity|]. split; [constructor|].
      split; [exact Hp|]. now apply (check_first_missing []).
Qed.

(** *** Saving *)

(** What a PUT leaves: no call to the service, and every file but its own
    as it was, whatever the outcome; on return, [data] under [path]. A PUT
    always resolves. *)
Definition wrote (path : string) (data : json) (w w' : world) (o : outcome json) : Prop :=
  journal w' = journal w /\
  (forall other, other <> path -> files w' !! other = files w !! other) /\
  (forall response, o = Returned response -> files w' !! path = Some (json_dumps data)) /\
  o <> Unresolved.

Lemma saved_on_return {X} (checks : result X) (path : string) (data response : json)
    (w w' : world) (r : json) :
  (_ ← lift checks; _ ← save_json_file path data; mret response) w = (w', Returned r) ->
  journal w' = journal w /\ files w' = <[path := json_dumps data]> (files w).
Proof.
  unfold mbind, prog_bind, lift. destruct checks as [e|x]; [discriminate|].
  simpl. intros [= <- _]. split; reflexivity.
Qed.

Lemma checked_then_saved {X} (checks : result X) (path : string) (data response : json)
    (w w' : world) (o : outcome json) :
  (_ ← lift checks; _ ← save_json_file path data; mret response) w = (w', o) ->
  wrote path data w w' o.
Proof.
  unfold mbind, prog_bind, lift. destruct checks as [e|x].
  - intros [= <- <-]. repeat split; try discriminate.
  - simpl. intros [= <- <-]. simpl. split; [reflexivity|]. split; [|split].
    + intros other Hne. now apply lookup_insert_ne.
    + intros _ _. apply lookup_insert_eq.
    + discriminate.
Qed.

(** The three PUT handlers touch one file. Whatever the outcome of a
    handler, it made no call to the service and left every file other than
    its own as it was; a handler that returns has put into its own file the
    payload as it was received (not its validated form). A PUT always
    resolves. *)
Theorem updates_touch_only_their_own_file :
  (forall p w w' o,
     update_phase1_categories p w = (w', o) ->
     wrote PHASE2_INPUT_REVIEWED (payload_dump p) w w' o) /\
  (forall p w w' o,
     update_phase2_items p w = (w', o) ->
     wrote PHASE2_FINAL_ITEMS (payload_dump p) w w' o) /\
  (forall p w w' o,
     update_phase3_bases p w = (w', o) ->
     wrote PHASE3_FINAL_BASES (JObj p) w w' o).
Proof.
  split; [|split]; intros p w w' o;
    unfold update_phase1_categories, update_phase2_items, update_phase3_bases;
    apply checked_then_saved.
Qed.

(** *** Refusing *)

Lemma mapM_first_failure {X Y} (f : X -> result Y) (good : list X) (bad : X)
    (rest : list X) (e : exn) :
  Forall (fun x => exists y, f x = inr y) good -> f bad = inl e ->
  mapM f (good ++ bad :: rest) = inl e.
Proof.
  induction 1 as [|x good [y Hy] _ IH]; intros Hbad; simpl.
  - now rewrite Hbad.
  - rewrite Hy. simpl. now rewrite IH.
Qed.

Lemma mapM_all_pass {X Y} (f : X -> result Y) (xs : list X) :
  Forall (fun x => exists y, f x = inr y) xs -> exists ys, mapM f xs = inr ys.
Proof.
  induction 1 as [|x xs [y Hy] _ [ys IH]]; simpl; [now exists []|].
  rewrite Hy. simpl. rewrite IH. simpl. eauto.
Qed.

(** A page of the Stage-1 payload that passes: it has [data], which
    validates as [Categories]. *)
Definition categories_page_ok (page : list (string * json)) : Prop :=
  exists data m, dict_get "data" page = Some data /\
                 validate backend_utils_model.Categories data = Some m.

(** A page of the Stage-2 payload that passes: it has [categories], a
    list every member of which validates as [CategorywithItems]. *)
Definition items_page_ok (page : list (string * json)) : Prop :=
  exists cats, dict_get "categories" page = Some (JArr cats) /\
               Forall (fun cat => exists m,
                         validate backend_utils_model.CategorywithItems cat = Some m) cats.

Lemma model_validate_inr cls obj m :
  validate cls obj = Some m -> model_validate cls obj = inr m.
Proof. unfold model_validate. now intros ->. Qed.

Lemma model_validate_inl cls obj :
  validate cls obj = None -> model_validate cls obj = inl ValidationError.
Proof. unfold model_validate. now intros ->. Qed.

(** The first page that does not pass decides how a PUT fails. A page
    without its key ([data] for the categories, [categories] for the
    items) is refused with the 400 "Invalid payload structure"; a page
    whose content does not validate lets pydantic's [ValidationError]
    through, which the client sees as a 500. Either way the handler
    stops there: nothing is written. *)
Theorem updates_refuse_at_the_first_bad_page (p : payload) (w : world) :
  (forall good page rest,
     pages p = good ++ page :: rest -> Forall categories_page_ok good ->
     (dict_get "data" page = None ->
      update_phase1_categories p w
      = (w, Raised (HTTPException 400 "Invalid payload structure"))) /\
     (forall data,
        dict_get "data" page = Some data ->
        validate backend_utils_model.Categories data = None ->
        update_phase1_categories p w = (w, Raised ValidationError) /\
        status_code (Raised (A:=json) ValidationError) = Some 500%Z)) /\
  (forall good page rest,
     pages p = good ++ page :: rest -> Forall items_page_ok good ->
     (dict_get "categories" page = None ->
      update_phase2_items p w
      = (w, Raised (HTTPException 400 "Invalid payload structure"))) /\
     (forall cats valid cat others,
        dict_get "categories" page = Some (JArr cats) ->
        cats = valid ++ cat :: others ->
        Forall (fun c => exists m,
                  validate backend_utils_model.CategorywithItems c = Some m) valid ->
        validate backend_utils_model.CategorywithItems cat = None ->
        update_phase2_items p w = (w, Raised ValidationError) /\
        status_code (Raised (A:=json) ValidationError) = Some 500%Z)).
Proof.
  assert (Hpage1 : forall page, categories_page_ok page ->
            exists y,
              (if negb (dict_contains "data" page)
               then raise (HTTPException 400 "Invalid payload structure")
               else data ← Py.getitem (JObj page) "data";
                    model_validate backend_utils_model.Categories data) = inr y).
  { intros page (data & m & Hdata & Hm). exists m.
    unfold dict_contains, Py.getitem. rewrite Hdata. simpl.
    now apply model_validate_inr. }
  assert (Hcats : forall cats,
            Forall (fun c => exists m,
                      validate backend_utils_model.CategorywithItems c = Some m) cats ->
            Forall (fun c => exists y,
                      model_validate backend_utils_model.CategorywithItems c = inr y) cats).
  { intros cats Hall. eapply Forall_impl; [exact Hall|].
    intros c [m Hm]. exists m. now apply model_validate_inr. }
  assert (Hpage2 : forall page, items_page_ok page ->
            exists y,
              (if negb (dict_contains "categories" page)
               then raise (HTTPException 400 "Invalid payload structure")
               else cats ← Py.getitem (JObj page) "categories";
                    cats ← Py.iter cats;
                    mapM (model_validate backend_utils_model.CategorywithItems) cats)
              = inr y).
  { intros page (cats & Hcs & Hall).
    unfold dict_contains, Py.getitem. rewrite Hcs. simpl.
    apply mapM_all_pass. now apply Hcats. }
  split.
  - intros good page rest Hpages Hgood. split.
    + intros Hno. unfold update_phase1_categories. rewrite Hpages.
      erewrite mapM_first_failure; [reflexivity | |].
      * eapply Forall_impl; [exact Hgood | exact Hpage1].
      * unfold dict_contains. rewrite Hno. reflexivity.
    + intros data Hdata Hbad. split; [|reflexivity].
      unfold update_phase1_categories. rewrite Hpages.
      erewrite mapM_first_failure; [reflexivity | |].
      * eapply Forall_impl; [exact Hgood | exact Hpage1].
      * unfold dict_contains, Py.getitem. rewrite Hdata. simpl.
        now apply model_validate_inl.
  - intros good page rest Hpages Hgood. split.
    + intros Hno. unfold update_phase2_items. rewrite Hpages.
      erewrite mapM_first_failure; [reflexivity | |].
      * eapply Forall_impl; [exact Hgood | exact Hpage2].
      * unfold dict_contains. rewrite Hno. reflexivity.
    + intros cats valid cat others Hcs -> Hvalid Hbad. split; [|reflexivity].
      unfold update_phase2_items. rewrite Hpages.
      erewrite mapM_first_failure; [reflexivity | |].
      * eapply Forall_impl; [exact Hgood | exact Hpage2].
      * unfold dict_contains, Py.getitem. rewrite Hcs. simpl.
        apply mapM_first_failure; [now apply Hcats | now apply model_validate_inl].
Qed.

(** *** Serving *)

Lemma load_saved (path message : string) (data : json) (w : world) :
  files w !! path = Some (json_dumps data) ->
  load_json_file path message w = (w, Returned data).
Proof. unfold load_json_file. now intros ->. Qed.

(** The answer of a GET endpoint that found its file. *)
Definition served (data : json) : json := JObj [("success", JBool true); ("data", data)].

(** What is saved is what is served. After a PUT of the items or of the
    bases has returned, the GET endpoint of the same stage serves the
    payload that was put; and after the POST of Stage 1 has returned, the
    GET endpoint of Stage 1 serves the result the POST handed back,
    whatever the runner did to produce it. *)
Theorem saved_data_is_served_back :
  (forall p w w' response,
     update_phase2_items p w = (w', Returned response) ->
     get_phase2_items w' = (w', Returned (served (payload_dump p)))) /\
  (forall p w w' response,
     update_phase3_bases p w = (w', Returned response) ->
     get_phase3_bases w' = (w', Returned (served (JObj p)))) /\
  (forall restaurant_name pdf_bytes w w' response,
     extract_categories run_phase1 restaurant_name pdf_bytes w = (w', Returned response) ->
     exists result,
       response = JObj [("success", JBool true); ("phase1_result", result)] /\
       get_phase1_categories w' = (w', Returned (served result))).
Proof.
  split; [|split].
  - intros p w w' response Hput.
    unfold update_phase2_items in Hput. apply saved_on_return in Hput as [_ Hf].
    unfold get_phase2_items, mbind, prog_bind.
    rewrite (load_saved _ _ (payload_dump p)); [reflexivity|].
    rewrite Hf. apply lookup_insert_eq.
  - intros p w w' response Hput.
    unfold update_phase3_bases in Hput. apply saved_on_return in Hput as [_ Hf].
    unfold get_phase3_bases, mbind, prog_bind.
    rewrite (load_saved _ _ (JObj p)); [reflexivity|].
    rewrite Hf. apply lookup_insert_eq.
  - intros restaurant_name pdf_bytes w w' response Hrun.
    unfold extract_categories in Hrun. run_inv Hrun.
    match goal with
    | Hs : save_json_file _ ?r _ = _ |- _ =>
        exists r; split; [reflexivity|];
        unfold save_json_file, write_text in Hs; injection Hs as <-
    end.
    unfold get_phase1_categories, mbind, prog_bind.
    erewrite load_saved; [reflexivity|]. simpl. apply lookup_insert_eq.
Qed.

(** The edited categories are kept apart. The PUT of Stage 1 saves the
    payload under [reviewed_categories.json], which is the file the POST
    and the PATCH of Stage 2 read, and leaves the raw Stage-1 output
    alone: after it, each of the four GET endpoints answers what it
    answered before, so the saved edit is served by none of them. *)
Theorem reviewed_categories_are_not_served (p : payload) (w w' : world) (response : json) :
  update_phase1_categories p w = (w', Returned response) ->
  load_json_file PHASE2_INPUT_REVIEWED "No reviewed categories found." w'
  = (w', Returned (payload_dump p)) /\
  snd (get_phase1_categories w') = snd (get_phase1_categories w) /\
  snd (get_phase2_items w') = snd (get_phase2_items w) /\
  snd (get_phase3_bases w') = snd (get_phase3_bases w) /\
  snd (get_phase4_addons w') = snd (get_phase4_addons w).
Proof.
  intros Hput.
  unfold update_phase1_categories in Hput. apply saved_on_return in Hput as [_ Hf].
  split.
  - apply load_saved. rewrite Hf. apply lookup_insert_eq.
  - assert (Hget : forall path message,
              path <> PHASE2_INPUT_REVIEWED ->
              snd ((data ← load_json_file path message; mret (served data)) w')
              = snd ((data ← load_json_file path message; mret (served data)) w)).
    { intros path message Hne. unfold mbind, prog_bind, load_json_file.
      rewrite Hf, lookup_insert_ne by congruence.
      destruct (files w !! path) as [t|]; [destruct (json_loads t)|]; reflexivity. }
    repeat split; apply Hget; discriminate.
Qed.

(** *** Extracting *)

(** The handler hands its work to the runner: it has found its inputs,
    and answers with the runner's result under [key]. *)
Definition delegated (key message : string) (run : prog json) (w : world)
    (handler : prog json) : Prop :=
  handler w = (result ← run; mret (success message key result)) w.

Lemma load_cases (path message : string) (w : world) :
  (exists e, load_json_file path message w = (w, Raised e)) \/
  (exists data, files w !! path = Some (JsonText data) /\
                load_json_file path message w = (w, Returned data)).
Proof.
  unfold load_json_file. destruct (files w !! path) as [[data|s]|]; simpl; eauto.
Qed.

Lemma check_cases (paths : list string) (w : world) :
  (exists e, check_required_files paths w = (w, Raised e)) \/
  (Forall (fun p => exists_ w p = true) paths /\
   check_required_files paths w = (w, Returned tt)).
Proof.
  induction paths as [|p paths IH]; simpl.
  - right. split; [constructor | reflexivity].
  - destruct (exists_ w p) eqn:Hp; simpl.
    + destruct IH as [IH | [Hall IH]]; [now left|]. right. split; [now constructor | exact IH].
    + left. destruct (String.eqb p UPLOADED_PDF_PATH); eauto.
Qed.

(** The POST handlers look before they run. An empty upload is refused
    with a 400 before anything is written. And each of the handlers of
    Stages 2, 3 and 4 either raises with the world as it was, the runner
    not having been called, or has found every file it requires, the
    stored artifacts parsed and the restaurant name in the first of them,
    and then does what the runner does with exactly those, adding nothing
    but the envelope of its answer. *)
Theorem extraction_endpoints_look_before_they_run (w : world) :
  (forall restaurant_name,
     extract_categories run_phase1 restaurant_name "" w
     = (w, Raised (HTTPException 400 "Empty PDF file"))) /\
  ((exists e, extract_items run_phase2 w = (w, Raised e)) \/
   (exists reviewed restaurant,
      files w !! PHASE2_INPUT_REVIEWED = Some (JsonText reviewed) /\
      exists_ w UPLOADED_PDF_PATH = true /\
      Py.getitem reviewed "restaurant_name" = inr restaurant /\
      delegated "phase2_result" "Item list extraction complete"
                (run_phase2 restaurant reviewed UPLOADED_PDF_PATH) w
                (extract_items run_phase2))) /\
  ((exists e, extract_bases run_phase3 w = (w, Raised e)) \/
   (exists items restaurant,
      files w !! PHASE2_FINAL_ITEMS = Some (JsonText items) /\
      exists_ w UPLOADED_PDF_PATH = true /\
      Py.getitem items "restaurant_name" = inr restaurant /\
      delegated "phase3_result" "Category bases extraction complete"
                (run_phase3 restaurant items UPLOADED_PDF_PATH) w
                (extract_bases run_phase3))) /\
  ((exists e, extract_addons run_phase4 w = (w, Raised e)) \/
   (exists items bases restaurant,
      files w !! PHASE2_FINAL_ITEMS = Some (JsonText items) /\
      files w !! PHASE3_FINAL_BASES = Some (JsonText bases) /\
      exists_ w UPLOADED_PDF_PATH = true /\
      Py.getitem items "restaurant_name" = inr restaurant /\
      delegated "phase4_result" "Items with addons extraction complete"
                (run_phase4 restaurant items bases UPLOADED_PDF_PATH) w
                (extract_addons run_phase4))).
Proof.
  split; [reflexivity|]. split; [|split].
  - unfold extract_items, delegated.
    destruct (check_cases [PHASE2_INPUT_REVIEWED; UPLOADED_PDF_PATH] w)
      as [[e He] | [Hall He]];
      [left; exists e; now rewrite (bind_raised_eq _ _ _ _ _ He)|].
    rewrite (bind_returned_eq _ _ _ _ _ He).
    destruct (load_cases PHASE2_INPUT_REVIEWED "No reviewed categories found." w)
      as [[e Hl] | (reviewed & Hfile & Hl)];
      [left; exists e; now rewrite (bind_raised_eq _ _ _ _ _ Hl)|].
    rewrite (bind_returned_eq _ _ _ _ _ Hl).
    destruct (Py.getitem reviewed "restaurant_name") as [e|restaurant] eqn:Hname;
      [left; exists e; reflexivity|].
    right. exists reviewed, restaurant. repeat split; try assumption.
    inversion Hall as [|? ? _ Hrest]; subst. now inversion Hrest.
  - unfold extract_bases, delegated.
    destruct (check_cases [PHASE2_FINAL_ITEMS; UPLOADED_PDF_PATH] w)
      as [[e He] | [Hall He]];
      [left; exists e; now rewrite (bind_raised_eq _ _ _ _ _ He)|].
    rewrite (bind_returned_eq _ _ _ _ _ He).
    destruct (load_cases PHASE2_FINAL_ITEMS "No items found." w)
      as [[e Hl] | (items & Hfile & Hl)];
      [left; exists e; now rewrite (bind_raised_eq _ _ _ _ _ Hl)|].
    rewrite (bind_returned_eq _ _ _ _ _ Hl).
    destruct (Py.getitem items "restaurant_name") as [e|restaurant] eqn:Hname;
      [left; exists e; reflexivity|].
    right. exists items, restaurant. repeat split; try assumption.
    inversion Hall as [|? ? _ Hrest]; subst. now inversion Hrest.
  - unfold extract_addons, delegated.
    destruct (check_cases [PHASE2_FINAL_ITEMS; PHASE3_FINAL_BASES; UPLOADED_PDF_PATH] w)
      as [[e He] | [Hall He]];
      [left; exists e; now rewrite (bind_raised_eq _ _ _ _ _ He)|].
    rewrite (bind_returned_eq _ _ _ _ _ He).
    destruct (load_cases PHASE2_FINAL_ITEMS "No items found." w)
      as [[e Hl] | (items & Hfile & Hl)];
      [left; exists e; now rewrite (bind_raised_eq _ _ _ _ _ Hl)|].
    rewrite (bind_returned_eq _ _ _ _ _ Hl).
    destruct (load_cases PHASE3_FINAL_BASES "No bases found." w)
      as [[e Hl'] | (bases & Hfile' & Hl')];
      [left; exists e; now rewrite (bind_raised_eq _ _ _ _ _ Hl')|].
    rewrite (bind_returned_eq _ _ _ _ _ Hl').
    destruct (Py.getitem items "restaurant_name") as [e|restaurant] eqn:Hname;
      [left; exists e; reflexivity|].
    right. exists items, bases, restaurant. repeat split; try assumption.
    inversion Hall as [|? ? _ Hrest]; subst. inversion Hrest as [|? ? _ Hrest']; subst.
    now inversion Hrest'.
Qed.

End BackendStore.

(** ** The command line *)

Section CliFacts.
Import Extractor Cli.
Context `{Scalars}.
Variable MAX_CONCURRENCY : Z.
Variable images : result (list string).
Variable call_openrouter : nat -> request -> Executor.coro response.
Variable event_loop : nat -> list nat.

Local Open Scope list_scope.

Abbreviation main := (main MAX_CONCURRENCY images call_openrouter event_loop).
Abbreviation run_phase1 := (run_phase1 MAX_CONCURRENCY images call_openrouter event_loop).
Abbreviation run_phase2 := (run_phase2 MAX_CONCURRENCY images call_openrouter event_loop).
Abbreviation run_phase3 := (run_phase3 MAX_CONCURRENCY images call_openrouter event_loop).
Abbreviation run_phase4 := (run_phase4 MAX_CONCURRENCY images call_openrouter event_loop).

Lemma load_file_written (path : string) (data : json) (w : world) :
  files w !! path = Some (json_dumps data) -> load_file path w = Some (inr data).
Proof. unfold load_file. now intros ->. Qed.

Lemma artifact_paths_differ :
  Config.CATEGORIES_FILE <> Config.ITEMS_FILE /\
  Config.CATEGORY_BASES_FILE <> Config.ITEMS_FILE /\
  Config.ITEMS_ADDONS_FILE <> Config.ITEMS_FILE /\
  Config.CATEGORY_BASES_FILE <> Config.CATEGORIES_FILE.
Proof. repeat split; vm_compute; discriminate. Qed.

(** The phases of the command line are chained through the files. Once
    Stage 1 has returned, the command line's phase 2 runs Stage 2 on
    exactly what Stage 1 returned; once Stage 2 has returned, phase 3
    runs Stage 3 on what Stage 2 returned; and once Stage 3 has returned
    after it, phase 4 runs Stage 4 on what the two returned: a later stage
    overwrites no earlier artifact. The restaurant name is the one typed
    at the prompt, stripped, not the one in the file. *)
Theorem cli_phases_read_what_the_previous_wrote (line1 line2 : string) :
  (forall name1 w w1 out1,
     run_phase1 name1 w = (w1, Returned out1) ->
     Config.int (Config.strip line2) = inr 2%Z ->
     main line1 line2 w1
     = report Config.ITEMS_FILE (run_phase2 (Config.strip line1) out1 w1)) /\
  (forall name2 payload w w1 out2,
     run_phase2 name2 payload w = (w1, Returned out2) ->
     Config.int (Config.strip line2) = inr 3%Z ->
     main line1 line2 w1
     = report Config.CATEGORY_BASES_FILE (run_phase3 (Config.strip line1) out2 w1)) /\
  (forall name2 name3 payload w w1 w2 out2 out3,
     run_phase2 name2 payload w = (w1, Returned out2) ->
     run_phase3 name3 out2 w1 = (w2, Returned out3) ->
     Config.int (Config.strip line2) = inr 4%Z ->
     main line1 line2 w2
     = report Config.ITEMS_ADDONS_FILE (run_phase4 (Config.strip line1) out2 out3 w2)).
Proof.
  destruct artifact_paths_differ as (H12 & H32 & H42 & H31).
  split; [|split].
  - intros name1 w w1 out1 Hrun Hphase.
    apply run_phase1_all_or_nothing in Hrun as [Hf _].
    unfold Cli.main. rewrite Hphase. simpl.
    unfold load_categories_file.
    rewrite (load_file_written _ out1); [reflexivity|].
    rewrite Hf. apply lookup_insert_eq.
  - intros name2 payload w w1 out2 Hrun Hphase.
    apply run_phase2_all_or_nothing in Hrun as [Hf _].
    unfold Cli.main. rewrite Hphase. simpl.
    unfold load_items_file.
    rewrite (load_file_written _ out2); [reflexivity|].
    rewrite Hf. apply lookup_insert_eq.
  - intros name2 name3 payload w w1 w2 out2 out3 Hrun2 Hrun3 Hphase.
    apply run_phase2_all_or_nothing in Hrun2 as [Hf2 _].
    apply run_phase3_all_or_nothing in Hrun3 as [Hf3 _].
    unfold Cli.main. rewrite Hphase. simpl.
    unfold load_items_file, load_category_bases_file.
    rewrite (load_file_written _ out2), (load_file_written _ out3); [reflexivity | |].
    + rewrite Hf3. apply lookup_insert_eq.
    + rewrite Hf3, lookup_insert_ne by exact H32. rewrite Hf2. apply lookup_insert_eq.
Qed.

(** What the command line refuses, it refuses before anything runs. A
    phase that is no integer, or an integer other than 1 to 4, ends in a
    [ValueError]; a phase whose input artifact is not on disk ends in
    [FileNotFoundError] for that file (phase 4 looking for the items
    first); in each case no batch has been submitted and no file
    written. *)
Theorem cli_stops_before_running (line1 line2 : string) (w : world) :
  (forall e,
     Config.int (Config.strip line2) = inl e ->
     main line1 line2 w = (w, prompts, Traceback e)) /\
  (forall phase,
     Config.int (Config.strip line2) = inr phase -> (phase < 1 \/ 4 < phase)%Z ->
     main line1 line2 w
     = (w, prompts, Traceback (ValueError "Phase must be 1, 2, 3, or 4."))) /\
  (Config.int (Config.strip line2) = inr 2%Z ->
   files w !! Config.CATEGORIES_FILE = None ->
   main line1 line2 w = (w, prompts, FileNotFoundError Config.CATEGORIES_FILE)) /\
  (Config.int (Config.strip line2) = inr 3%Z ->
   files w !! Config.ITEMS_FILE = None ->
   main line1 line2 w = (w, prompts, FileNotFoundError Config.ITEMS_FILE)) /\
  (Config.int (Config.strip line2) = inr 4%Z ->
   (files w !! Config.ITEMS_FILE = None ->
    main line1 line2 w = (w, prompts, FileNotFoundError Config.ITEMS_FILE)) /\
   (forall items,
      files w !! Config.ITEMS_FILE = Some (JsonText items) ->
      files w !! Config.CATEGORY_BASES_FILE = None ->
      main line1 line2 w = (w, prompts, FileNotFoundError Config.CATEGORY_BASES_FILE))).
Proof.
  unfold Cli.main. split; [|split; [|split; [|split]]].
  - intros e ->. reflexivity.
  - intros phase -> Hout.
    replace (phase =? 1)%Z with false by (symmetry; apply Z.eqb_neq; lia).
    replace (phase =? 2)%Z with false by (symmetry; apply Z.eqb_neq; lia).
    replace (phase =? 3)%Z with false by (symmetry; apply Z.eqb_neq; lia).
    replace (phase =? 4)%Z with false by (symmetry; apply Z.eqb_neq; lia).
    reflexivity.
  - intros -> Hno. simpl. unfold load_categories_file, load_file. now rewrite Hno.
  - intros -> Hno. simpl. unfold load_items_file, load_file. now rewrite Hno.
  - intros ->. simpl. unfold load_items_file, load_category_bases_file, load_file. split.
    + intros Hno. now rewrite Hno.
    + intros items Hitems Hno. now rewrite Hitems, Hno.
Qed.

End CliFacts.

(** ** The Streamlit session *)

Section StreamlitFacts.
Import Extractor Streamlit.
Variable execute_phase1 : json -> outcome json.
Variable execute_phase2 : json -> json -> outcome json.
Variable execute_phase3 : json -> json -> outcome json.
Variable execute_phase4 : json -> json -> json -> outcome json.

Abbreviation main_run := (main_run execute_phase1 execute_phase2 execute_phase3 execute_phase4).
Abbreviation execute := (execute execute_phase1 execute_phase2 execute_phase3 execute_phase4).

Lemma pop_all_None (keys : list string) (st : gmap string json) (k : string) :
  st !! k = None -> pop_all keys st !! k = None.
Proof.
  unfold pop_all. revert st. induction keys as [|k0 keys IH]; intros st Hk; simpl; [assumption|].
  apply IH. rewrite lookup_delete. case_decide; [reflexivity | assumption].
Qed.

Lemma pop_all_In (keys : list string) (st : gmap string json) (k : string) :
  In k keys -> pop_all keys st !! k = None.
Proof.
  revert st. induction keys as [|k0 keys IH]; intros st; [intros []|].
  intros [->|Hin]; [|now apply IH].
  change (pop_all (k :: keys) st) with (pop_all keys (delete k st)).
  apply pop_all_None, lookup_delete_eq.
Qed.

Lemma pop_all_notin (keys : list string) (st : gmap string json) (k : string) :
  ~ In k keys -> pop_all keys st !! k = st !! k.
Proof.
  revert st. induction keys as [|k0 keys IH]; intros st Hout; [reflexivity|].
  change (pop_all (k0 :: keys) st) with (pop_all keys (delete k0 st)).
  rewrite IH by (intros Hin; apply Hout; now right).
  apply lookup_delete_ne. intros ->. apply Hout. now left.
Qed.

(** The keys a stage clears are the results of the later stages. *)
Lemma downstream_keys_later (k k' : stage) :
  stage_number k < stage_number k' <-> In (result_key k') (downstream_keys k).
Proof.
  destruct k, k'; simpl; split; intros Hlt; try lia; try tauto;
    repeat (destruct Hlt as [Hlt|Hlt]; try discriminate Hlt); try destruct Hlt.
Qed.

Lemma own_key_kept (k : stage) : ~ In (result_key k) (downstream_keys k).
Proof. intros Hin. apply downstream_keys_later in Hin. lia. Qed.

Lemma cleared (k : stage) (v : json) (st : gmap string json) :
  let st' := pop_all (downstream_keys k) (<[result_key k := v]> st) in
  st' !! result_key k = Some v /\
  forall k', stage_number k < stage_number k' -> st' !! result_key k' = None.
Proof.
  intros st'. split.
  - unfold st'. rewrite pop_all_notin by apply own_key_kept. apply lookup_insert_eq.
  - intros k' Hlt. apply pop_all_In. now apply downstream_keys_later.
Qed.

Lemma missing_None (st : gmap string json) (key : string) :
  st !! key = None -> missing st key = true.
Proof. intros Hk. unfold missing, get. now rewrite Hk. Qed.

(** The invalidation cascade of the Streamlit app. Applying an edit to the
    result of stage [k], or running stage [k] to its end, stores the new
    result and removes the stored result of every later stage. And a stage
    whose input is missing cannot be run: its button is disabled, so
    pressing it changes nothing; in particular Stage 4 cannot run while the
    Stage-3 result is missing. *)
Theorem streamlit_clears_downstream (k : stage) (st : gmap string json) :
  (forall text_area parsed,
     json_loads text_area = inr parsed -> missing st (result_key k) = false ->
     let st' := main_edit k text_area true st in
     st' !! result_key k = Some parsed /\
     forall k', stage_number k < stage_number k' -> st' !! result_key k' = None) /\
  (forall result,
     disabled k st = false -> execute k st = inr (Returned result) ->
     let st' := main_run k st in
     st' !! result_key k = Some result /\
     forall k', stage_number k < stage_number k' -> st' !! result_key k' = None) /\
  (st !! "phase1_result" = None -> main_run Stage2 st = st) /\
  (st !! "phase2_result" = None -> main_run Stage3 st = st /\ main_run Stage4 st = st) /\
  (st !! "phase3_result" = None -> main_run Stage4 st = st).
Proof.
  split; [|split; [|split; [|split]]].
  - intros text_area parsed Hparsed Hthere st'. unfold st', main_edit, _editable_json.
    rewrite Hthere. unfold missing in Hthere.
    destruct (get st (result_key k)); [|discriminate]. rewrite Hparsed. simpl.
    apply cleared.
  - intros result Hen Hrun st'. unfold st', Streamlit.main_run. rewrite Hen, Hrun.
    apply cleared.
  - intros Hk. unfold Streamlit.main_run, disabled.
    rewrite (missing_None _ _ Hk), orb_true_r. reflexivity.
  - intros Hk. unfold Streamlit.main_run, disabled.
    rewrite (missing_None _ _ Hk), !orb_true_r. simpl. split; reflexivity.
  - intros Hk. unfold Streamlit.main_run, disabled.
    rewrite (missing_None _ _ Hk), !orb_true_r. reflexivity.
Qed.

End StreamlitFacts.

(** ** The Streamlit app: upload, editor, executors *)

Section StreamlitUpload.
Import Extractor Streamlit.
Local Open Scope list_scope.

Lemma get_insert (st : gmap string json) (key : string) (v : json) :
  v <> JNull -> get (<[key := v]> st) key = Some v.
Proof. intros Hv. unfold get. rewrite lookup_insert_eq. now destruct v. Qed.

Lemma token_same (st : gmap string json) (name pdf_bytes other : string) :
  String.length other = String.length pdf_bytes ->
  token_differs (get (<["pdf_token" := token name pdf_bytes]> st) "pdf_token") name other
  = false.
Proof.
  intros Hlen. rewrite get_insert by discriminate. unfold token, token_differs.
  now rewrite String.eqb_refl, Hlen, Z.eqb_refl.
Qed.

(** The upload is converted once per token, and the token is the name of
    the file and the number of its bytes. With the stored token, nothing
    happens. With a new token and a conversion that returns, the token
    and the images are stored and the results of all four stages are
    cleared, every other key being left as it was. With a new token and a
    conversion that raises, the token alone has been stored: the images
    and the results of the document before stay in place, and the next
    pass over the same file, or over any file of the same name and size,
    does nothing, so the document is not converted again. *)
Theorem upload_is_converted_once_per_token
    (convert_pdf_into_images : string -> result (list string))
    (name pdf_bytes : string) (st : gmap string json) :
  main_upload convert_pdf_into_images None st = (st, ret tt) /\
  (token_differs (get st "pdf_token") name pdf_bytes = false ->
   main_upload convert_pdf_into_images (Some (name, pdf_bytes)) st = (st, ret tt)) /\
  (forall images,
     token_differs (get st "pdf_token") name pdf_bytes = true ->
     convert_pdf_into_images pdf_bytes = inr images ->
     exists st',
       main_upload convert_pdf_into_images (Some (name, pdf_bytes)) st = (st', ret tt) /\
       st' !! "pdf_token" = Some (token name pdf_bytes) /\
       st' !! "base64_images" = Some (JArr (map JStr images)) /\
       (forall k, st' !! result_key k = None) /\
       (forall key, key <> "pdf_token" -> key <> "base64_images" -> ~ In key result_keys ->
                    st' !! key = st !! key)) /\
  (forall e,
     token_differs (get st "pdf_token") name pdf_bytes = true ->
     convert_pdf_into_images pdf_bytes = inl e ->
     let st' := <["pdf_token" := token name pdf_bytes]> st in
     main_upload convert_pdf_into_images (Some (name, pdf_bytes)) st = (st', raise e) /\
     forall convert other,
       String.length other = String.length pdf_bytes ->
       main_upload convert (Some (name, other)) st' = (st', ret tt)).
Proof.
  split; [reflexivity|]. split; [|split].
  - intros Hsame. unfold main_upload. now rewrite Hsame.
  - intros images Hnew Hconv. unfold main_upload. rewrite Hnew, Hconv.
    eexists. split; [reflexivity|]. split; [|split; [|split]].
    + rewrite pop_all_notin by (simpl; intros [E|[E|[E|[E|[]]]]]; discriminate E).
      rewrite lookup_insert_ne by discriminate. apply lookup_insert_eq.
    + rewrite pop_all_notin by (simpl; intros [E|[E|[E|[E|[]]]]]; discriminate E).
      apply lookup_insert_eq.
    + intros k. apply pop_all_In. destruct k; simpl; tauto.
    + intros key Htoken Himages Hresult. rewrite pop_all_notin by exact Hresult.
      rewrite !lookup_insert_ne by congruence. reflexivity.
  - intros e Hnew Hconv st'. unfold main_upload at 1. rewrite Hnew, Hconv.
    split; [reflexivity|]. intros convert other Hlen. unfold main_upload, st'.
    now rewrite token_same.
Qed.

(** *** The editor at its edges *)

(** The editor changes the session only through a pressed "Apply" and a
    text that parses: without the press, or with a text that is no JSON,
    the session stays as it is. It stores whatever document parses: after
    a document that counts as false ([null], [false], [0], [""], [[]],
    [{}]) the stage counts as not run, the results after it are cleared,
    the button of the next stage is disabled, and the stage's editor is
    gone, being shown only for a result that counts as true. *)
Theorem editor_stores_any_document (k : stage) (st : gmap string json) :
  (forall text_area, main_edit k text_area false st = st) /\
  (forall text_area e, json_loads text_area = inl e -> main_edit k text_area true st = st) /\
  (forall text_area doc,
     missing st (result_key k) = false ->
     json_loads text_area = inr doc -> Py.truthy doc = false ->
     let st' := main_edit k text_area true st in
     st' !! result_key k = Some doc /\
     missing st' (result_key k) = true /\
     (forall k', stage_number k < stage_number k' -> st' !! result_key k' = None) /\
     (forall k', stage_number k' = S (stage_number k) -> disabled k' st' = true) /\
     (forall text_area' clicked, main_edit k text_area' clicked st' = st')).
Proof.
  split; [|split].
  - intros text_area. unfold main_edit, _editable_json.
    destruct (missing st (result_key k)); [reflexivity|].
    now destruct (get st (result_key k)).
  - intros text_area e Hbad. unfold main_edit, _editable_json.
    destruct (missing st (result_key k)); [reflexivity|].
    destruct (get st (result_key k)); [|reflexivity]. now rewrite Hbad.
  - intros text_area doc Hthere Hdoc Hfalsy st'.
    assert (Hst' : st' = pop_all (downstream_keys k) (<[result_key k := doc]> st)).
    { unfold st', main_edit, _editable_json. rewrite Hthere.
      unfold missing in Hthere. destruct (get st (result_key k)); [|discriminate].
      now rewrite Hdoc. }
    destruct (cleared k doc st) as [Hown Hlater]. rewrite <- Hst' in Hown, Hlater.
    assert (Hmissing : missing st' (result_key k) = true).
    { unfold missing, get. rewrite Hown. destruct doc; try reflexivity; now rewrite Hfalsy. }
    split; [exact Hown|]. split; [exact Hmissing|]. split; [exact Hlater|]. split.
    + intros k' Hnext. unfold disabled.
      destruct k, k'; simpl in Hnext; try lia; simpl in Hmissing;
        rewrite Hmissing, ?orb_true_r; reflexivity.
    + intros text_area' clicked. unfold main_edit. now rewrite Hmissing.
Qed.

End StreamlitUpload.

(** *** The executors and the runners *)

Section StreamlitExecutors.
Import Extractor Streamlit Client.
Context `{Scalars}.
Variable environ : gmap string string.
Variable call_llm : AsyncOpenAI -> string -> nat -> request -> Executor.coro response.
Variable event_loop : nat -> list nat.

Local Open Scope list_scope.

(** [a] does what [b] does, except that it writes no file: from every
    world the two end alike, with the same journal, and [a] leaves the
    files as they were. *)
Definition without_the_file (a b : prog json) : Prop :=
  forall w,
    snd (a w) = snd (b w) /\
    journal (fst (a w)) = journal (fst (b w)) /\
    files (fst (a w)) = files w.

Lemma without_the_file_bind {X} (m : prog X) (ka kb : X -> prog json) :
  quiet m -> (forall x, without_the_file (ka x) (kb x)) ->
  without_the_file (m ≫= ka) (m ≫= kb).
Proof.
  intros Hm Hk w. unfold mbind, prog_bind.
  destruct (m w) as [w1 [x| e |]] eqn:Hrun; pose proof (Hm _ _ _ Hrun) as Hf.
  - destruct (Hk x w1) as (Ho & Hj & Hfiles). rewrite Hfiles. auto.
  - simpl. auto.
  - simpl. auto.
Qed.

Lemma without_the_file_persist (path : string) (output : json) :
  without_the_file (mret output) (write_text path output ≫= fun _ => mret output).
Proof. intros w. repeat split. Qed.

(** An executor that found its client runs [body]; one that did not
    raises what [get_client] raised, having created no coroutine. *)
Definition executes (service : string) (executor : failure + prog json)
    (runner : AsyncOpenAI -> prog json) : Prop :=
  match get_client environ service with
  | inl e => executor = inl e
  | inr client => exists body, executor = inr body /\ without_the_file body (runner client)
  end.

(** The executors of the Streamlit app are the runners of the command
    line without the file. Given its client, each [execute_phaseN] ends
    as [run_phaseN] ends on the same images with the limit 4 and the same
    service, leaving the same journal of batches, and writes nothing;
    without a client (key unset or empty, or unknown service) it raises
    before any call is made. *)
Theorem executors_are_the_runners_without_the_file
    (service model restaurant_name : string) (base64_images : list string) :
  executes service
    (execute_phase1 environ call_llm event_loop service model restaurant_name base64_images)
    (fun client =>
       run_phase1 4 (inr base64_images) (call_llm client model) event_loop restaurant_name) /\
  (forall categories_payload,
     executes service
       (execute_phase2 environ call_llm event_loop service model restaurant_name
                       base64_images categories_payload)
       (fun client =>
          run_phase2 4 (inr base64_images) (call_llm client model) event_loop
                     restaurant_name categories_payload)) /\
  (forall items_payload,
     executes service
       (execute_phase3 environ call_llm event_loop service model restaurant_name
                       base64_images items_payload)
       (fun client =>
          run_phase3 4 (inr base64_images) (call_llm client model) event_loop
                     restaurant_name items_payload)) /\
  (forall items_payload category_bases_payload,
     executes service
       (execute_phase4 environ call_llm event_loop service model restaurant_name
                       base64_images items_payload category_bases_payload)
       (fun client =>
          run_phase4 4 (inr base64_images) (call_llm client model) event_loop
                     restaurant_name items_payload category_bases_payload)).
Proof.
  unfold executes, execute_phase1, execute_phase2, execute_phase3, execute_phase4.
  destruct (get_client environ service) as [e|client]; [repeat split|].
  split; [|split; [|split]].
  - eexists. split; [reflexivity|].
    unfold run_phase1. intros w. rewrite bind_lift_inr. revert w.
    apply without_the_file_bind; [apply quiet_extract|]. intros results.
    apply without_the_file_persist.
  - intros categories_payload. eexists. split; [reflexivity|].
    unfold run_phase2. intros w. rewrite bind_lift_inr. revert w.
    apply without_the_file_bind; [apply quiet_lift|]. intros pages.
    apply without_the_file_bind;
      [apply quiet_mapM; intros page; apply quiet_phase2_page|].
    intros all_pages_out. apply without_the_file_persist.
  - intros items_payload. eexists. split; [reflexivity|].
    unfold run_phase3. intros w. rewrite bind_lift_inr. revert w.
    apply without_the_file_bind; [apply quiet_lift|]. intros pages.
    apply without_the_file_bind;
      [apply quiet_mapM; intros page; apply quiet_phase3_page|].
    intros all_pages_out. apply without_the_file_persist.
  - intros items_payload category_bases_payload. eexists. split; [reflexivity|].
    unfold run_phase4. intros w. rewrite bind_lift_inr. revert w.
    apply without_the_file_bind; [apply quiet_lift|]. intros pages.
    apply without_the_file_bind; [apply quiet_lift|]. intros pages_base.
    apply without_the_file_bind; [apply quiet_lift|]. intros pairs.
    apply without_the_file_bind;
      [apply quiet_mapM; intros pair; apply quiet_phase4_page|].
    intros all_pages_out. apply without_the_file_persist.
Qed.

End StreamlitExecutors.

(** ** The clients *)

Section ClientFacts.
Import Client.

Lemma with_key_inr environ key service url client :
  with_key environ key service url = inr client ->
  api_key client <> "" /\ environ !! key = Some (api_key client) /\ base_url client = url.
Proof.
  unfold with_key. destruct (environ !! key) as [[|c rest]|]; try discriminate.
  intros [= <-]. simpl. repeat split. discriminate.
Qed.

(** [get_client] hands out a client only for a service it knows and a
    key that is set and not empty, with that key and the service's own
    address; an empty key is refused like a missing one. The copy of the
    API agrees with the copy of the app on every service but "Gemini",
    which the API's copy alone knows. *)
Theorem get_client_needs_a_known_service_and_a_key
    (environ : gmap string string) (service : string) :
  (forall client,
     Client.get_client environ service = inr client ->
     api_key client <> "" /\
     ((service = "Groq" /\ environ !! "GROQ_API_KEY" = Some (api_key client) /\
       base_url client = "https://api.groq.com/openai/v1") \/
      (service = "OpenRouter" /\ environ !! "OPENROUTER_API_KEY" = Some (api_key client) /\
       base_url client = "https://openrouter.ai/api/v1"))) /\
  (service <> "Gemini" ->
   backend_Client.get_client environ service = Client.get_client environ service) /\
  (environ !! "OPENROUTER_API_KEY" = Some "" \/ environ !! "OPENROUTER_API_KEY" = None ->
   Client.get_client environ "OpenRouter"
   = inl (RuntimeError "API key for OpenRouter not found in environment variables.")) /\
  (service <> "Groq" -> service <> "OpenRouter" ->
   Client.get_client environ service
   = inl (Other (ValueError ("Unsupported service: " ++ service)))).
Proof.
  split; [|split; [|split]].
  - intros client. unfold Client.get_client.
    destruct (String.eqb_spec service "Groq") as [->|_].
    + intros Hc. apply with_key_inr in Hc as (Hk & He & Hu). split; [exact Hk|]. left. auto.
    + destruct (String.eqb_spec service "OpenRouter") as [->|_]; [|discriminate].
      intros Hc. apply with_key_inr in Hc as (Hk & He & Hu). split; [exact Hk|]. right. auto.
  - intros Hne. unfold backend_Client.get_client, Client.get_client.
    destruct (String.eqb_spec service "Gemini") as [->|_]; [congruence|].
    destruct (String.eqb_spec service "Groq") as [->|_]; [reflexivity|].
    destruct (String.eqb_spec service "OpenRouter") as [->|_]; reflexivity.
  - intros [Hk|Hk]; unfold Client.get_client, with_key; simpl; now rewrite Hk.
  - intros H1 H2. unfold Client.get_client.
    destruct (String.eqb_spec service "Groq"); [congruence|].
    destruct (String.eqb_spec service "OpenRouter"); [congruence | reflexivity].
Qed.

End ClientFacts.

(** ** Prices on the page *)

Section StreamlitDisplay.
Import Streamlit.
Context `{Scalars}.
Variable str : json -> string.
Variable format_2f : json -> result string.

Local Open Scope list_scope.

(** What pydantic's coercion into [float] gives is a float, and [str]
    of [None] is "None". *)
Hypothesis lax_float_float : forall v m, lax_float v = Some m -> exists f, m = JFloat f.
Hypothesis str_None : str JNull = "None".

Lemma money_dump (extra : extra_mode) (obj m : json) :
  validate (SModel "Money" extra
              [required "amount" SFloat; optional "currency" (SOptional SStr) JNull]) obj
  = Some m ->
  exists members amount currency,
    obj = JObj members /\
    m = JObj [("amount", JFloat amount); ("currency", currency)] /\
    (currency = JNull \/ exists s, currency = JStr s) /\
    (dict_get "currency" members = None \/ dict_get "currency" members = Some JNull ->
     currency = JNull).
Proof.
  destruct obj as [| | | | | |members]; try discriminate.
  rewrite validate_model. unfold required, optional. simpl validate_fields.
  destruct (dict_get "amount" members) as [a|]; [|discriminate].
  simpl. destruct (lax_float a) as [a'|] eqn:Ha; [|discriminate].
  destruct (lax_float_float _ _ Ha) as [f ->].
  destruct (dict_get "currency" members) as [c|] eqn:Hc.
  - destruct c; try discriminate;
      (destruct (extras_allowed extra _ members); [|discriminate]); intros [= <-];
      exists members, f; eexists; (split; [reflexivity|]); (split; [reflexivity|]);
      (split; [eauto|]); intros [Hno | Hnull]; congruence.
  - destruct (extras_allowed extra _ members); [|discriminate]. intros [= <-].
    exists members, f, JNull. repeat split; auto.
Qed.

(** The currency sign that [_format_price] falls back on is never used
    for a price of the pipeline. The dump of every validated [Money], of
    either copy of the schema, carries a [currency] key, [None] when the
    menu gave none, so [price_obj.get("currency", "$")] finds the key and
    the text shown is the currency as [str] prints it, followed by the
    amount: for a price without currency it begins with "None" where the
    dollar sign was meant. *)
Theorem price_labels_never_use_the_default_sign (obj money : json) :
  validate utils_model.Money obj = Some money \/
  validate backend_utils_model.Money obj = Some money ->
  exists members amount currency,
    obj = JObj members /\
    money = JObj [("amount", JFloat amount); ("currency", currency)] /\
    _format_price str format_2f money
    = (formatted ← format_2f (JFloat amount);
       ret (Some (strip_cents (str currency ++ formatted)))) /\
    (dict_get "currency" members = None \/ dict_get "currency" members = Some JNull ->
     forall formatted,
       format_2f (JFloat amount) = inr formatted ->
       _format_price str format_2f money = inr (Some (strip_cents ("None" ++ formatted)))).
Proof.
  intros Hvalid.
  assert (Hdump : exists members amount currency,
            obj = JObj members /\
            money = JObj [("amount", JFloat amount); ("currency", currency)] /\
            (currency = JNull \/ exists s, currency = JStr s) /\
            (dict_get "currency" members = None \/ dict_get "currency" members = Some JNull ->
             currency = JNull))
    by (destruct Hvalid as [Hv | Hv]; exact (money_dump _ _ _ Hv)).
  destruct Hdump as (members & amount & currency & -> & -> & _ & Hnull).
  exists members, amount, currency. split; [reflexivity|]. split; [reflexivity|].
  split; [reflexivity|].
  intros Hno formatted Hformatted. rewrite (Hnull Hno). simpl.
  now rewrite Hformatted, str_None.
Qed.

End StreamlitDisplay.

(** * The two-page menu, run *)

Section Runs.
Import Extractor Menu.
Local Open Scope list_scope.
#[local] Existing Instance exact_scalars.

(** The service answers the two Stage-2 calls of the menu. *)
Definition stage2_service := service (answers [items "Appetizers"; items "Entrees"]).

(** The service answers only the first call with JSON. *)
Definition stage2_service_failing := service (answers [items "Appetizers"]).

Definition stage4_service := service (answers [addons "Appetizers"; addons "Entrees"]).

Lemma bounded_gather_preserves_order_witness :
  (0 < 2)%Z /\
  Executor.work three <= length mixed /\
  Executor.bounded_gather mixed three 2 = Some (inr [10; 20; 30]) /\
  Executor.bounded_gather first_first three 2 = Some (inr [10; 20; 30]).
Proof.
  assert (Hpos : (0 < 2)%Z) by lia.
  assert (Hwork : Executor.work three <= length mixed) by (vm_compute; lia).
  assert (Hwork' : Executor.work three <= length first_first) by (vm_compute; lia).
  split; [exact Hpos|]. split; [exact Hwork|]. split.
  - apply (proj2 (bounded_gather_preserves_order three 2 mixed) Hpos Hwork). reflexivity.
  - apply (proj2 (bounded_gather_preserves_order three 2 first_first) Hpos Hwork'). reflexivity.
Defined.

Lemma bounded_gather_concurrency_ceiling_witness :
  Executor.Semaphore 2 = inr 2%Z /\
  (Z.of_nat (Executor.in_flight (Executor.run mixed (Executor.start 2 three_failing))) <= 2)%Z /\
  Executor.sem_value (Executor.run mixed (Executor.start 2 three_failing)) = 2%Z.
Proof.
  pose proof (bounded_gather_concurrency_ceiling three_failing 2 2 mixed eq_refl)
    as (Hceil & _ & _ & _ & Hfree & _).
  split; [reflexivity|]. split; [exact Hceil|]. apply Hfree. vm_compute. reflexivity.
Defined.

(** A category with one item, as a Stage-2 response carries it, ... *)
Definition lasagna (item : list (string * json)) : json :=
  JObj [("name_raw", JStr "Entrees");
        ("category_items",
         JArr [JObj [("items", JArr [JObj (("name_raw", JStr "Lasagna") :: item)])]]);
        ("note", JStr "")].

(** ... and the instance both copies make of it. *)
Definition lasagna_instance : json :=
  JObj [("name_raw", JStr "Entrees");
        ("category_items",
         JArr [JObj [("items",
                      JArr [JObj [("name_raw", JStr "Lasagna"); ("description_raw", JNull);
                                  ("variations", JArr []); ("base_price", JNull);
                                  ("size", JNull)]]);
                     ("description_raw", JNull)]]);
        ("subcategory_items", JArr []);
        ("note", JStr "")].

Lemma unknown_field_strict_rejects_lenient_drops_witness :
  let top := JObj [("name_raw", JStr "Entrees"); ("confidence", JInt 9); ("note", JStr "")] in
  let nested := lasagna [("confidence", JInt 9)] in
  ~ In "confidence" (declared (strict_schema Stage2)) /\
  model_validate (strict_schema Stage2)
    (JObj [("name_raw", JStr "Entrees"); ("note", JStr "")])
  = ret (JObj [("name_raw", JStr "Entrees"); ("category_items", JArr []);
               ("subcategory_items", JArr []); ("note", JStr "")]) /\
  model_validate (strict_schema Stage2) top = raise ValidationError /\
  model_validate (lenient_schema Stage2) top
  = ret (JObj [("name_raw", JStr "Entrees"); ("category_items", JArr []);
               ("subcategory_items", JArr []); ("note", JStr "")]) /\
  model_validate (lenient_schema Stage2)
    (JObj [("name_raw", JStr "Entrees"); ("confidence", JInt 9)])
  = ret (JObj [("name_raw", JStr "Entrees"); ("category_items", JArr []);
               ("subcategory_items", JArr []); ("note", JStr "No notes provided")]) /\
  model_validate (strict_schema Stage2) (lasagna []) = ret lasagna_instance /\
  model_validate (strict_schema Stage2) nested = raise ValidationError /\
  model_validate (lenient_schema Stage2) nested = ret lasagna_instance.
Proof.
  intros top nested.
  assert (Hnew : ~ In "confidence" (declared (strict_schema Stage2)))
    by (simpl; intros [E|[E|[E|[E|[]]]]]; discriminate E).
  pose proof (unknown_field_strict_rejects_lenient_drops Stage2 "confidence" (JInt 9)
                [("name_raw", JStr "Entrees")] [("note", JStr "")] Hnew)
    as (_ & _ & _ & Hstrict & Hlenient & _ & _ & Hblank & Hdeep & Hdeep').
  assert (Hs : added "confidence" (JInt 9) (strict_schema Stage2) (lasagna []) nested).
  { apply (added_field "confidence" (JInt 9) "CategorywithItems" Forbid _
             "category_items" (SList utils_model.CategoryItems) (Some (JArr []))
             [("name_raw", JStr "Entrees")] [("note", JStr "")]);
      [right; now left | simpl; intros [E|[]]; discriminate E |].
    apply (added_item "confidence" (JInt 9) _ [] []).
    apply (added_field "confidence" (JInt 9) "CategoryItems" Forbid _
             "items" (SList utils_model.Item) (Some (JArr [])) [] []);
      [now left | simpl; tauto |].
    apply (added_item "confidence" (JInt 9) _ [] []).
    apply (added_here "confidence" (JInt 9) "Item" Forbid _ [("name_raw", JStr "Lasagna")] []).
    simpl. intros [E|[E|[E|[E|[E|[]]]]]]; discriminate E. }
  assert (Hl : added "confidence" (JInt 9) (lenient_schema Stage2) (lasagna []) nested).
  { apply (added_field "confidence" (JInt 9) "CategorywithItems" Ignore _
             "category_items" (SList backend_utils_model.CategoryItems) (Some (JArr []))
             [("name_raw", JStr "Entrees")] [("note", JStr "")]);
      [right; now left | simpl; intros [E|[]]; discriminate E |].
    apply (added_item "confidence" (JInt 9) _ [] []).
    apply (added_field "confidence" (JInt 9) "CategoryItems" Ignore _
             "items" (SList backend_utils_model.Item) (Some (JArr [])) [] []);
      [now left | simpl; tauto |].
    apply (added_item "confidence" (JInt 9) _ [] []).
    apply (added_here "confidence" (JInt 9) "Item" Ignore _ [("name_raw", JStr "Lasagna")] []).
    simpl. intros [E|[E|[E|[E|[E|[]]]]]]; discriminate E. }
  split; [exact Hnew|]. split; [reflexivity|]. split; [exact Hstrict|].
  split; [exact (eq_trans Hlenient eq_refl)|]. split; [exact (Hblank "Entrees")|].
  split; [reflexivity|]. split.
  - exact (Hdeep _ _ _ _ Hs).
  - exact (eq_trans (Hdeep' _ _ _ _ Hl) eq_refl).
Defined.





Lemma batches_fail_as_a_whole_witness :
  let run := run_phase2 4 images stage2_service_failing last_first "Amici" stage1 fresh in
  snd run = Raised JSONDecodeError /\
  length (batches (journal (fst run))) = 2 /\
  files (fst run) = files fresh.
Proof.
  intros run.
  assert (Hrun : run = (fst run, Raised JSONDecodeError)) by (vm_compute; reflexivity).
  pose proof (batches_fail_as_a_whole 4 images stage2_service_failing last_first)
    as (_ & _ & _ & Hphase2 & _).
  specialize (Hphase2 "Amici" stage1 fresh (fst run) (Raised JSONDecodeError) Hrun).
  split; [now rewrite Hrun|]. split; [vm_compute; reflexivity | exact Hphase2].
Defined.
Lemma run_phase2_call_pattern_witness :
  let run := run_phase2 4 images stage2_service last_first "Amici" stage1 fresh in
  exists output bs,
    run = (fst run, Returned output) /\
    journal (fst run) = settled bs /\
    map (@length request) bs = [1; 1].
Proof.
  intros run.
  assert (Hout : exists output, run = (fst run, Returned output))
    by (eexists; vm_compute; reflexivity).
  destruct Hout as [output Hrun].
  pose proof (@run_phase2_call_pattern exact_scalars 4 images stage2_service last_first
                "Amici" stage1 fresh) as Hthm.
  specialize (Hthm (fst run) (Returned output) Hrun).
  destruct Hthm as (_ & Hreturned & _).
  specialize (Hreturned output eq_refl).
  destruct Hreturned as (imgs & pages & bs & _ & Hpages & Hj & _ & Hsizes).
  exists output, bs. split; [exact Hrun|]. split; [exact Hj|].
  vm_compute in Hpages. injection Hpages as <-.
  inversion Hsizes as [|p1 b1 ps1 bs1 (cats1 & Hc1 & Hl1) Hrest1]; subst.
  inversion Hrest1 as [|p2 b2 ps2 bs2 (cats2 & Hc2 & Hl2) Hrest2]; subst.
  inversion Hrest2; subst.
  vm_compute in Hc1. injection Hc1 as <-. vm_compute in Hc2. injection Hc2 as <-.
  simpl. now rewrite Hl1, Hl2.
Defined.
(** What a request's prompt says about the pair it was built from. *)
Definition pair_of (req : request) : list (string * arg) :=
  List.filter (fun v => String.eqb (fst v) "category" || String.eqb (fst v) "category_base")
              (variables (text_part req)).

(** Two categories on each page, and a Stage-3 artifact that lists other
    names at the same positions. *)
Definition stage2_pairs : json :=
  artifact [page 1 [items "Appetizers"; items "Soups"];
            page 2 [items "Entrees"; items "Desserts"]].

Definition stage3_pairs : json :=
  artifact [page 1 [bases "Starters"; bases "Broths"];
            page 2 [bases "Mains"; bases "Sweets"]].

Definition stage4_service_pairs :=
  service (answers [addons "Appetizers"; addons "Soups"; addons "Entrees"; addons "Desserts"]).

Definition items_instance (name : string) : json :=
  JObj [("name_raw", JStr name); ("category_items", JArr []);
        ("subcategory_items", JArr []); ("note", JStr "")].

Definition bases_instance (name : string) : json :=
  JObj [("name_raw", JStr name); ("base_options", JArr []); ("subcategories_base", JArr [])].

Definition addons_instance (name : string) : json :=
  JObj [("name_raw", JStr name); ("subcategory_items", JArr []); ("items_addons", JArr [])].

(** The Stage-4 request for a category and a base on page [n]. *)
Definition pair_request (n : Z) (img_b64 : string) (category category_base : string)
    : request :=
  message (phase4_prompt (JStr "Amici") (JInt n)
                         (JObj [("category", items_instance category)])
                         (JObj [("category_base", bases_instance category_base)]))
          img_b64 (json_schema_format utils_model.CategoryItemAddons).

Definition paired_batches : list (list request) :=
  [ [ pair_request 1 "cGFnZTE=" "Appetizers" "Starters";
      pair_request 1 "cGFnZTE=" "Soups" "Broths" ];
    [ pair_request 2 "cGFnZTI=" "Entrees" "Mains";
      pair_request 2 "cGFnZTI=" "Desserts" "Sweets" ] ].

Lemma run_phase4_pairs_by_position_witness :
  let run := run_phase4 4 images stage4_service_pairs last_first "Amici"
                        stage2_pairs stage3_pairs fresh in
  snd run = Returned (artifact [page 1 [addons_instance "Appetizers"; addons_instance "Soups"];
                                page 2 [addons_instance "Entrees"; addons_instance "Desserts"]]) /\
  journal (fst run) = settled paired_batches /\
  batches (journal (fst run)) = paired_batches /\
  map (map pair_of) paired_batches
  = [ [ [ ("category", Dumped (JObj [("category", items_instance "Appetizers")]));
          ("category_base", Dumped (JObj [("category_base", bases_instance "Starters")])) ];
        [ ("category", Dumped (JObj [("category", items_instance "Soups")]));
          ("category_base", Dumped (JObj [("category_base", bases_instance "Broths")])) ] ];
      [ [ ("category", Dumped (JObj [("category", items_instance "Entrees")]));
          ("category_base", Dumped (JObj [("category_base", bases_instance "Mains")])) ];
        [ ("category", Dumped (JObj [("category", items_instance "Desserts")]));
          ("category_base", Dumped (JObj [("category_base", bases_instance "Sweets")])) ] ] ].
Proof.
  intros run.
  pose proof (@run_phase4_pairs_by_position exact_scalars 4 images stage4_service_pairs
                last_first "Amici" stage2_pairs stage3_pairs fresh
                (fst run) (snd run) (surjective_pairing run)) as (_ & Hany & Hreturns).
  assert (Hpos : (0 < 4)%Z) by lia.
  assert (Hpaired : positional (phase4_batch "Amici" ["cGFnZTE="; "cGFnZTI="; "cGFnZTM="])
                      [page 1 [items "Appetizers"; items "Soups"];
                       page 2 [items "Entrees"; items "Desserts"]]
                      [page 1 [bases "Starters"; bases "Broths"];
                       page 2 [bases "Mains"; bases "Sweets"]]
                      paired_batches).
  { apply Forall2_combine_positional. simpl combine. unfold paired_batches.
    repeat constructor; simpl fst; simpl snd.
    - exists (JInt 1), "cGFnZTE=", [items "Appetizers"; items "Soups"],
        [bases "Starters"; bases "Broths"].
      repeat (split; [reflexivity|]).
      apply Forall2_combine_positional. simpl combine.
      repeat constructor; simpl fst; simpl snd; eexists _, _;
        (split; [reflexivity|]); (split; reflexivity).
    - exists (JInt 2), "cGFnZTI=", [items "Entrees"; items "Desserts"],
        [bases "Mains"; bases "Sweets"].
      repeat (split; [reflexivity|]).
      apply Forall2_combine_positional. simpl combine.
      repeat constructor; simpl fst; simpl snd; eexists _, _;
        (split; [reflexivity|]); (split; reflexivity). }
  assert (Hanswered : units_ok stage4_service_pairs utils_model.CategoryItemAddons
                        (issued (journal fresh)) paired_batches).
  { simpl. split; [|split; [|exact I]].
    - exists [addons_instance "Appetizers"; addons_instance "Soups"].
      repeat constructor; eexists; split; reflexivity.
    - exists [addons_instance "Entrees"; addons_instance "Desserts"].
      repeat constructor; eexists; split; reflexivity. }
  assert (Hsched : scheduled stage4_service_pairs last_first
                     (length (batches (journal fresh))) (issued (journal fresh))
                     paired_batches).
  { simpl. split; [vm_compute; lia|]. split; [vm_compute; lia | exact I]. }
  destruct (Hreturns ["cGFnZTE="; "cGFnZTI="; "cGFnZTM="] _ _ paired_batches
              Hpos eq_refl eq_refl eq_refl Hpaired Hanswered Hsched)
    as (w1 & outs & Hj & _ & _ & Hend).
  assert (Hjournal : journal (fst run) = journal w1)
    by (change (fst run) with (fst (fst run, snd run)); now rewrite Hend).
  split; [vm_compute; reflexivity|]. split; [now rewrite Hjournal, Hj|].
  split; [rewrite Hjournal, Hj; reflexivity | reflexivity].
Defined.

Lemma run_phase4_truncates_silently_witness :
  let run := run_phase4 4 images stage4_service last_first "Amici" stage2_longer stage3 fresh in
  length pages2_longer = 3 /\ length pages3 = 2 /\
  run = run_phase4 4 images stage4_service last_first "Amici"
                   (artifact (take 2 pages2_longer)) (artifact (take 2 pages3)) fresh /\
  exists output bs,
    run = (fst run, Returned output) /\
    journal (fst run) = settled bs /\
    length bs = 2.
Proof.
  intros run.
  assert (Hout : exists output, run = (fst run, Returned output))
    by (eexists; vm_compute; reflexivity).
  destruct Hout as [output Hrun].
  pose proof (@run_phase4_truncates_silently exact_scalars 4 images stage4_service last_first
                "Amici" "Amici" "Amici" pages2_longer pages3 fresh) as Hthm.
  destruct Hthm as (Hcut & _ & Hreturned).
  specialize (Hreturned (fst run) output Hrun).
  destruct Hreturned as (imgs & bs & _ & Hj & Hlen & _).
  split; [reflexivity|]. split; [reflexivity|]. split; [exact Hcut|].
  exists output, bs. split; [exact Hrun|]. split; [exact Hj | exact Hlen].
Defined.

Lemma reextraction_returns_one_unit_and_writes_nothing_witness :
  let run := Backend.reextract_category_items
               (service (answers [items "Entrees"])) rasterizer "Entrees" 2
               (outputs stage1_named) in
  snd run =
    Returned (JObj [("success", JBool true);
                    ("message", JStr "Re-extracted items for category 'Entrees'");
                    ("category_items",
                     JObj [("name_raw", JStr "Entrees"); ("category_items", JArr []);
                           ("subcategory_items", JArr []); ("note", JStr "")])]) /\
  files (fst run) = files (outputs stage1_named) /\
  length (batches (journal (fst run))) = 1 /\
  map (@length request) (batches (journal (fst run))) = [1].
Proof.
  intros run.
  assert (Hout : exists response, run = (fst run, Returned response))
    by (eexists; vm_compute; reflexivity).
  destruct Hout as [response Hrun].
  pose proof (@reextraction_returns_one_unit_and_writes_nothing exact_scalars
                (service (answers [items "Entrees"])) rasterizer "Entrees" 2
                (outputs stage1_named)) as Hthm.
  specialize (Hthm (fst run) (Returned response)).
  destruct Hthm as (Hitems & _ & _).
  destruct (Hitems Hrun) as [Hfiles Hone].
  destruct (Hone response eq_refl) as (req & resp & validated & Hj & Hcall & Hvalid & _ & ->).
  assert (Hunit : validated = JObj [("name_raw", JStr "Entrees"); ("category_items", JArr []);
                                    ("subcategory_items", JArr []); ("note", JStr "")]).
  { injection Hcall as <-. vm_compute in Hvalid. injection Hvalid as <-. reflexivity. }
  subst validated.
  split; [rewrite Hrun; reflexivity|]. split; [exact Hfiles|].
  rewrite Hj. split; reflexivity.
Defined.

(** C8 (the code at the failing input). The reviewed categories are the
    Stage-1 artifact, whose categories carry [name_raw] and no [name] key.
    Re-extracting "Entrees" on page 2, which is there, does not find it:
    the handler reads [cat["name"]] and ends in a [KeyError], an internal
    server error; asking for "Desserts", which is not there, ends in the
    same [KeyError] and not in a 404. Only a page that is missing is
    reported as a 404. *)
Lemma reextract_reads_name_and_not_name_raw :
  let handler := Backend.reextract_category_items
                   (service (answers [items "Entrees"])) rasterizer in
  let there := handler "Entrees" 2%Z (outputs stage1) in
  let absent := handler "Desserts" 2%Z (outputs stage1) in
  let no_page := handler "Entrees" 3%Z (outputs stage1) in
  snd there = Raised (KeyError "name") /\ Backend.status_code (snd there) = Some 500%Z /\
  snd absent = Raised (KeyError "name") /\ Backend.status_code (snd absent) = Some 500%Z /\
  snd no_page = Raised (HTTPException 404 "Page 3 not found") /\
  snd (Backend.reextract_category_base
         (service (answers [bases "Entrees"])) rasterizer "Entrees" 2%Z (outputs stage1))
  = Raised (KeyError "name") /\
  snd (Backend.reextract_category_addons
         (service (answers [addons "Entrees"])) rasterizer "Entrees" 2%Z (outputs stage1))
  = Raised (KeyError "name").
Proof. vm_compute. repeat split. Qed.

(** C4 (the code at the failing input). With the artifacts of all four
    stages on disk, the Stage-2 artifact is edited through
    [update_phase2_items]. The edit is saved and nothing else changes: the
    Stage-3 and Stage-4 files are still there, unmarked. The check of the
    files a Stage-4 request requires then passes, and [extract_addons] goes
    on to run Stage 4 on the edited Stage-2 artifact and the Stage-3
    artifact extracted before the edit. *)
Lemma edit_leaves_later_artifacts_in_place :
  let edit := Backend.update_phase2_items edited_items (outputs stage1) in
  let w := fst edit in
  Backend.status_code (snd edit) = Some 200%Z /\
  files w !! Backend.PHASE2_FINAL_ITEMS = Some (JsonText (Backend.payload_dump edited_items)) /\
  files w !! Backend.PHASE3_FINAL_BASES = Some (JsonText stage3) /\
  files w !! Backend.PHASE4_FINAL_ITEMS_ADDONS = Some (JsonText stage4) /\
  Backend.check_required_files
    [Backend.PHASE2_FINAL_ITEMS; Backend.PHASE3_FINAL_BASES; Backend.UPLOADED_PDF_PATH] w
  = (w, Returned tt) /\
  forall run_phase4 : json -> json -> json -> string -> prog json,
    Backend.extract_addons run_phase4 w
    = (result ← run_phase4 (JStr "Amici") (Backend.payload_dump edited_items) stage3
                           Backend.UPLOADED_PDF_PATH;
       mret (Backend.success "Items with addons extraction complete" "phase4_result" result)) w.
Proof.
  intros edit w.
  split; [vm_compute; reflexivity|]. split; [vm_compute; reflexivity|].
  split; [vm_compute; reflexivity|]. split; [vm_compute; reflexivity|].
  split; [vm_compute; reflexivity|].
  intros run_phase4. vm_compute. reflexivity.
Qed.

Lemma streamlit_clears_downstream_witness :
  let session : gmap string json :=
    <["base64_images" := JArr [JStr "cGFnZTE="; JStr "cGFnZTI="]]>
    (<["phase1_result" := stage1]> (<["phase2_result" := stage2]>
    (<["phase3_result" := stage3]> (<["phase4_result" := stage4]> ∅)))) in
  let offline1 := fun _ : json => @Raised json (APIError "offline") in
  let offline2 := fun _ _ : json => @Raised json (APIError "offline") in
  let offline3 := fun _ _ _ : json => @Raised json (APIError "offline") in
  let edited := Streamlit.main_edit Stage2 (JsonText stage2) true session in
  Streamlit.missing session "phase2_result" = false /\
  edited !! "phase3_result" = None /\ edited !! "phase4_result" = None /\
  Streamlit.main_run offline1 offline2 offline2 offline3 Stage4 edited = edited.
Proof.
  intros session offline1 offline2 offline3 edited.
  assert (Hthere : Streamlit.missing session (Streamlit.result_key Stage2) = false)
    by (vm_compute; reflexivity).
  pose proof (streamlit_clears_downstream offline1 offline2 offline2 offline3 Stage2 session)
    as (Hedit & _).
  destruct (Hedit (JsonText stage2) stage2 eq_refl Hthere) as [_ Hcleared].
  pose proof (streamlit_clears_downstream offline1 offline2 offline2 offline3 Stage2 edited)
    as (_ & _ & _ & _ & Hgate).
  split; [exact Hthere|].
  split; [apply (Hcleared Stage3); simpl; lia|].
  split; [apply (Hcleared Stage4); simpl; lia|].
  apply Hgate. apply (Hcleared Stage3). simpl. lia.
Defined.

End Runs.

(** * The two-page menu, further runs *)

Section MoreRuns.
Import Extractor Menu.
Local Open Scope list_scope.
#[local] Existing Instance exact_scalars.

Lemma exact_float_idempotent (v m : json) : lax_float v = Some m -> lax_float m = Some m.
Proof. destruct v; try discriminate. now intros [= <-]. Qed.

Lemma exact_bool_idempotent (v m : json) : lax_bool v = Some m -> lax_bool m = Some m.
Proof. destruct v; try discriminate. now intros [= <-]. Qed.

(** The instance pydantic makes of [{"name_raw": "Entrees", "note": ""}]. *)
Definition entrees : json :=
  JObj [("name_raw", JStr "Entrees"); ("category_items", JArr []);
        ("subcategory_items", JArr []); ("note", JStr "")].

Lemma validated_instances_validate_again_witness :
  model_validate (strict_schema Stage2) (items "Entrees") = ret entrees /\
  model_validate (strict_schema Stage2) entrees = ret entrees.
Proof.
  assert (Hfirst : model_validate (strict_schema Stage2) (items "Entrees") = ret entrees)
    by reflexivity.
  split; [exact Hfirst|].
  exact (proj1 (@validated_instances_validate_again exact_scalars
                  exact_float_idempotent exact_bool_idempotent eq_refl
                  Stage2 (items "Entrees") entrees) Hfirst).
Defined.

Lemma lenient_copy_accepts_what_strict_copy_accepts_witness :
  model_validate (strict_schema Stage2) (items "Entrees") = ret entrees /\
  model_validate (lenient_schema Stage2) (items "Entrees") = ret entrees.
Proof.
  assert (Hstrict : model_validate (strict_schema Stage2) (items "Entrees") = ret entrees)
    by reflexivity.
  split; [exact Hstrict|].
  exact (@lenient_copy_accepts_what_strict_copy_accepts exact_scalars
           Stage2 (items "Entrees") entrees Hstrict).
Defined.

Lemma missing_note_strict_rejects_lenient_defaults_witness :
  dict_get "note" [("name_raw", JStr "Entrees")] = None /\
  model_validate utils_model.CategorywithItems (JObj [("name_raw", JStr "Entrees")])
  = raise ValidationError /\
  exists m,
    model_validate backend_utils_model.CategorywithItems (JObj [("name_raw", JStr "Entrees")])
    = ret m /\
    Py.getitem m "note" = ret (JStr "No notes provided").
Proof.
  assert (Hnone : dict_get "note" [("name_raw", JStr "Entrees")] = None) by reflexivity.
  pose proof (@missing_note_strict_rejects_lenient_defaults exact_scalars
                [("name_raw", JStr "Entrees")] Hnone) as [Hstrict Hlenient].
  split; [exact Hnone|]. split; [exact Hstrict|].
  eexists. split; [reflexivity|]. apply Hlenient. reflexivity.
Defined.

Lemma bounded_gather_at_the_limits_witness :
  Executor.bounded_gather mixed three (-1)
  = Some (inl (ValueError "Semaphore initial value must be >= 0")) /\
  Executor.bounded_gather mixed three 0 = None /\
  Executor.bounded_gather mixed (@nil (Executor.coro nat)) 0 = Some (inr []).
Proof.
  pose proof (@bounded_gather_at_the_limits nat) as (Hneg & Hzero & Hnil).
  split; [apply Hneg; lia|]. split; [apply Hzero; discriminate | apply Hnil; lia].
Defined.

Lemma bounded_gather_raises_a_task_exception_witness :
  Executor.bounded_gather mixed three_failing 2 = Some (inl (APIError "rate limited")).
Proof.
  pose proof (@bounded_gather_raises_a_task_exception nat) as [_ Hsame].
  apply Hsame.
  - lia.
  - vm_compute. lia.
  - eexists. split; [right; left; reflexivity | reflexivity].
  - intros c e' [<-|[<-|[<-|[]]]]; simpl; congruence.
Defined.

(** The service answers the three Stage-1 calls of the three page images. *)
Definition stage1_service :=
  service (answers [JObj [("categories", JArr [category "Appetizers" []])];
                    JObj [("categories", JArr [category "Entrees" ["Pasta"]])];
                    JObj [("categories", JArr [])]]).

Definition three_images : list string := ["cGFnZTE="; "cGFnZTI="; "cGFnZTM="].

Lemma run_phase1_numbers_pages_from_one_witness :
  let run := run_phase1 4 images stage1_service last_first "Amici" fresh in
  exists output pages,
    images = inr three_images /\
    run = (fst run, Returned output) /\
    batches (journal (fst run)) = [phase1_requests "Amici" three_images] /\
    output = envelope "Amici" pages /\
    length pages = 3.
Proof.
  intros run.
  assert (Hout : exists output, run = (fst run, Returned output))
    by (eexists; vm_compute; reflexivity).
  destruct Hout as [output Hrun].
  pose proof (@run_phase1_numbers_pages_from_one exact_scalars 4 images stage1_service
                last_first "Amici" three_images fresh) as Hthm.
  specialize (Hthm (fst run) (Returned output) eq_refl Hrun).
  destruct Hthm as (Hj & _ & Hreturned).
  destruct (Hreturned output eq_refl) as (pages & Hpages & Hlen & _).
  exists output, pages. split; [reflexivity|]. split; [exact Hrun|].
  split; [exact Hj|]. split; [exact Hpages | exact Hlen].
Defined.

Lemma stages_need_a_permit_witness :
  run_phase1 0 images stage1_service last_first "Amici" fresh
  = (log (Submitted (phase1_requests "Amici" three_images)) fresh, Unresolved) /\
  Config.MAX_CONCURRENCY {[ "MAX_CONCURRENCY" := "0" ]} = inr 0%Z.
Proof.
  pose proof (@stages_need_a_permit exact_scalars images stage1_service last_first)
    as (_ & _ & Hhang & _ & Henv & _).
  split; [|exact Henv].
  apply Hhang; [reflexivity | discriminate].
Defined.

Lemma stage_output_mirrors_input_witness :
  let run := run_phase2 4 images stage2_service last_first "Amici" stage1 fresh in
  exists output pages outs,
    run = (fst run, Returned output) /\
    (pages ← Py.getitem stage1 "pages"; Py.iter pages) = inr pages /\
    output = envelope "Amici" outs /\
    length outs = length pages.
Proof.
  intros run.
  assert (Hout : exists output, run = (fst run, Returned output))
    by (eexists; vm_compute; reflexivity).
  destruct Hout as [output Hrun].
  pose proof (@stage_output_mirrors_input exact_scalars 4 images stage2_service last_first)
    as (Hphase2 & _).
  specialize (Hphase2 "Amici" stage1 fresh (fst run) output Hrun).
  destruct Hphase2 as (pages & outs & Hpages & Houtput & Hall).
  exists output, pages, outs. split; [exact Hrun|]. split; [exact Hpages|].
  split; [exact Houtput|]. symmetry. exact (Forall2_length _ _ _ Hall).
Defined.

Lemma page_number_indexes_the_images_witness :
  page_image three_images (JInt 0) = inr "cGFnZTM=" /\
  phase2_page 4 stage2_service last_first "Amici" three_images
              (JObj [("page_number", JInt 4)]) fresh
  = (fresh, Raised IndexError).
Proof.
  pose proof (@page_number_indexes_the_images exact_scalars 4 stage2_service last_first
                three_images 0) as (_ & Hend & _).
  pose proof (@page_number_indexes_the_images exact_scalars 4 stage2_service last_first
                three_images 4) as (_ & _ & Hout).
  split.
  - apply Hend; [simpl; lia | reflexivity].
  - apply (Hout "Amici" (JObj [("page_number", JInt 4)]) JNull fresh);
      [reflexivity | simpl; lia].
Defined.

Lemma stage3_accepts_stage2_output_witness :
  let run := run_phase2 4 images stage2_service last_first "Amici" stage1 fresh in
  exists output outs,
    run = (fst run, Returned output) /\
    (pages ← Py.getitem output "pages"; Py.iter pages) = inr outs /\
    Forall (ready_for_phase3 three_images) outs.
Proof.
  intros run.
  assert (Hout : exists output, run = (fst run, Returned output))
    by (eexists; vm_compute; reflexivity).
  destruct Hout as [output Hrun].
  pose proof (@stage3_accepts_stage2_output exact_scalars 4 images stage2_service last_first
                exact_float_idempotent exact_bool_idempotent eq_refl
                "Amici" stage1 fresh) as Hthm.
  specialize (Hthm (fst run) output Hrun).
  destruct Hthm as (imgs & outs & Himgs & Hpages & Hready & _).
  injection Himgs as <-.
  exists output, outs. split; [exact Hrun|]. split; [exact Hpages | exact Hready].
Defined.

(** *** The API *)

(** The user's review of the Stage-1 categories: "Appetizers" becomes
    "Starters". *)
Definition reviewed_categories : Backend.payload :=
  {| Backend.restaurant_name := "Amici";
     Backend.pages :=
       [ [("page_number", JInt 1);
          ("data", JObj [("categories", JArr [category "Starters" []])])];
         [("page_number", JInt 2);
          ("data", JObj [("categories", JArr [category "Entrees" ["Pasta"]])])] ] |}.

(** The items as a front end may send them when page 2 has lost its
    [categories]. *)
Definition broken_items : Backend.payload :=
  {| Backend.restaurant_name := "Amici";
     Backend.pages :=
       [ [("page_number", JInt 1); ("categories", JArr [items "Starters"])];
         [("page_number", JInt 2)] ] |}.

(** The directory after Stage 1 alone. *)
Definition after_phase1 : world :=
  {| files := <[Backend.UPLOADED_PDF_PATH := OtherText "%PDF-1.7"]>
              (<[Backend.PHASE1_RAW_OUTPUT := JsonText stage1]> ∅);
     journal := [] |}.

Lemma updates_touch_only_their_own_file_witness :
  let edit := Backend.update_phase2_items edited_items (outputs stage1) in
  let refused := Backend.update_phase2_items broken_items (outputs stage1) in
  files (fst edit) !! Backend.PHASE2_FINAL_ITEMS
  = Some (json_dumps (Backend.payload_dump edited_items)) /\
  files (fst edit) !! Backend.PHASE3_FINAL_BASES = Some (JsonText stage3) /\
  files (fst edit) !! Backend.PHASE2_INPUT_REVIEWED = Some (JsonText stage1) /\
  journal (fst edit) = [] /\
  files (fst refused) !! Backend.PHASE3_FINAL_BASES = Some (JsonText stage3) /\
  journal (fst refused) = [].
Proof.
  intros edit refused.
  assert (Hout : exists response, edit = (fst edit, Returned response))
    by (eexists; vm_compute; reflexivity).
  destruct Hout as [response Hedit].
  pose proof (@updates_touch_only_their_own_file exact_scalars) as (_ & Hitems & _).
  destruct (Hitems edited_items (outputs stage1) (fst edit) (Returned response) Hedit)
    as (Hj & Hothers & Hown & _).
  destruct (Hitems broken_items (outputs stage1) (fst refused) (snd refused)
              (surjective_pairing refused))
    as (Hj' & Hothers' & _).
  split; [exact (Hown response eq_refl)|].
  split; [rewrite Hothers by discriminate; reflexivity|].
  split; [rewrite Hothers by discriminate; reflexivity|].
  split; [exact Hj|].
  split; [rewrite Hothers' by discriminate; reflexivity | exact Hj'].
Defined.

(** The items as a front end may send them when the second category of
    page 2 has lost its name. *)
Definition nameless_items : Backend.payload :=
  {| Backend.restaurant_name := "Amici";
     Backend.pages :=
       [ [("page_number", JInt 1); ("categories", JArr [items "Starters"])];
         [("page_number", JInt 2);
          ("categories", JArr [items "Entrees"; JObj [("note", JStr "")]])] ] |}.

Lemma updates_refuse_at_the_first_bad_page_witness :
  Backend.update_phase2_items broken_items (outputs stage1)
  = (outputs stage1, Raised (HTTPException 400 "Invalid payload structure")) /\
  Backend.update_phase2_items nameless_items (outputs stage1)
  = (outputs stage1, Raised ValidationError).
Proof.
  assert (Hgood : Forall items_page_ok
            [ [("page_number", JInt 1); ("categories", JArr [items "Starters"])] ]).
  { constructor; [|constructor]. exists [items "Starters"]. split; [reflexivity|].
    constructor; [|constructor]. eexists. reflexivity. }
  split.
  - pose proof (@updates_refuse_at_the_first_bad_page exact_scalars broken_items
                  (outputs stage1)) as (_ & Hitems).
    destruct (Hitems [ [("page_number", JInt 1); ("categories", JArr [items "Starters"])] ]
                     [("page_number", JInt 2)] [] eq_refl Hgood) as [Hmissing _].
    apply Hmissing. reflexivity.
  - pose proof (@updates_refuse_at_the_first_bad_page exact_scalars nameless_items
                  (outputs stage1)) as (_ & Hitems).
    destruct (Hitems [ [("page_number", JInt 1); ("categories", JArr [items "Starters"])] ]
                     [("page_number", JInt 2);
                      ("categories", JArr [items "Entrees"; JObj [("note", JStr "")]])]
                     [] eq_refl Hgood) as [_ Hinvalid].
    destruct (Hinvalid [items "Entrees"; JObj [("note", JStr "")]] [items "Entrees"]
                       (JObj [("note", JStr "")]) [] eq_refl eq_refl) as [Hraised _].
    + constructor; [|constructor]. eexists. reflexivity.
    + reflexivity.
    + exact Hraised.
Defined.

Lemma saved_data_is_served_back_witness :
  let edit := Backend.update_phase2_items edited_items (outputs stage1) in
  Backend.get_phase2_items (fst edit)
  = (fst edit, Returned (served (Backend.payload_dump edited_items))).
Proof.
  intros edit.
  assert (Hout : exists response, edit = (fst edit, Returned response))
    by (eexists; vm_compute; reflexivity).
  destruct Hout as [response Hedit].
  pose proof (@saved_data_is_served_back exact_scalars (fun _ _ => mret JNull))
    as (Hitems & _).
  exact (Hitems edited_items (outputs stage1) (fst edit) response Hedit).
Defined.

Lemma reviewed_categories_are_not_served_witness :
  let edit := Backend.update_phase1_categories reviewed_categories after_phase1 in
  exists response,
    edit = (fst edit, Returned response) /\
    snd (Backend.get_phase1_categories (fst edit)) = Returned (served stage1) /\
    Backend.load_json_file Backend.PHASE2_INPUT_REVIEWED "No reviewed categories found."
                           (fst edit)
    = (fst edit, Returned (Backend.payload_dump reviewed_categories)).
Proof.
  intros edit.
  assert (Hout : exists response, edit = (fst edit, Returned response))
    by (eexists; vm_compute; reflexivity).
  destruct Hout as [response Hedit].
  pose proof (@reviewed_categories_are_not_served exact_scalars reviewed_categories
                after_phase1 (fst edit) response Hedit) as (Hreviewed & Hget1 & _).
  exists response. split; [exact Hedit|]. split; [|exact Hreviewed].
  rewrite Hget1. vm_compute. reflexivity.
Defined.

Lemma extraction_endpoints_look_before_they_run_witness :
  let run2 := fun (_ _ : json) (_ : string) => (mret JNull : prog json) in
  Backend.extract_items run2 after_phase1
  = (after_phase1,
     Raised (HTTPException 400
       "Required file not found: reviewed_categories.json. Please complete previous phases.")).
Proof.
  intros run2.
  pose proof (extraction_endpoints_look_before_they_run
                (fun _ _ => mret JNull) run2 run2 (fun _ _ _ _ => mret JNull) after_phase1)
    as (_ & Hitems & _).
  destruct Hitems as [[e He] | (reviewed & restaurant & Hfile & _)].
  - rewrite He. f_equal. vm_compute in He. now injection He as <-.
  - vm_compute in Hfile. discriminate Hfile.
Defined.

(** *** The command line *)

(** The service answers the three calls of Stage 1 and then the two
    calls of Stage 2. *)
Definition pipeline_service :=
  service (answers [JObj [("categories", JArr [category "Appetizers" []])];
                    JObj [("categories", JArr [category "Entrees" ["Pasta"]])];
                    JObj [("categories", JArr [])];
                    items "Appetizers"; items "Entrees"]).

Lemma cli_phases_read_what_the_previous_wrote_witness :
  let run1 := run_phase1 4 images pipeline_service last_first "Amici" fresh in
  exists out1,
    run1 = (fst run1, Returned out1) /\
    Config.int (Config.strip "2") = inr 2%Z /\
    Cli.main 4 images pipeline_service last_first " Amici " "2" (fst run1)
    = Cli.report Config.ITEMS_FILE
        (run_phase2 4 images pipeline_service last_first "Amici" out1 (fst run1)).
Proof.
  intros run1.
  assert (Hout : exists out1, run1 = (fst run1, Returned out1))
    by (eexists; vm_compute; reflexivity).
  destruct Hout as [out1 Hrun].
  pose proof (@cli_phases_read_what_the_previous_wrote exact_scalars 4 images
                pipeline_service last_first " Amici " "2") as [Hchain _].
  exists out1. split; [exact Hrun|]. split; [reflexivity|].
  exact (Hchain "Amici" fresh (fst run1) out1 Hrun eq_refl).
Defined.

Lemma cli_stops_before_running_witness :
  Cli.main 4 images pipeline_service last_first "Amici" "3" fresh
  = (fresh, Cli.prompts, Cli.FileNotFoundError Config.ITEMS_FILE) /\
  Cli.main 4 images pipeline_service last_first "Amici" "5" fresh
  = (fresh, Cli.prompts, Cli.Traceback (ValueError "Phase must be 1, 2, 3, or 4.")).
Proof.
  pose proof (@cli_stops_before_running exact_scalars 4 images pipeline_service last_first
                "Amici" "3" fresh) as (_ & _ & _ & Hthree & _).
  pose proof (@cli_stops_before_running exact_scalars 4 images pipeline_service last_first
                "Amici" "5" fresh) as (_ & Hfive & _).
  split; [apply Hthree; reflexivity | apply (Hfive 5%Z); [reflexivity | lia]].
Defined.

(** *** The Streamlit app *)

(** A session in which a first document was uploaded and all four stages
    were run. *)
Definition session : gmap string json :=
  <["pdf_token" := Streamlit.token "dinner.pdf" "%PDF-1.7 dinner"]>
  (<["base64_images" := JArr [JStr "cGFnZTE="; JStr "cGFnZTI="]]>
  (<["phase1_result" := stage1]> (<["phase2_result" := stage2]>
  (<["phase3_result" := stage3]> (<["phase4_result" := stage4]> ∅))))).

Lemma upload_is_converted_once_per_token_witness :
  let broken := fun _ : string => @inl exn (list string) (ValueError "cannot open document") in
  let st' := <["pdf_token" := Streamlit.token "lunch.pdf" "%PDF-1.7 lunch"]> session in
  Streamlit.main_upload broken (Some ("lunch.pdf", "%PDF-1.7 lunch")) session
  = (st', raise (ValueError "cannot open document")) /\
  Streamlit.main_upload (fun _ => inr ["cGFnZTE="]) (Some ("lunch.pdf", "%PDF-1.7 lunch")) st'
  = (st', ret tt) /\
  st' !! "phase4_result" = Some stage4.
Proof.
  intros broken st'.
  pose proof (upload_is_converted_once_per_token broken "lunch.pdf" "%PDF-1.7 lunch" session)
    as (_ & _ & _ & Hfails).
  destruct (Hfails (ValueError "cannot open document")) as [Hfirst Hnext];
    [vm_compute; reflexivity | reflexivity |].
  split; [exact Hfirst|]. split; [apply Hnext; reflexivity|].
  vm_compute. reflexivity.
Defined.

Lemma editor_stores_any_document_witness :
  let emptied := Streamlit.main_edit Stage2 (JsonText (JObj [])) true session in
  Streamlit.missing session "phase2_result" = false /\
  emptied !! "phase2_result" = Some (JObj []) /\
  Streamlit.missing emptied "phase2_result" = true /\
  Streamlit.disabled Stage3 emptied = true.
Proof.
  intros emptied.
  assert (Hthere : Streamlit.missing session (Streamlit.result_key Stage2) = false)
    by (vm_compute; reflexivity).
  pose proof (editor_stores_any_document Stage2 session) as (_ & _ & Hfalsy).
  destruct (Hfalsy (JsonText (JObj [])) (JObj []) Hthere eq_refl eq_refl)
    as (Hown & Hmissing & _ & Hnext & _).
  split; [exact Hthere|]. split; [exact Hown|]. split; [exact Hmissing|].
  apply Hnext. reflexivity.
Defined.

Definition environment : gmap string string := {[ "OPENROUTER_API_KEY" := "sk-or-v1" ]}.

Lemma executors_are_the_runners_without_the_file_witness :
  let call_llm := fun (_ : Client.AsyncOpenAI) (_ : string) => stage2_service in
  exists body,
    Streamlit.execute_phase2 environment call_llm last_first "OpenRouter" "a-model" "Amici"
                             three_images stage1
    = inr body /\
    snd (body fresh)
    = snd (run_phase2 4 (inr three_images) stage2_service last_first "Amici" stage1 fresh) /\
    files (fst (body fresh)) = files fresh /\
    Streamlit.execute_phase2 ∅ call_llm last_first "OpenRouter" "a-model" "Amici"
                             three_images stage1
    = inl (Client.RuntimeError "API key for OpenRouter not found in environment variables.").
Proof.
  intros call_llm.
  pose proof (@executors_are_the_runners_without_the_file exact_scalars environment call_llm
                last_first "OpenRouter" "a-model" "Amici" three_images)
    as (_ & Hphase2 & _).
  specialize (Hphase2 stage1). unfold executes in Hphase2.
  assert (Hclient : Client.get_client environment "OpenRouter"
                    = inr {| Client.api_key := "sk-or-v1";
                             Client.base_url := "https://openrouter.ai/api/v1" |})
    by (vm_compute; reflexivity).
  rewrite Hclient in Hphase2. destruct Hphase2 as (body & Hbody & Hsame).
  destruct (Hsame fresh) as (Ho & _ & Hf).
  exists body. split; [exact Hbody|]. split; [exact Ho|]. split; [exact Hf|].
  pose proof (@executors_are_the_runners_without_the_file exact_scalars ∅ call_llm
                last_first "OpenRouter" "a-model" "Amici" three_images)
    as (_ & Hnone & _).
  specialize (Hnone stage1). unfold executes in Hnone.
  assert (Hno : Client.get_client ∅ "OpenRouter"
                = inl (Client.RuntimeError
                         "API key for OpenRouter not found in environment variables."))
    by (vm_compute; reflexivity).
  rewrite Hno in Hnone. exact Hnone.
Defined.

Lemma get_client_needs_a_known_service_and_a_key_witness :
  Client.get_client {[ "OPENROUTER_API_KEY" := "" ]} "OpenRouter"
  = inl (Client.RuntimeError "API key for OpenRouter not found in environment variables.") /\
  backend_Client.get_client environment "OpenRouter"
  = Client.get_client environment "OpenRouter" /\
  Client.get_client environment "Gemini"
  = inl (Client.Other (ValueError "Unsupported service: Gemini")).
Proof.
  pose proof (get_client_needs_a_known_service_and_a_key
                {[ "OPENROUTER_API_KEY" := "" ]} "OpenRouter") as (_ & _ & Hempty & _).
  pose proof (get_client_needs_a_known_service_and_a_key environment "OpenRouter")
    as (_ & Hagree & _).
  pose proof (get_client_needs_a_known_service_and_a_key environment "Gemini")
    as (_ & _ & _ & Hunknown).
  split; [apply Hempty; left; reflexivity|].
  split; [apply Hagree; discriminate | apply Hunknown; discriminate].
Defined.

(** How the interpreter prints [None] and a string, and the amount 12.5
    with two decimals. *)
Definition printed (v : json) : string :=
  match v with
  | JNull => "None"
  | JStr s => s
  | _ => "?"
  end.

Definition two_decimals (v : json) : result string :=
  match v with
  | JFloat _ => inr "12.50"
  | _ => inl TypeError
  end.

Lemma exact_float_float (v m : json) : lax_float v = Some m -> exists f, m = JFloat f.
Proof. destruct v; try discriminate. intros [= <-]. eauto. Qed.

Lemma price_labels_never_use_the_default_sign_witness :
  let money := JObj [("amount", JFloat 12.5); ("currency", JNull)] in
  validate utils_model.Money (JObj [("amount", JFloat 12.5)]) = Some money /\
  Streamlit._format_price printed two_decimals money = inr (Some "None12.50").
Proof.
  intros money.
  assert (Hvalid : validate utils_model.Money (JObj [("amount", JFloat 12.5)]) = Some money)
    by reflexivity.
  split; [exact Hvalid|].
  destruct (@price_labels_never_use_the_default_sign exact_scalars printed two_decimals
              exact_float_float eq_refl (JObj [("amount", JFloat 12.5)]) money
              (or_introl Hvalid))
    as (members & amount & currency & Hobj & Hmoney & _ & Hlabel).
  injection Hobj as <-. injection Hmoney as <- <-.
  exact (Hlabel (or_introl eq_refl) "12.50" eq_refl).
Defined.

End MoreRuns.
